(** * Bitbucket access revocation and evidence collection

    A shallow embedding of [bitbucket_revoke_and_audit.js] and the
    properties of its revoke / verify / evidence / report pipeline.

    Modelling conventions.
    - JavaScript strings are byte strings ([string]); [toLowerCase] and
      [trim] act on the ASCII range.
    - JSON numbers are integers ([Z]).
    - [async] code is sequential here: every call is awaited before the next
      statement runs, so a promise rejection is an exception.
    - The file system is a finite map from paths to contents; a directory
      exists when something lies below it.  A write, an unlink or a rename
      fails when the map says so (a missing source file) or when the
      environment says so: the environment has one answer for each such
      call.  Reading and listing do not fail.
    - The remote server, the headless browser, the image library and the
      document generator are outside the program.  Their answers are read
      from an environment record, one field per call site.
    - Console output and every other effect is appended to a trace.
    - The statements that run when the module is loaded (the check of the
      three environment variables, the normalisation of [BB_URL], the
      creation of the directories) are taken as done: [BASE_URL] is given.
      The check and the normalisation are modelled on their own, as
      [configure]. *)

From Stdlib Require Import ZArith Lia Ascii String.
From stdpp Require Import base strings pretty gmap list.

Local Open Scope Z_scope.

(** ** Strings *)

Module Str.

Definition dq : string := String "034"%char "".

Fixpoint drop_ws (s : string) : string :=
  match s with
  | String a s' => if Ascii.is_space a then drop_ws s' else s
  | "" => ""
  end.

(** [String.prototype.trim] *)
Definition trim (s : string) : string :=
  String.rev (drop_ws (String.rev (drop_ws s))).

Definition lower_ascii (a : ascii) : ascii :=
  let n := nat_of_ascii a in
  if ((65 <=? n)%nat && (n <=? 90)%nat)%bool then ascii_of_nat (n + 32) else a.

(** [String.prototype.toLowerCase] *)
Fixpoint toLowerCase (s : string) : string :=
  match s with
  | String a s' => String (lower_ascii a) (toLowerCase s')
  | "" => ""
  end.

(** [String.prototype.endsWith] *)
Definition endsWith (s suffix : string) : bool :=
  String.prefix (String.rev suffix) (String.rev s).

Definition hex_digit (n : nat) : ascii :=
  ascii_of_nat (if (n <? 10)%nat then 48 + n else 55 + n).

Definition uri_unreserved (a : ascii) : bool :=
  let n := nat_of_ascii a in
  (((65 <=? n)%nat && (n <=? 90)%nat) || ((97 <=? n)%nat && (n <=? 122)%nat)
   || ((48 <=? n)%nat && (n <=? 57)%nat)
   || bool_decide (a ∈ ["-"; "_"; "."; "!"; "~"; "*"; "'"; "("; ")"]%char))%bool.

(** [encodeURIComponent], byte by byte *)
Fixpoint encodeURIComponent (s : string) : string :=
  match s with
  | String a s' =>
      if uri_unreserved a then String a (encodeURIComponent s')
      else let n := nat_of_ascii a in
           String "%" (String (hex_digit (n / 16)) (String (hex_digit (n mod 16))
             (encodeURIComponent s')))
  | "" => ""
  end.

(** [String(x).padStart(2, '0')] for a clock field *)
Definition pad2 (n : nat) : string :=
  let s := pretty n in
  if (String.length s <? 2)%nat then "0" +:+ s else s.

End Str.

(** [safeName]: every maximal run of characters among slash, backslash,
    question mark, percent, star, colon, bar, double quote, angle brackets
    and space becomes one underscore. *)
Definition unsafe_char (a : ascii) : bool :=
  bool_decide (a ∈ ["/"; "\"; "?"; "%"; "*"; ":"; "|"; "034"; "<"; ">"; " "]%char).

Fixpoint safeName_go (in_run : bool) (s : string) : string :=
  match s with
  | String a s' =>
      if unsafe_char a
      then (if in_run then safeName_go true s' else String "_" (safeName_go true s'))
      else String a (safeName_go false s')
  | "" => ""
  end.

Definition safeName (s : string) : string := safeName_go false s.

(** The reading of [new Date()] that the two formatters use. *)
Record date := Date {
  getFullYear : nat; getMonth : nat; getDate : nat;
  getHours : nat; getMinutes : nat; getSeconds : nat }.

Definition formatTs (d : date) : string :=
  pretty (getFullYear d) +:+ "-" +:+ Str.pad2 (getMonth d + 1) +:+ "-" +:+ Str.pad2 (getDate d)
  +:+ " " +:+ Str.pad2 (getHours d) +:+ ":" +:+ Str.pad2 (getMinutes d)
  +:+ ":" +:+ Str.pad2 (getSeconds d).

Definition formatSafeTs (d : date) : string :=
  pretty (getFullYear d) +:+ "-" +:+ Str.pad2 (getMonth d + 1) +:+ "-" +:+ Str.pad2 (getDate d)
  +:+ "_" +:+ Str.pad2 (getHours d) +:+ "-" +:+ Str.pad2 (getMinutes d)
  +:+ "-" +:+ Str.pad2 (getSeconds d).

(** [path.join] on the already normalised segments this program passes. *)
Definition path_join (dir name : string) : string := dir +:+ "/" +:+ name.

(** ** JavaScript values

    [JUndefined] is what a property read returns for a missing key;
    [JNative] stands for a built-in function value (the only one the program
    can meet is [Array.prototype.values]). *)
#[local] Set Warnings "-register-all".
Inductive jsval :=
| JUndefined
| JNull
| JBool (b : bool)
| JNum (n : Z)
| JStr (s : string)
| JArr (items : list jsval)
| JObj (props : list (string * jsval))
| JNative.

Definition exn := string.

Definition truthy (v : jsval) : bool :=
  match v with
  | JUndefined | JNull => false
  | JBool b => b
  | JNum n => negb (n =? 0)
  | JStr s => negb (bool_decide (s = ""))
  | JArr _ | JObj _ | JNative => true
  end.

(** The own property [k] of a parsed object, whose keys are distinct. *)
Fixpoint own_prop (props : list (string * jsval)) (k : string) : jsval :=
  match props with
  | (k', v) :: rest => if bool_decide (k' = k) then v else own_prop rest k
  | [] => JUndefined
  end.

(** [v.k] for the keys the program reads ([values], [name], [user]): a
    [TypeError] on [null] and [undefined], the own property of an object,
    the inherited [values] method of an array, [undefined] otherwise. *)
Definition get_prop (v : jsval) (k : string) : exn + jsval :=
  match v with
  | JUndefined => inl ("Cannot read properties of undefined (reading '" +:+ k +:+ "')")
  | JNull => inl ("Cannot read properties of null (reading '" +:+ k +:+ "')")
  | JObj props => inr (own_prop props k)
  | JArr _ => inr (if bool_decide (k = "values") then JNative else JUndefined)
  | _ => inr JUndefined
  end.

(** [a || b] and [a && b], with [b] evaluated only when needed. *)
Definition js_or (a : jsval) (b : exn + jsval) : exn + jsval :=
  if truthy a then inr a else b.
Definition js_and (a : jsval) (b : exn + jsval) : exn + jsval :=
  if truthy a then b else inr a.

(** [nm.toLowerCase()]: a method of strings only. *)
Definition call_toLowerCase (nm : jsval) : exn + string :=
  match nm with
  | JStr s => inr (Str.toLowerCase s)
  | JUndefined | JNull => inl "Cannot read properties of undefined (reading 'toLowerCase')"
  | _ => inl "nm.toLowerCase is not a function"
  end.

Definition isArray (v : jsval) : option (list jsval) :=
  match v with JArr items => Some items | _ => None end.

(** Exceptions in expressions without effects. *)
Definition ebind {A B} (m : exn + A) (k : A → exn + B) : exn + B :=
  match m with inl e => inl e | inr a => k a end.

(** ** The world, its effects and the monad of the program *)

Inductive event :=
| EvHttp (method url : string)
| EvConsole (args : list jsval)
| EvWriteFile (p : string)
| EvAppendFile (p line : string)
| EvUnlink (p : string)
| EvRename (src dst : string)
| EvReaddir (dir : string)
| EvLaunch
| EvNewPage
| EvGoto (url : string)
| EvEvaluate
| EvSetViewport (w h : Z)
| EvScreenshotClip (p : string) (x y w h : Z)
| EvScreenshotFull (p : string)
| EvSharpTrim (src dst : string)
| EvBrowserClose
| EvDocxGenerate (out title generated : string) (images : list string).

Record world := World {
  fs : gmap string string;      (* path ↦ bytes *)
  browsers : nat;               (* browser instances launched and not yet closed *)
  trace : list event }.

Inductive outcome (A : Type) :=
| Ok (a : A)
| Throw (e : exn)
| Exit (code : Z).
Arguments Ok {A} a.
Arguments Throw {A} e.
Arguments Exit {A} code.

Definition M (A : Type) : Type := world → outcome A * world.

Definition ret {A} (a : A) : M A := λ w, (Ok a, w).
Definition bind {A B} (m : M A) (k : A → M B) : M B :=
  λ w, match m w with
       | (Ok a, w') => k a w'
       | (Throw e, w') => (Throw e, w')
       | (Exit c, w') => (Exit c, w')
       end.
Definition throw {A} (e : exn) : M A := λ w, (Throw e, w).
Definition process_exit {A} (code : Z) : M A := λ w, (Exit code, w).

(** [try { body } catch (err) { handler }]: effects of the body stay. *)
Definition try_catch {A} (body : M A) (handler : exn → M A) : M A :=
  λ w, match body w with
       | (Throw e, w') => handler e w'
       | r => r
       end.

Definition lift {A} (r : exn + A) : M A :=
  match r with inl e => throw e | inr a => ret a end.
Definition fault (f : option exn) : M unit :=
  match f with Some e => throw e | None => ret tt end.

Definition emit (ev : event) : M unit :=
  λ w, (Ok tt, World (fs w) (browsers w) (trace w ++ [ev])).
Definition update_fs (f : gmap string string → gmap string string) : M unit :=
  λ w, (Ok tt, World (f (fs w)) (browsers w) (trace w)).
Definition update_browsers (f : nat → nat) : M unit :=
  λ w, (Ok tt, World (fs w) (f (browsers w)) (trace w)).
Definition read_fs : M (gmap string string) := λ w, (Ok (fs w), w).

Declare Scope js_scope.
Delimit Scope js_scope with js.
Notation "'let!' x ':=' c 'in' k" := (bind c (λ x, k))
  (at level 10, x pattern, c at level 100, k at level 200) : js_scope.
Notation "c ';;;' k" := (bind c (λ _, k))
  (at level 100, k at level 200, right associativity) : js_scope.
Notation "'let?' x ':=' c 'in' k" := (ebind c (λ x, k))
  (at level 10, x pattern, c at level 100, k at level 200) : js_scope.
Local Open Scope js_scope.

(** [console.log] and [console.error] *)
Definition console (args : list jsval) : M unit := emit (EvConsole args).

(** *** File system *)

Definition existsSync (p : string) : M bool :=
  let! m := read_fs in ret (bool_decide (is_Some (m !! p))).

(** Directories are implicit in the map, so there is nothing to create. *)
Definition ensureDir (p : string) : M unit :=
  let! e := existsSync p in ret tt.

(** The calls that change the file system take the answer of the
    environment for this call: [Some err] when the operating system refuses
    it (a name too long, a full disk, a missing permission, a destination
    that is a directory), and then nothing has changed. *)
Definition writeFileSync (refused : option exn) (p data : string) : M unit :=
  emit (EvWriteFile p);;; fault refused;;; update_fs (<[p := data]>).

Definition appendFileSync (refused : option exn) (p data : string) : M unit :=
  emit (EvAppendFile p data);;; fault refused;;;
  update_fs (λ m, <[p := default "" (m !! p) +:+ data]> m).

Definition unlinkSync (refused : option exn) (p : string) : M unit :=
  emit (EvUnlink p);;;
  let! m := read_fs in
  match m !! p with
  | Some _ => fault refused;;; update_fs (delete p)
  | None => throw ("ENOENT: no such file or directory, unlink '" +:+ p +:+ "'")
  end.

Definition renameSync (refused : option exn) (src dst : string) : M unit :=
  emit (EvRename src dst);;;
  let! m := read_fs in
  match m !! src with
  | Some data => fault refused;;; update_fs (λ m, <[dst := data]> (delete src m))
  | None => throw ("ENOENT: no such file or directory, rename '" +:+ src +:+ "'")
  end.

Definition readFileSync (p : string) : M string :=
  let! m := read_fs in
  match m !! p with
  | Some data => ret data
  | None => throw ("ENOENT: no such file or directory, open '" +:+ p +:+ "'")
  end.

(** ** What the program takes from outside *)

(** The process: its working directory and the normalised [BB_URL], with the
    two library functions whose output format no property depends on.
    The credentials [BB_USERNAME] and [BB_KEYNAME] travel with each request
    and are not represented. *)
Class Config := {
  ROOT : string;
  BASE_URL : string;
  JSON_stringify : jsval → string;
  csv_parse : string → exn + list (gmap string string) }.

(** The end of an HTTP exchange as axios sees it, before [validateStatus]. *)
Inductive http_reply :=
| Reply (status : Z) (data : jsval)
| NetFail (msg : string).

(** The rectangle [page.evaluate] hands back.  A dimension is [None] when it
    is not a number proper ([undefined], [NaN]). *)
Record rect := Rect { rect_x : Z; rect_y : Z; rect_width : option Z; rect_height : option Z }.

(** What sharp does with a given input: the trimmed bytes, or a failure that
    may have left some bytes at the destination already. *)
Inductive trim_reply :=
| Trimmed (out : string)
| TrimFail (msg : exn) (partial : option string).

(** The answers of the outside world during one record. *)
Record renv := {
  delete_reply : http_reply;
  get_reply : http_reply;
  now_ts : date;
  now_safeTs : date;
  now_stamp : date;
  now_html : date;
  launch_fault : option exn;
  newPage_fault : option exn;
  goto_fault : option exn;
  measured : exn + rect;
  setViewport_fault : option exn;
  clip_shot : exn + string;
  full_shot : exn + string;
  sharp : string → trim_reply;
  close_fault : option exn;
  writeHtml_fault : option exn;  (* fs.writeFileSync, line 168 *)
  unlink_fault : option exn;     (* fs.unlinkSync, line 202 *)
  rename_fault : option exn;     (* fs.renameSync, line 205 *)
  append_fault : option exn }.   (* fs.appendFileSync, lines 339 and 343 *)

(** The answers during one report assembly.  [DocxFail msg remains] is an
    output stream that emits [error]: [remains] is what the file then holds,
    [None] when the stream could not be opened and the file is untouched,
    [Some partial] when the error came after [fs.createWriteStream] had
    truncated the file.  [docx_add] and [docx_retry] are the two attempts to put an
    image in the document (lines 236-260), by path: [Some msg] when the
    attempt throws. *)
Inductive docx_reply :=
| DocxWritten (bytes : string)
| DocxFail (msg : exn) (remains : option string).

Record denv := {
  docx_now : date;
  docx_write : docx_reply;
  docx_add : string → option exn;
  docx_retry : string → option exn }.

Record env := {
  record_env : nat → renv;       (* by position of the row in the input *)
  has_report_env : denv;
  no_report_env : denv;
  access_header_fault : option exn;      (* fs.writeFileSync, line 291 *)
  no_access_header_fault : option exn }. (* fs.writeFileSync, line 294 *)

(** *** axios *)

Record response := Response { resp_status : Z; resp_data : jsval }.

(** The [validateStatus] axios applies when the caller gives none. *)
Definition default_validateStatus (status : Z) : bool :=
  (200 <=? status) && (status <? 300).

(** A request resolves when a reply arrives and [validateStatus] accepts its
    status, and rejects otherwise. *)
Definition axios (method url : string) (validateStatus : Z → bool) (r : http_reply)
  : M response :=
  emit (EvHttp method url);;;
  match r with
  | Reply status data =>
      if validateStatus status then ret (Response status data)
      else throw ("Request failed with status code " +:+ pretty status)
  | NetFail msg => throw msg
  end.

(** ** The program *)

Section Program.
Context `{Config}.

Definition INPUT_DIR := path_join ROOT "input_files".
Definition OUTPUT_DIR := path_join ROOT "output_files".
Definition HTML_DIR := path_join OUTPUT_DIR "html".
Definition PNG_DIR := path_join OUTPUT_DIR "png".
Definition HAS_ACCESS_PNG_DIR := path_join PNG_DIR "has_access".
Definition NO_ACCESS_PNG_DIR := path_join PNG_DIR "no_access".
Definition DOC_DIR := path_join OUTPUT_DIR "doc".
Definition LOG_DIR := path_join OUTPUT_DIR "logs".
Definition INPUT_CSV_PATH := path_join INPUT_DIR "access_check_results.csv".
Definition ACCESS_OUTPUT_CSV := path_join OUTPUT_DIR "access_check_results_after_revoke.csv".
Definition NO_ACCESS_OUTPUT_CSV :=
  path_join OUTPUT_DIR "no_access_check_results_after_revoke.csv".

(** *** Bitbucket API calls *)

Record MutationResult := {
  mr_ok : bool;
  mr_status : option Z;          (* [None] is [null] *)
  mr_error : option string;      (* [None]: no such property *)
  mr_url : string }.

Definition revoke_url (projectKey username : string) : string :=
  BASE_URL +:+ "/rest/api/1.0/projects/" +:+ Str.encodeURIComponent projectKey
  +:+ "/permissions/users?name=" +:+ Str.encodeURIComponent username.

Definition revokeAccess (e : renv) (projectKey username : string) : M MutationResult :=
  let url := revoke_url projectKey username in
  try_catch
    (let! resp := axios "delete" url (λ _, true) (delete_reply e) in
     ret {| mr_ok := bool_decide (resp_status resp = 204);
            mr_status := Some (resp_status resp);
            mr_error := None;
            mr_url := url |})
    (λ err, ret {| mr_ok := false; mr_status := None; mr_error := Some err; mr_url := url |}).

(** A property is [None] when the object literal does not have it. *)
Record VerificationResult := {
  vr_ok : bool;
  vr_status : option Z;
  vr_hasAccess : option bool;
  vr_raw : option jsval;
  vr_error : option string;
  vr_url : string }.

(** [v.name || (v.user && v.user.name) || ""] *)
Definition principal_name (v : jsval) : exn + jsval :=
  let? name := get_prop v "name" in
  let? nm := js_or name (let? user := get_prop v "user" in
                         js_and user (get_prop user "name")) in
  js_or nm (inr (JStr "")).

(** The callback of [some]. *)
Definition name_matches (username : string) (v : jsval) : exn + bool :=
  let? nm := principal_name v in
  let? lowered := call_toLowerCase nm in
  inr (bool_decide (lowered = Str.toLowerCase username)).

(** [Array.prototype.some]: stops at the first element the callback accepts;
    an exception of the callback ends the scan. *)
Fixpoint some (f : jsval → exn + bool) (items : list jsval) : exn + bool :=
  match items with
  | [] => inr false
  | v :: rest => let? b := f v in if b : bool then inr true else some f rest
  end.

Definition scan_access (username : string) (data : jsval) : exn + bool :=
  if truthy data then
    let? values := get_prop data "values" in
    match isArray values with
    | Some items => some (name_matches username) items
    | None => inr false
    end
  else inr false.

Definition verify_url (projectKey username : string) : string :=
  BASE_URL +:+ "/rest/api/1.0/projects/" +:+ Str.encodeURIComponent projectKey
  +:+ "/permissions/users?filter=" +:+ Str.encodeURIComponent username.

Definition verifyAccess (e : renv) (projectKey username : string) : M VerificationResult :=
  let url := verify_url projectKey username in
  try_catch
    (let! resp := axios "get" url default_validateStatus (get_reply e) in
     let! hasAccess := lift (scan_access username (resp_data resp)) in
     ret {| vr_ok := true; vr_status := Some (resp_status resp);
            vr_hasAccess := Some hasAccess; vr_raw := Some (resp_data resp);
            vr_error := None; vr_url := url |})
    (λ err, ret {| vr_ok := false; vr_status := None; vr_hasAccess := None;
                   vr_raw := None; vr_error := Some err; vr_url := url |}).

(** [verifyRes.hasAccess] read as a condition: a missing property is
    [undefined], which is falsy. *)
Definition stillHasAccess (r : VerificationResult) : bool :=
  default false (vr_hasAccess r).

(** *** HTML and PNG evidence *)

Definition evidence_html (user accId projectKey timestamp apiUrl : string)
    (apiResponse : jsval) : string :=
  "
<html>
<head>
  <meta charset=" +:+ Str.dq +:+ "utf-8" +:+ Str.dq +:+ " />
  <style>
    html, body { margin: 0; padding: 0; }
    #evidence { font-family: monospace; padding: 20px; box-sizing: border-box; }
    pre { white-space: pre-wrap; word-break: break-word; }
  </style>
</head>
<body>
  <div id=" +:+ Str.dq +:+ "evidence" +:+ Str.dq +:+ ">
    <b>User:</b> " +:+ user +:+ "<br>
    <b>Account ID:</b> " +:+ accId +:+ "<br>
    <b>Project:</b> " +:+ projectKey +:+ "<br>
    <b>Timestamp:</b> " +:+ timestamp +:+ "<br><br>
    <h3>API URL</h3>
    <p>" +:+ apiUrl +:+ "</p>
    <h3>Response JSON</h3>
    <pre>" +:+ JSON_stringify apiResponse +:+ "</pre>
  </div>
</body>
</html>
".

(** puppeteer *)
Definition launch (e : renv) : M unit :=
  emit EvLaunch;;; fault (launch_fault e);;; update_browsers S.
Definition newPage (e : renv) : M unit :=
  emit EvNewPage;;; fault (newPage_fault e).
Definition goto (e : renv) (url : string) : M unit :=
  emit (EvGoto url);;; fault (goto_fault e).
Definition evaluate (e : renv) : M rect :=
  emit EvEvaluate;;; lift (measured e).
Definition setViewport (e : renv) (width height : Z) : M unit :=
  emit (EvSetViewport width height);;; fault (setViewport_fault e).
Definition browser_close (e : renv) : M unit :=
  emit EvBrowserClose;;; fault (close_fault e);;; update_browsers Nat.pred.

Record clip := Clip { clip_x : Z; clip_y : Z; clip_width : Z; clip_height : Z }.

Definition screenshot_clip (e : renv) (p : string) (c : clip) : M unit :=
  emit (EvScreenshotClip p (clip_x c) (clip_y c) (clip_width c) (clip_height c));;;
  let! bytes := lift (clip_shot e) in
  update_fs (<[p := bytes]>).
Definition screenshot_fullPage (e : renv) (p : string) : M unit :=
  emit (EvScreenshotFull p);;;
  let! bytes := lift (full_shot e) in
  update_fs (<[p := bytes]>).

(** [sharp(src).trim().toFile(dst)] *)
Definition sharp_trim_toFile (e : renv) (src dst : string) : M unit :=
  emit (EvSharpTrim src dst);;;
  let! raw := readFileSync src in
  match sharp e raw with
  | Trimmed out => update_fs (<[dst := out]>)
  | TrimFail msg partial =>
      match partial with
      | Some bytes => update_fs (<[dst := bytes]>)
      | None => ret tt
      end;;;
      throw msg
  end.

Definition MAX_DIM : Z := 16384.

(** [n || d] for a measured dimension *)
Definition or_default (n : option Z) (d : Z) : Z :=
  match n with
  | Some n => if n =? 0 then d else n
  | None => d
  end.

(** Lines 182-185: the capture region. *)
Definition clip_of (r : rect) : clip :=
  {| clip_x := Z.max 0 (rect_x r);
     clip_y := Z.max 0 (rect_y r);
     clip_width := Z.min (or_default (rect_width r) 1280) MAX_DIM;
     clip_height := Z.min (or_default (rect_height r) 900) MAX_DIM |}.

(** Line 188: the argument of [page.setViewport]. *)
Definition viewport_of (c : clip) : Z * Z :=
  (Z.max (clip_x c + clip_width c) 1280, Z.max (clip_y c + clip_height c) 900).

(** Lines 192-197: the capture with its full-page fallback. *)
Definition capture (e : renv) (tmpPng : string) (c : clip) : M unit :=
  try_catch (screenshot_clip e tmpPng c) (λ _, screenshot_fullPage e tmpPng).

(** Lines 200-206: the trim with its raw fallback. *)
Definition trim_capture (e : renv) (tmpPng destPng : string) : M unit :=
  try_catch
    (sharp_trim_toFile e tmpPng destPng;;; unlinkSync (unlink_fault e) tmpPng)
    (λ _, try_catch (renameSync (rename_fault e) tmpPng destPng) (λ _, ret tt)).

Record Evidence := { htmlFile : string; pngFile : string }.

Definition createEvidence (e : renv) (user accId projectKey apiUrl : string)
    (apiResponse : jsval) (destPng : string) : M Evidence :=
  ensureDir HTML_DIR;;;
  let stamp := formatSafeTs (now_stamp e) in
  let htmlFile := path_join HTML_DIR
    (safeName user +:+ "_" +:+ safeName projectKey +:+ "_" +:+ stamp +:+ ".html") in
  let html := evidence_html user accId projectKey (formatTs (now_html e)) apiUrl apiResponse in
  writeFileSync (writeHtml_fault e) htmlFile html;;;
  launch e;;;
  newPage e;;;
  goto e ("file://" +:+ htmlFile);;;
  let! rect := evaluate e in
  let c := clip_of rect in
  setViewport e (viewport_of c).1 (viewport_of c).2;;;
  let tmpPng := destPng +:+ ".tmp.png" in
  capture e tmpPng c;;;
  trim_capture e tmpPng destPng;;;
  browser_close e;;;
  ret {| htmlFile := htmlFile; pngFile := destPng |}.

(** *** DOCX generator *)

Fixpoint strip_prefix (pre s : string) : option string :=
  match pre, s with
  | "", _ => Some s
  | String a pre', String b s' => if bool_decide (a = b) then strip_prefix pre' s' else None
  | String _ _, "" => None
  end.

Fixpoint has_slash (s : string) : bool :=
  match s with
  | String a s' => bool_decide (a = "/"%char) || has_slash s'
  | "" => false
  end.

Fixpoint first_segment (s : string) : string :=
  match s with
  | String a s' => if bool_decide (a = "/"%char) then "" else String a (first_segment s')
  | "" => ""
  end.

(** The entry of [dir] that the path [p] is or lies below: a file directly
    in [dir], or the sub-directory of [dir] on the way to [p]. *)
Definition entry_of (dir p : string) : option string :=
  match strip_prefix (dir +:+ "/") p with
  | Some rest =>
      if bool_decide (first_segment rest = "") then None else Some (first_segment rest)
  | None => None
  end.

(** [fs.readdirSync]: the names of the files and of the sub-directories
    directly in [dir], each once, in the order in which the map enumerates
    them. *)
Definition readdirSync (dir : string) : M (list string) :=
  emit (EvReaddir dir);;;
  let! m := read_fs in
  ret (remove_dups (omap (entry_of dir) (map_to_list m).*1)).

(** [s.replace(pat, rep)] for a string pattern: the first occurrence only. *)
Fixpoint replace_first (pat rep s : string) : string :=
  match strip_prefix pat s with
  | Some rest => rep +:+ rest
  | None => match s with
            | String a s' => String a (replace_first pat rep s')
            | "" => ""
            end
  end.

(** Lines 228-262, [files.forEach]: the images that end up in the
    document.  An image is put in its paragraph by [p.addImage], with or
    without a size; when that throws, the error is logged and [p.addImage]
    is tried once more, and when that throws too the paragraph stays empty.
    The size passed along (lines 239-250) is floating-point arithmetic and
    is left out, and so are the page breaks. *)
Fixpoint add_images (d : denv) (dirPath : string) (files : list string)
  : M (list string) :=
  match files with
  | [] => ret []
  | img :: rest =>
      let imgPath := path_join dirPath img in
      let! added :=
        try_catch
          (fault (docx_add d imgPath);;; ret true)
          (λ msg,
             console [JStr "Failed to add image to DOCX:"; JStr imgPath; JStr msg];;;
             try_catch (fault (docx_retry d imgPath);;; ret true) (λ _, ret false)) in
      let! images := add_images d dirPath rest in
      ret (if added : bool then imgPath :: images else images)
  end.

(** The document that officegen builds in memory is reduced to its title,
    its date line and the sequence of its images. *)
Definition createDocx (d : denv) (dirPath docName : string) : M unit :=
  let! names := readdirSync dirPath in
  let files := filter (λ f, Str.endsWith f ".png" = true) names in
  if bool_decide (length files = 0%nat) then ret tt else
  let outPath := path_join DOC_DIR docName in
  let title := replace_first ".docx" "" docName in
  let! images := add_images d dirPath files in
  emit (EvDocxGenerate outPath title ("Generated: " +:+ formatTs (docx_now d)) images);;;
  match docx_write d with
  | DocxWritten bytes => update_fs (<[outPath := bytes]>)
  | DocxFail msg remains =>
      match remains with
      | Some partial => update_fs (<[outPath := partial]>)
      | None => ret tt
      end;;;
      throw msg
  end;;;
  console [JStr "DOCX created →"; JStr outPath].

(** *** Main workflow *)

Definition opt_prop {A} (k : string) (f : A → jsval) (o : option A) : list (string * jsval) :=
  match o with Some a => [(k, f a)] | None => [] end.

(** The verification result as the object it is. *)
Definition verify_object (r : VerificationResult) : jsval :=
  JObj ([("ok", JBool (vr_ok r))] ++ opt_prop "status" JNum (vr_status r)
        ++ opt_prop "hasAccess" JBool (vr_hasAccess r) ++ opt_prop "raw" id (vr_raw r)
        ++ opt_prop "error" JStr (vr_error r) ++ [("url", JStr (vr_url r))]).

Definition opt_js {A} (f : A → jsval) (absent : jsval) (o : option A) : jsval :=
  match o with Some a => f a | None => absent end.

Definition CSV_HEADER : string :=
  "Username,Account ID,Project Key,Access Permission,Access Status,Timestamp,Screenshot
".

(** [(row[k] || '').trim()] *)
Definition field (row : gmap string string) (k : string) : string :=
  Str.trim (default "" (row !! k)).

(** One turn of the loop of lines 298-347. *)
Definition process_row (e : renv) (row : gmap string string) : M unit :=
  let user := field row "Username" in
  let accId := field row "Account ID" in
  let project := field row "Project Key" in
  let permission := field row "Access Permission" in
  let status := field row "Access Status" in
  if bool_decide (user = "") || bool_decide (project = "") then ret tt else
  if negb (bool_decide (status = "HAS_ACCESS")) then
    console [JStr ("Skipping " +:+ user +:+ " - already NO_ACCESS")]
  else
    console [JStr ("
Revoking access for " +:+ user +:+ " on project " +:+ project)];;;
    let! revokeRes := revokeAccess e project user in
    console [JStr "  Revoke:"; opt_js JNum JNull (mr_status revokeRes);
             JStr (if mr_ok revokeRes then "OK" else "FAILED")];;;
    let! verifyRes := verifyAccess e project user in
    console [JStr "  Verify:"; opt_js JNum JUndefined (vr_status verifyRes);
             JStr (if stillHasAccess verifyRes then "Still HAS_ACCESS" else "NO_ACCESS")];;;
    let ts := formatTs (now_ts e) in
    let safeTs := formatSafeTs (now_safeTs e) in
    let destPng :=
      if stillHasAccess verifyRes
      then path_join HAS_ACCESS_PNG_DIR
             (safeName user +:+ "_" +:+ safeName project +:+ "_" +:+ safeTs +:+ ".png")
      else path_join NO_ACCESS_PNG_DIR
             (safeName user +:+ "_" +:+ safeName project +:+ "_" +:+ safeTs +:+ ".png") in
    let! evidence :=
      createEvidence e user accId project (vr_url verifyRes)
        (match vr_raw verifyRes with
         | Some raw => if truthy raw then raw else verify_object verifyRes
         | None => verify_object verifyRes
         end)
        destPng in
    if stillHasAccess verifyRes then
      appendFileSync (append_fault e) ACCESS_OUTPUT_CSV
        (user +:+ "," +:+ accId +:+ "," +:+ project +:+ "," +:+ permission
         +:+ ",HAS_ACCESS," +:+ ts +:+ "," +:+ pngFile evidence +:+ "
")
    else
      appendFileSync (append_fault e) NO_ACCESS_OUTPUT_CSV
        (user +:+ "," +:+ accId +:+ "," +:+ project +:+ "," +:+ permission
         +:+ ",NO_ACCESS," +:+ ts +:+ "," +:+ pngFile evidence +:+ "
").

(** [for (const row of rows)], the rows numbered from [i]. *)
Fixpoint for_rows (E : env) (i : nat) (rows : list (gmap string string)) : M unit :=
  match rows with
  | [] => ret tt
  | row :: rest => process_row (record_env E i) row;;; for_rows E (S i) rest
  end.

(** Lines 280-347: everything in the [try] up to the end of the loop. *)
Definition process_records (E : env) : M unit :=
  console [JStr "Reading:"; JStr INPUT_CSV_PATH];;;
  let! found := existsSync INPUT_CSV_PATH in
  (if found : bool then ret tt
   else console [JStr "CSV not found:"; JStr INPUT_CSV_PATH];;; process_exit 1);;;
  let! raw := readFileSync INPUT_CSV_PATH in
  let! rows := lift (csv_parse raw) in
  writeFileSync (access_header_fault E) ACCESS_OUTPUT_CSV CSV_HEADER;;;
  writeFileSync (no_access_header_fault E) NO_ACCESS_OUTPUT_CSV CSV_HEADER;;;
  for_rows E 0 rows.

(** Lines 350-353: the rest of the [try]. *)
Definition generate_reports (E : env) : M unit :=
  createDocx (has_report_env E) HAS_ACCESS_PNG_DIR "Bitbucket_Has_Access_Report.docx";;;
  createDocx (no_report_env E) NO_ACCESS_PNG_DIR "Bitbucket_No_Access_Report.docx";;;
  console [JStr "
✔ DONE. All outputs generated in:"; JStr OUTPUT_DIR].

Definition main (E : env) : M unit :=
  try_catch
    (process_records E;;; generate_reports E)
    (λ err, console [JStr "Fatal error:"; JStr err];;; process_exit 2).

(** The exit code of the process once [main] has settled. *)
Definition exit_code (r : outcome unit) : Z :=
  match r with
  | Ok _ => 0
  | Throw _ => 1
  | Exit code => code
  end.

End Program.


(** * Vocabulary of the properties *)

(** A relation between the world before and after that every run of a
    computation maintains, whatever its outcome. *)
Definition respects {A} (R : relation world) (m : M A) : Prop :=
  ∀ w r w', m w = (r, w') → R w w'.

(** The trace grows, and only by events of one kind. *)
Definition emits_only (P : event → Prop) : relation world :=
  λ w w', ∃ evs, trace w' = trace w ++ evs ∧ Forall P evs.

(** The events of a run: what the trace gained. *)
Definition new_events (w w' : world) : list event := drop (length (trace w)) (trace w').



Definition is_console (ev : event) : bool :=
  match ev with EvConsole _ => true | _ => false end.

(** A trace without its console lines. *)
Definition effects (evs : list event) : list event :=
  filter (λ ev, is_console ev = false) evs.

Definition appended_rows (evs : list event) : list (string * string) :=
  omap (λ ev, match ev with EvAppendFile p line => Some (p, line) | _ => None end) evs.

Definition written_files (evs : list event) : list string :=
  omap (λ ev, match ev with EvWriteFile p => Some p | _ => None end) evs.

Definition readdirs (evs : list event) : list string :=
  omap (λ ev, match ev with EvReaddir dir => Some dir | _ => None end) evs.


(** Between two worlds, the file at [p] is the same. *)
Definition keeps_path (p : string) : relation world :=
  λ w w', fs w' !! p = fs w !! p.

(** The [values] array of a payload, when it has one. *)
Definition values_of (data : jsval) : option (list jsval) :=
  if truthy data then
    match get_prop data "values" with
    | inr (JArr items) => Some items
    | _ => None
    end
  else None.


Definition set_get_reply (e : renv) (r : http_reply) : renv :=
  {| delete_reply := delete_reply e; get_reply := r;
     now_ts := now_ts e; now_safeTs := now_safeTs e; now_stamp := now_stamp e;
     now_html := now_html e; launch_fault := launch_fault e;
     newPage_fault := newPage_fault e; goto_fault := goto_fault e;
     measured := measured e; setViewport_fault := setViewport_fault e;
     clip_shot := clip_shot e; full_shot := full_shot e; sharp := sharp e;
     close_fault := close_fault e; writeHtml_fault := writeHtml_fault e;
     unlink_fault := unlink_fault e; rename_fault := rename_fault e;
     append_fault := append_fault e |}.

Definition is_inr {A B} (x : A + B) : bool :=
  match x with inr _ => true | inl _ => false end.

(** [createEvidence] gets as far as the measurement: the markup file is
    written, the browser is launched, the page is opened and loaded. *)
Definition reaches_measure (e : renv) : bool :=
  bool_decide (writeHtml_fault e = None)
  && bool_decide (launch_fault e = None) && bool_decide (newPage_fault e = None)
  && bool_decide (goto_fault e = None).

(** [createEvidence] meets no fault that it lets through, and so returns:
    the markup file can be written, every browser call answers, and one of
    the two captures succeeds. *)
Definition renderer_returns (e : renv) : bool :=
  reaches_measure e
  && is_inr (measured e)
  && bool_decide (setViewport_fault e = None)
  && (is_inr (clip_shot e) || is_inr (full_shot e))
  && bool_decide (close_fault e = None).

(** The raw capture: the clipped one, or else the full page. *)
Definition raw_capture (e : renv) : option string :=
  match clip_shot e with
  | inr bytes => Some bytes
  | inl _ => match full_shot e with inr bytes => Some bytes | inl _ => None end
  end.

(** The image that the trim step means to leave at the destination. *)
Definition final_image (e : renv) (raw : string) : string :=
  match sharp e raw with Trimmed out => out | TrimFail _ _ => raw end.

(** The trim step ends with the file operation it means to end with: the
    unlink after a successful trim, the rename after a failed one. *)
Definition trim_settles (e : renv) (raw : string) : bool :=
  match sharp e raw with
  | Trimmed _ => bool_decide (unlink_fault e = None)
  | TrimFail _ _ => bool_decide (rename_fault e = None)
  end.

(** The record goes through undisturbed: [createEvidence] returns, its trim
    step settles, and the row can be appended. *)
Definition renderer_completes (e : renv) : bool :=
  renderer_returns e
  && match raw_capture e with Some raw => trim_settles e raw | None => false end
  && bool_decide (append_fault e = None).

(** The trim step leaves an image at the destination whatever was there
    before: anything but a trim that throws before it writes, followed by a
    rename that throws. *)
Definition leaves_image (e : renv) : bool :=
  match raw_capture e with
  | Some raw =>
      match sharp e raw, rename_fault e with
      | TrimFail _ None, Some _ => false
      | _, _ => true
      end
  | None => false
  end.

(** The arguments of the calls of [page.setViewport] and of the clipped
    [page.screenshot] in a trace. *)
Definition viewports (evs : list event) : list (Z * Z) :=
  omap (λ ev, match ev with EvSetViewport w h => Some (w, h) | _ => None end) evs.

Definition clip_shots (evs : list event) : list (string * clip) :=
  omap (λ ev, match ev with
              | EvScreenshotClip p x y w h => Some (p, Clip x y w h)
              | _ => None
              end) evs.

Definition capture_events (e : renv) (tmpPng : string) (c : clip) : list event :=
  EvScreenshotClip tmpPng (clip_x c) (clip_y c) (clip_width c) (clip_height c)
  :: (if is_inr (clip_shot e) then [] else [EvScreenshotFull tmpPng]).

Definition trim_events (e : renv) (tmpPng destPng raw : string) : list event :=
  EvSharpTrim tmpPng destPng
  :: match sharp e raw with
     | Trimmed _ =>
         EvUnlink tmpPng
         :: match unlink_fault e with
            | Some _ => [EvRename tmpPng destPng]
            | None => []
            end
     | TrimFail _ _ => [EvRename tmpPng destPng]
     end.

(** The files after the handler of line 203-206: the raw capture renamed to
    the destination, or nothing when the rename throws (line 205). *)
Definition raw_fallback (e : renv) (tmpPng destPng raw : string) (m : gmap string string)
  : gmap string string :=
  match rename_fault e with
  | None => <[destPng := raw]> (delete tmpPng m)
  | Some _ => m
  end.

(** The files after the trim step, from the files before it. *)
Definition trim_fs (e : renv) (tmpPng destPng raw : string) (m : gmap string string)
  : gmap string string :=
  match sharp e raw with
  | Trimmed out =>
      match unlink_fault e with
      | None => delete tmpPng (<[destPng := out]> m)
      | Some _ => raw_fallback e tmpPng destPng raw (<[destPng := out]> m)
      end
  | TrimFail _ partial =>
      raw_fallback e tmpPng destPng raw
        (match partial with Some bytes => <[destPng := bytes]> m | None => m end)
  end.

Section Vocabulary.
Context `{Config}.

(** What [revokeAccess] and [verifyAccess] return, read off the reply alone. *)
Definition revoke_result (e : renv) (projectKey username : string) : MutationResult :=
  match delete_reply e with
  | Reply status _ =>
      {| mr_ok := bool_decide (status = 204); mr_status := Some status;
         mr_error := None; mr_url := revoke_url projectKey username |}
  | NetFail msg =>
      {| mr_ok := false; mr_status := None; mr_error := Some msg;
         mr_url := revoke_url projectKey username |}
  end.

Definition verify_failed (err : exn) (projectKey username : string) : VerificationResult :=
  {| vr_ok := false; vr_status := None; vr_hasAccess := None; vr_raw := None;
     vr_error := Some err; vr_url := verify_url projectKey username |}.

Definition verify_result (e : renv) (projectKey username : string) : VerificationResult :=
  match get_reply e with
  | Reply status data =>
      if default_validateStatus status then
        match scan_access username data with
        | inr hasAccess =>
            {| vr_ok := true; vr_status := Some status; vr_hasAccess := Some hasAccess;
               vr_raw := Some data; vr_error := None;
               vr_url := verify_url projectKey username |}
        | inl err => verify_failed err projectKey username
        end
      else verify_failed ("Request failed with status code " +:+ pretty status)
             projectKey username
  | NetFail msg => verify_failed msg projectKey username
  end.

(** An entry on which the callback of [some] returns, and one it accepts. *)
Definition scannable (v : jsval) : Prop := ∃ s, principal_name v = inr (JStr s).

Definition entry_matches (username : string) (v : jsval) : Prop :=
  ∃ s, principal_name v = inr (JStr s) ∧ Str.toLowerCase s = Str.toLowerCase username.

(** An entry with neither of the two name shapes. *)
Definition nameless (v : jsval) : Prop := principal_name v = inr (JStr "").

(** Everything [createEvidence] emits when the renderer completes. *)
Definition evidence_events (e : renv) (html tmpPng destPng : string) (r : rect)
    (raw : string) : list event :=
  [EvWriteFile html; EvLaunch; EvNewPage; EvGoto ("file://" +:+ html); EvEvaluate;
   EvSetViewport (viewport_of (clip_of r)).1 (viewport_of (clip_of r)).2]
  ++ capture_events e tmpPng (clip_of r) ++ trim_events e tmpPng destPng raw
  ++ [EvBrowserClose].

(** The names and the row that one record produces. *)
Definition html_path (e : renv) (user project : string) : string :=
  path_join HTML_DIR
    (safeName user +:+ "_" +:+ safeName project +:+ "_" +:+ formatSafeTs (now_stamp e)
     +:+ ".html").

Definition png_name (e : renv) (user project : string) : string :=
  safeName user +:+ "_" +:+ safeName project +:+ "_" +:+ formatSafeTs (now_safeTs e) +:+ ".png".

Definition png_dir (verdict : bool) : string :=
  if verdict then HAS_ACCESS_PNG_DIR else NO_ACCESS_PNG_DIR.

Definition csv_of (verdict : bool) : string :=
  if verdict then ACCESS_OUTPUT_CSV else NO_ACCESS_OUTPUT_CSV.

Definition csv_row (e : renv) (row : gmap string string) (verdict : bool) : string :=
  field row "Username" +:+ "," +:+ field row "Account ID" +:+ ","
  +:+ field row "Project Key" +:+ "," +:+ field row "Access Permission"
  +:+ (if verdict then ",HAS_ACCESS," else ",NO_ACCESS,") +:+ formatTs (now_ts e) +:+ ","
  +:+ path_join (png_dir verdict) (png_name e (field row "Username") (field row "Project Key"))
  +:+ "
".

(** [verifyRes.raw || verifyRes] *)
Definition api_response (v : VerificationResult) : jsval :=
  match vr_raw v with
  | Some raw => if truthy raw then raw else verify_object v
  | None => verify_object v
  end.

(** The events and the files of one processed record whose renderer
    completes, having measured [r] and captured [raw]. *)
Definition record_events (e : renv) (row : gmap string string) (r : rect) (raw : string)
  : list event :=
  let user := field row "Username" in
  let project := field row "Project Key" in
  let v := verify_result e project user in
  let png := path_join (png_dir (stillHasAccess v)) (png_name e user project) in
  [EvConsole [JStr ("
Revoking access for " +:+ user +:+ " on project " +:+ project)];
   EvHttp "delete" (revoke_url project user);
   EvConsole [JStr "  Revoke:"; opt_js JNum JNull (mr_status (revoke_result e project user));
              JStr (if mr_ok (revoke_result e project user) then "OK" else "FAILED")];
   EvHttp "get" (verify_url project user);
   EvConsole [JStr "  Verify:"; opt_js JNum JUndefined (vr_status v);
              JStr (if stillHasAccess v then "Still HAS_ACCESS" else "NO_ACCESS")]]
  ++ evidence_events e (html_path e user project) (png +:+ ".tmp.png") png r raw
  ++ [EvAppendFile (csv_of (stillHasAccess v)) (csv_row e row (stillHasAccess v))].

Definition record_fs (e : renv) (row : gmap string string) (raw : string)
    (m : gmap string string) : gmap string string :=
  let user := field row "Username" in
  let project := field row "Project Key" in
  let v := verify_result e project user in
  let png := path_join (png_dir (stillHasAccess v)) (png_name e user project) in
  let csv := csv_of (stillHasAccess v) in
  let rendered :=
    trim_fs e (png +:+ ".tmp.png") png raw
      (<[png +:+ ".tmp.png" := raw]>
         (<[html_path e user project :=
              evidence_html user (field row "Account ID") project (formatTs (now_html e))
                (vr_url v) (api_response v)]> m)) in
  <[csv := default "" (rendered !! csv) +:+ csv_row e row (stillHasAccess v)]> rendered.

(** Lines 318-346: what one turn of the loop does once the revoke call has
    been made and logged.  The revoke result does not occur in it. *)
Definition after_revoke (e : renv) (row : gmap string string) : M unit :=
  let user := field row "Username" in
  let accId := field row "Account ID" in
  let project := field row "Project Key" in
  let permission := field row "Access Permission" in
  let! verifyRes := verifyAccess e project user in
  console [JStr "  Verify:"; opt_js JNum JUndefined (vr_status verifyRes);
           JStr (if stillHasAccess verifyRes then "Still HAS_ACCESS" else "NO_ACCESS")];;;
  let ts := formatTs (now_ts e) in
  let safeTs := formatSafeTs (now_safeTs e) in
  let destPng :=
    if stillHasAccess verifyRes
    then path_join HAS_ACCESS_PNG_DIR
           (safeName user +:+ "_" +:+ safeName project +:+ "_" +:+ safeTs +:+ ".png")
    else path_join NO_ACCESS_PNG_DIR
           (safeName user +:+ "_" +:+ safeName project +:+ "_" +:+ safeTs +:+ ".png") in
  let! evidence :=
    createEvidence e user accId project (vr_url verifyRes)
      (match vr_raw verifyRes with
       | Some raw => if truthy raw then raw else verify_object verifyRes
       | None => verify_object verifyRes
       end)
      destPng in
  if stillHasAccess verifyRes then
    appendFileSync (append_fault e) ACCESS_OUTPUT_CSV
      (user +:+ "," +:+ accId +:+ "," +:+ project +:+ "," +:+ permission
       +:+ ",HAS_ACCESS," +:+ ts +:+ "," +:+ pngFile evidence +:+ "
")
  else
    appendFileSync (append_fault e) NO_ACCESS_OUTPUT_CSV
      (user +:+ "," +:+ accId +:+ "," +:+ project +:+ "," +:+ permission
       +:+ ",NO_ACCESS," +:+ ts +:+ "," +:+ pngFile evidence +:+ "
").

(** The three events up to and including the log line of the revoke call. *)
Definition revoke_events (e : renv) (row : gmap string string) : list event :=
  let user := field row "Username" in
  let project := field row "Project Key" in
  [EvConsole [JStr ("
Revoking access for " +:+ user +:+ " on project " +:+ project)];
   EvHttp "delete" (revoke_url project user);
   EvConsole [JStr "  Revoke:"; opt_js JNum JNull (mr_status (revoke_result e project user));
              JStr (if mr_ok (revoke_result e project user) then "OK" else "FAILED")]].

(** A row that the loop processes. *)
Definition eligible (row : gmap string string) : Prop :=
  field row "Username" ≠ "" ∧ field row "Project Key" ≠ ""
  ∧ field row "Access Status" = "HAS_ACCESS".

(** Events that place a record in the no-access category, or place nothing. *)
Definition no_access_event (ev : event) : Prop :=
  match ev with
  | EvAppendFile p _ => p = NO_ACCESS_OUTPUT_CSV
  | EvSharpTrim _ dst | EvRename _ dst => ∃ name, dst = path_join NO_ACCESS_PNG_DIR name
  | _ => True
  end.

End Vocabulary.

(** ** A scenario

    One input row for user [jdoe] on project [PROJ1], and the answers of
    the outside world in a few runs. *)

Module Sample.

Definition row : gmap string string :=
  {[ "Username" := "jdoe"; "Account ID" := "557058"; "Project Key" := "PROJ1";
     "Access Permission" := "PROJECT_WRITE"; "Access Status" := "HAS_ACCESS" ]}.

(** The same row with a Username of blanks only. *)
Definition blank_user : gmap string string := <["Username" := "   "]> row.

(** A row that an earlier check already found without access. *)
Definition no_access_row : gmap string string := <["Access Status" := "NO_ACCESS"]> row.

Definition cfg : Config :=
  {| ROOT := "/app"; BASE_URL := "http://bitbucket:7990";
     JSON_stringify := λ _, "{}"; csv_parse := λ _, inr [row] |}.

Definition clock : date := Date 2024 0 5 9 3 12.

Definition answers (del get : http_reply) (launch goto : option exn)
    (clip full : exn + string) (trim : string → trim_reply) : renv :=
  {| delete_reply := del; get_reply := get;
     now_ts := clock; now_safeTs := clock; now_stamp := clock; now_html := clock;
     launch_fault := launch; newPage_fault := None; goto_fault := goto;
     measured := inr (Rect 0 0 (Some 800) (Some 0)); setViewport_fault := None;
     clip_shot := clip; full_shot := full; sharp := trim; close_fault := None;
     writeHtml_fault := None; unlink_fault := None; rename_fault := None;
     append_fault := None |}.

Definition payload (entries : list jsval) : jsval := JObj [("values", JArr entries)].

Definition jdoe_entry : jsval := JObj [("name", JStr "JDoe")].

(** Revoke returns 204, the list is empty, the renderer and sharp work. *)
Definition revoked : renv :=
  answers (Reply 204 JNull) (Reply 200 (payload [])) None None
    (inr "RAW") (inr "FULL") (λ _, Trimmed "TRIMMED").

(** Revoke returns 204 and the user is still listed. *)
Definition still_listed : renv :=
  answers (Reply 204 JNull) (Reply 200 (payload [jdoe_entry])) None None
    (inr "RAW") (inr "FULL") (λ _, Trimmed "TRIMMED").

(** The list has a [null] entry in front of the user's entry. *)
Definition null_entry : renv :=
  answers (Reply 204 JNull) (Reply 200 (payload [JNull; jdoe_entry])) None None
    (inr "RAW") (inr "FULL") (λ _, Trimmed "TRIMMED").

(** The verify call is answered with 404, or not at all. *)
Definition verify_404 : renv :=
  answers (Reply 204 JNull) (Reply 404 (JStr "Not Found")) None None
    (inr "RAW") (inr "FULL") (λ _, Trimmed "TRIMMED").

Definition verify_timeout : renv :=
  answers (Reply 204 JNull) (NetFail "timeout of 20000ms exceeded") None None
    (inr "RAW") (inr "FULL") (λ _, Trimmed "TRIMMED").

(** The browser cannot be launched; the navigation fails. *)
Definition launch_fails : renv :=
  answers (Reply 204 JNull) (Reply 200 (payload [])) (Some "Failed to launch the browser process")
    None (inr "RAW") (inr "FULL") (λ _, Trimmed "TRIMMED").

Definition goto_fails : renv :=
  answers (Reply 204 JNull) (Reply 200 (payload [])) None (Some "net::ERR_FILE_NOT_FOUND")
    (inr "RAW") (inr "FULL") (λ _, Trimmed "TRIMMED").

(** The clipped capture and sharp both fail. *)
Definition trim_fails : renv :=
  answers (Reply 204 JNull) (Reply 200 (payload [])) None None
    (inl "clip failed") (inr "FULL") (λ _, TrimFail "unsupported image format" (Some "PART")).

(** The same answers, with file operations that the system refuses. *)
Definition refusing (e : renv) (html unlink rename append : option exn) : renv :=
  {| delete_reply := delete_reply e; get_reply := get_reply e;
     now_ts := now_ts e; now_safeTs := now_safeTs e; now_stamp := now_stamp e;
     now_html := now_html e; launch_fault := launch_fault e;
     newPage_fault := newPage_fault e; goto_fault := goto_fault e;
     measured := measured e; setViewport_fault := setViewport_fault e;
     clip_shot := clip_shot e; full_shot := full_shot e; sharp := sharp e;
     close_fault := close_fault e; writeHtml_fault := html;
     unlink_fault := unlink; rename_fault := rename; append_fault := append |}.


(** The trim succeeds and the temporary capture cannot be unlinked. *)
Definition unlink_refused : renv :=
  refusing revoked None (Some "EPERM: operation not permitted, unlink") None None.



Definition start : world :=
  World {[ @INPUT_CSV_PATH cfg := "Username,Project Key,Access Status" ]} 0 [].

(** A world that holds a raw capture at the temporary path. *)
Definition captured : world :=
  World {[ "/app/output_files/png/no_access/a.png.tmp.png" := "RAW" ]} 0 [].

(** A run in which the has-access report cannot be written. *)
Definition has_report_fails : env :=
  {| record_env := λ _, still_listed;
     has_report_env := {| docx_now := clock; docx_write := DocxFail "EACCES: permission denied" None;
                          docx_add := λ _, None; docx_retry := λ _, None |};
     no_report_env := {| docx_now := clock; docx_write := DocxWritten "DOCX";
                         docx_add := λ _, None; docx_retry := λ _, None |};
     access_header_fault := None; no_access_header_fault := None |}.

End Sample.

(** * Start-up (lines 48-61)

    What the module computes from the environment before anything else
    runs: the base URL of every request, or the exit with code 1. *)

Fixpoint drop_slashes (s : string) : string :=
  match s with
  | String a s' => if bool_decide (a = "/"%char) then drop_slashes s' else s
  | "" => ""
  end.

(** [s.replace(/\/+$|\/+$/g, '')]: without the [m] flag the pattern can
    only match the run of slashes at the very end. *)
Definition strip_trailing_slashes (s : string) : string :=
  String.rev (drop_slashes (String.rev s)).

(** [/^https?:\/\//i.test(s)] *)
Definition has_scheme (s : string) : bool :=
  String.prefix "http://" (Str.toLowerCase s) || String.prefix "https://" (Str.toLowerCase s).

(** An environment variable is a string or undefined; both the empty
    string and undefined are falsy. *)
Definition env_or_empty (v : option string) : string := default "" v.

(** The base URL, or [None] when the module logs the missing
    configuration and exits with code 1. *)
Definition configure (bb_url bb_username bb_keyname : option string) : option string :=
  let BB_URL_RAW := Str.trim (env_or_empty bb_url) in
  if bool_decide (BB_URL_RAW = "") || bool_decide (env_or_empty bb_username = "")
     || bool_decide (env_or_empty bb_keyname = "")
  then None
  else
    let BASE_URL := strip_trailing_slashes BB_URL_RAW in
    Some (if has_scheme BASE_URL then BASE_URL else "http://" +:+ BASE_URL).

(** * Vocabulary of the further properties *)

(** ** Characters *)

Fixpoint all_chars (P : ascii → bool) (s : string) : bool :=
  match s with
  | String a s' => P a && all_chars P s'
  | "" => true
  end.

Fixpoint map_chars (f : ascii → ascii) (s : string) : string :=
  match s with
  | String a s' => String (f a) (map_chars f s')
  | "" => ""
  end.

(** The characters [safeName] keeps. *)
Definition safe_char (a : ascii) : bool := negb (unsafe_char a).

Definition is_digit (a : ascii) : bool :=
  let n := nat_of_ascii a in ((48 <=? n)%nat && (n <=? 57)%nat)%bool.

(** The replacement that turns the display timestamp into the one used in
    file names. *)
Definition safe_separator (a : ascii) : ascii :=
  if bool_decide (a = " "%char) then "_"%char
  else if bool_decide (a = ":"%char) then "-"%char else a.

(** The characters [encodeURIComponent] can produce. *)
Definition uri_char (a : ascii) : bool :=
  Str.uri_unreserved a || bool_decide (a = "%"%char).

(** ** Events *)

Definition is_http (ev : event) : bool :=
  match ev with EvHttp _ _ => true | _ => false end.

Definition http_calls (evs : list event) : list (string * string) :=
  omap (λ ev, match ev with EvHttp method url => Some (method, url) | _ => None end) evs.

(** The events of a report assembly. *)
Definition assembles (ev : event) : bool :=
  match ev with EvReaddir _ | EvDocxGenerate _ _ _ _ => true | _ => false end.

(** The images of the documents generated at [out]. *)
Definition report_images (out : string) (evs : list event) : list string :=
  evs ≫= λ ev, match ev with
               | EvDocxGenerate o _ _ images => if decide (o = out) then images else []
               | _ => []
               end.

(** A computation that ends the process only with a code of one kind. *)
Definition exits_only {A} (P : Z → Prop) (m : M A) : Prop :=
  ∀ w code w', m w = (Exit code, w') → P code.

(** ** Files *)

(** The names [createDocx] keeps from the listing of [dir]. *)
Definition dir_pngs (dir : string) (m : gmap string string) : list string :=
  filter (λ f, Str.endsWith f ".png" = true)
    (remove_dups (omap (entry_of dir) (map_to_list m).*1)).

(** A path directly in [dir] whose name ends with [.png]. *)
Definition is_png_of (dir p : string) : Prop :=
  ∃ name, p = path_join dir name ∧ has_slash name = false ∧ Str.endsWith name ".png" = true.

(** [p] is a file, or a directory: something lies below it. *)
Definition entry_exists (m : gmap string string) (p : string) : Prop :=
  is_Some (m !! p) ∨ ∃ q, String.prefix (p +:+ "/") q = true ∧ is_Some (m !! q).

(** One of the two attempts to put the image at [p] in the document
    succeeds. *)
Definition inserted (d : denv) (p : string) : bool :=
  bool_decide (docx_add d p = None) || bool_decide (docx_retry d p = None).

(** The environment of the assembly of each category. *)
Definition report_env (E : env) (verdict : bool) : denv :=
  if verdict then has_report_env E else no_report_env E.

(** The images [add_images] puts in the document and the lines it logs,
    for the names [files] of [dirPath]. *)
Definition added_images (d : denv) (dirPath : string) (files : list string) : list string :=
  filter (λ p, inserted d p = true) (path_join dirPath <$> files).

Definition add_events (d : denv) (dirPath : string) (files : list string) : list event :=
  (path_join dirPath <$> files) ≫= λ p,
    match docx_add d p with
    | Some msg => [EvConsole [JStr "Failed to add image to DOCX:"; JStr p; JStr msg]]
    | None => []
    end.

(** [p] lies below the directory [dir]. *)
Definition under (dir p : string) : bool := String.prefix (dir +:+ "/") p.

(** Between two worlds, the files outside [dir] are the same. *)
Definition confined (dir : string) : relation world :=
  λ w w', ∀ p, under dir p = false → fs w' !! p = fs w !! p.

(** Between two worlds, no file has disappeared but temporary captures. *)
Definition keeps_files : relation world :=
  λ w w', ∀ p, Str.endsWith p ".tmp.png" = false → is_Some (fs w !! p) → is_Some (fs w' !! p).

Section RunVocabulary.
Context `{Config}.

(** The verdict on a row and the image that shows it. *)
Definition verdict_of (e : renv) (row : gmap string string) : bool :=
  stillHasAccess (verify_result e (field row "Project Key") (field row "Username")).

Definition png_path (e : renv) (row : gmap string string) : string :=
  path_join (png_dir (verdict_of e row))
    (png_name e (field row "Username") (field row "Project Key")).

(** The lines the loop appends to the file of one category, for the rows
    numbered from [i]. *)
Fixpoint csv_rows (E : env) (i : nat) (rows : list (gmap string string)) (verdict : bool)
  : string :=
  match rows with
  | [] => ""
  | row :: rest =>
      (if decide (eligible row ∧ verdict_of (record_env E i) row = verdict)
       then csv_row (record_env E i) row verdict else "")
      +:+ csv_rows E (S i) rest verdict
  end.

(** The document of each category. *)
Definition report_of (verdict : bool) : string :=
  path_join DOC_DIR (if verdict then "Bitbucket_Has_Access_Report.docx"
                     else "Bitbucket_No_Access_Report.docx").

End RunVocabulary.

(** ** More of the scenario *)

Module Scenario.
Import Sample.

(** Both reports can be written. *)
Definition all_written (e : renv) : env :=
  {| record_env := λ _, e;
     has_report_env := {| docx_now := clock; docx_write := DocxWritten "DOCX-HAS";
                          docx_add := λ _, None; docx_retry := λ _, None |};
     no_report_env := {| docx_now := clock; docx_write := DocxWritten "DOCX-NO";
                         docx_add := λ _, None; docx_retry := λ _, None |};
     access_header_fault := None; no_access_header_fault := None |}.

(** A document in which no image can be inserted. *)
Definition inserts_nothing : denv :=
  {| docx_now := clock; docx_write := DocxWritten "DOCX";
     docx_add := λ _, Some "ENOENT: no such file or directory";
     docx_retry := λ _, Some "ENOENT: no such file or directory" |}.

(** The no-access directory holds an image and a sub-directory whose name
    ends with [.png]. *)
Definition with_folder : world :=
  World {[ "/app/output_files/png/no_access/a_P_2024-01-05_09-03-12.png" := "IMG";
           "/app/output_files/png/no_access/folder.png/notes.txt" := "text" ]} 0 [].

(** The stream of the document fails after it has truncated the file. *)
Definition truncating : denv :=
  {| docx_now := clock; docx_write := DocxFail "ENOSPC: no space left on device" (Some "");
     docx_add := λ _, None; docx_retry := λ _, None |}.

(** An image of an earlier run and the report that run made of it. *)
Definition with_old_report : world :=
  World {[ "/app/output_files/png/no_access/a_P_2024-01-05_09-03-12.png" := "IMG";
           "/app/output_files/doc/Bitbucket_No_Access_Report.docx" := "OLD-DOCX" ]} 0 [].

(** The parser rejects the input. *)
Definition unparsable : Config :=
  {| ROOT := "/app"; BASE_URL := "http://bitbucket:7990";
     JSON_stringify := λ _, "{}"; csv_parse := λ _, inl "Invalid Record Length" |}.

(** The input holds a row to skip, a blank one and one to process. *)
Definition three_rows : Config :=
  {| ROOT := "/app"; BASE_URL := "http://bitbucket:7990";
     JSON_stringify := λ _, "{}";
     csv_parse := λ _, inr [no_access_row; blank_user; row] |}.


(** The input file, an image and a stray temporary capture of an earlier
    run, and a file that is none of the program's business. *)
Definition second_run : world :=
  World {[ @INPUT_CSV_PATH cfg := "Username,Project Key,Access Status";
           "/app/output_files/png/has_access/old_PROJ0_2023-12-31_23-59-59.png" := "OLD";
           "/app/output_files/access_check_results_after_revoke.csv" := "stale";
           "/app/notes.txt" := "keep" ]} 0 [].

End Scenario.

(** * Proofs *)

(** ** Facts about strings and paths *)

Lemma append_assoc (s t u : string) : (s +:+ t) +:+ u = s +:+ t +:+ u.
Proof.
  induction s as [|a s IH]; [done|].
  change (String a ((s +:+ t) +:+ u) = String a (s +:+ t +:+ u)). by rewrite IH.
Qed.

Lemma append_nil_r (s : string) : s +:+ "" = s.
Proof.
  induction s as [|a s IH]; [done|].
  change (String a (s +:+ "") = String a s). by rewrite IH.
Qed.

Lemma append_ne_self (s t : string) : t ≠ "" → s +:+ t ≠ s.
Proof.
  intros Ht Heq. rewrite <-(append_nil_r s) in Heq at 2.
  apply (inj (String.app s)) in Heq. by subst.
Qed.

Lemma path_join_assoc (dir a b : string) :
  path_join (path_join dir a) b = path_join dir (a +:+ "/" +:+ b).
Proof. unfold path_join. by rewrite !append_assoc. Qed.

(** Two entries of one directory whose names start differently are distinct. *)
Lemma path_join_ne (dir : string) (a b : ascii) (s t : string) :
  a ≠ b → path_join dir (String a s) ≠ path_join dir (String b t).
Proof.
  unfold path_join. intros Hab Heq.
  apply (inj (String.app dir)) in Heq.
  change (String "/" (String a s) = String "/" (String b t)) in Heq. congruence.
Qed.

Lemma toLowerCase_nil_inv (s : string) : Str.toLowerCase s = "" → s = "".
Proof. by destruct s. Qed.

(** ** Stepping through the monad *)

Lemma bind_Ok {A B} (m : M A) (k : A → M B) w a w1 :
  m w = (Ok a, w1) → bind m k w = k a w1.
Proof. unfold bind. by intros ->. Qed.

Lemma bind_Throw {A B} (m : M A) (k : A → M B) w err w1 :
  m w = (Throw err, w1) → bind m k w = (Throw err, w1).
Proof. unfold bind. by intros ->. Qed.

Lemma bind_Ok_inv {A B} (m : M A) (k : A → M B) w b w' :
  bind m k w = (Ok b, w') → ∃ a w1, m w = (Ok a, w1) ∧ k a w1 = (Ok b, w').
Proof. unfold bind. destruct (m w) as [[a|err|code] w1]; naive_solver. Qed.

Lemma try_catch_Throw {A} (body : M A) handler w err w1 :
  body w = (Throw err, w1) → try_catch body handler w = handler err w1.
Proof. unfold try_catch. by intros ->. Qed.

(** A run, from its outcome alone. *)
Lemma run_split {A} (m : M A) (w : world) (r : outcome A) :
  (m w).1 = r → m w = (r, (m w).2).
Proof. destruct (m w). simpl. by intros ->. Qed.

Lemma new_events_app (w : world) fs' b' evs :
  new_events w (World fs' b' (trace w ++ evs)) = evs.
Proof. unfold new_events. simpl. by rewrite drop_app_length. Qed.

Lemma new_events_trace w w' evs : trace w' = trace w ++ evs → new_events w w' = evs.
Proof. intros Ht. unfold new_events. by rewrite Ht, drop_app_length. Qed.

Section Respects.
Context (R : relation world) `{!PreOrder R}.

Lemma respects_ret {A} (a : A) : respects R (ret a).
Proof. intros w r w' [= _ <-]. reflexivity. Qed.

Lemma respects_throw {A} err : respects R (@throw A err).
Proof. intros w r w' [= _ <-]. reflexivity. Qed.

Lemma respects_process_exit {A} code : respects R (@process_exit A code).
Proof. intros w r w' [= _ <-]. reflexivity. Qed.

Lemma respects_read_fs : respects R read_fs.
Proof. intros w r w' [= _ <-]. reflexivity. Qed.

Lemma respects_lift {A} (x : exn + A) : respects R (lift x).
Proof. destruct x; [apply respects_throw | apply respects_ret]. Qed.

Lemma respects_fault f : respects R (fault f).
Proof. destruct f; [apply respects_throw | apply respects_ret]. Qed.

Lemma respects_bind {A B} (m : M A) (k : A → M B) :
  respects R m → (∀ a, respects R (k a)) → respects R (bind m k).
Proof.
  intros Hm Hk w r w'. unfold bind.
  destruct (m w) as [[a|err|code] w1] eqn:Em; intros Hr.
  - transitivity w1; [by eapply Hm | by eapply Hk].
  - injection Hr as _ <-. by eapply Hm.
  - injection Hr as _ <-. by eapply Hm.
Qed.

Lemma respects_bind_assoc {A B C} (m : M A) (f : A → M B) (g : B → M C) :
  respects R (bind m (λ a, bind (f a) g)) → respects R (bind (bind m f) g).
Proof.
  intros Hr w r w' Hrun. apply (Hr w r w'). revert Hrun. unfold bind.
  by destruct (m w) as [[a|err|code] w1].
Qed.

Lemma respects_ret_bind {A B} (a : A) (k : A → M B) :
  respects R (k a) → respects R (bind (ret a) k).
Proof. intros Hr w r w' Hrun. by apply (Hr w r w'). Qed.

Lemma respects_bind_run {A B} (m : M A) (k : A → M B) a (f : world → world) :
  (∀ w, m w = (Ok a, f w)) → respects R m → respects R (k a) → respects R (bind m k).
Proof.
  intros Hrun Hm Hk w r w'. unfold bind. rewrite Hrun. intros Hr.
  transitivity (f w); [by eapply Hm | by eapply Hk].
Qed.

Lemma respects_try_catch {A} (body : M A) handler :
  respects R body → (∀ err, respects R (handler err)) → respects R (try_catch body handler).
Proof.
  intros Hb Hh w r w'. unfold try_catch.
  destruct (body w) as [[a|err|code] w1] eqn:Eb; intros Hr.
  - injection Hr as _ <-. by eapply Hb.
  - transitivity w1; [by eapply Hb | by eapply Hh].
  - injection Hr as _ <-. by eapply Hb.
Qed.

End Respects.

(** One structural step of a proof of [respects]; the leaves that depend on
    the relation are in the hint database. *)
Create HintDb respects discriminated.

Ltac respects_step :=
  lazymatch goal with
  | |- respects _ (bind (bind _ _) _) => apply respects_bind_assoc
  | |- respects _ (bind (ret _) _) => apply respects_ret_bind
  | |- respects _ (bind _ _) => apply respects_bind; [apply _ | | intros ?]
  | |- respects _ (try_catch _ _) => apply respects_try_catch; [apply _ | | intros ?]
  | |- respects _ (match ?x with _ => _ end) => destruct x
  | |- respects _ (ret _) => apply respects_ret; apply _
  | |- respects _ (throw _) => apply respects_throw; apply _
  | |- respects _ (process_exit _) => apply respects_process_exit; apply _
  | |- respects _ read_fs => apply respects_read_fs; apply _
  | |- respects _ (lift _) => apply respects_lift; apply _
  | |- respects _ (fault _) => apply respects_fault; apply _
  end.
Ltac respects_auto := repeat respects_step; auto with respects.

#[export] Instance emits_only_preorder P : PreOrder (emits_only P).
Proof.
  split.
  - intros w. exists []. by rewrite app_nil_r.
  - intros w1 w2 w3 (evs1 & E1 & F1) (evs2 & E2 & F2). exists (evs1 ++ evs2).
    rewrite E2, E1, app_assoc. split; [done | by apply Forall_app].
Qed.

Lemma emit_emits_only (P : event → Prop) ev : P ev → respects (emits_only P) (emit ev).
Proof. intros HP w r w' [= _ <-]. exists [ev]. split; [done | by constructor]. Qed.

Lemma update_fs_emits_only P f : respects (emits_only P) (update_fs f).
Proof. intros w r w' [= _ <-]. exists []. by rewrite app_nil_r. Qed.

Lemma update_browsers_emits_only P f : respects (emits_only P) (update_browsers f).
Proof. intros w r w' [= _ <-]. exists []. by rewrite app_nil_r. Qed.

#[export] Hint Resolve update_fs_emits_only update_browsers_emits_only : respects.
#[export] Hint Extern 1 (respects (emits_only _) (emit _)) =>
  apply emit_emits_only; simpl; try done : respects.

#[export] Instance keeps_path_preorder p : PreOrder (keeps_path p).
Proof.
  split; [done|]. intros w1 w2 w3 H12 H23. unfold keeps_path in *. by rewrite H23.
Qed.

Lemma emit_keeps_path p ev : respects (keeps_path p) (emit ev).
Proof. by intros w r w' [= _ <-]. Qed.

Lemma update_browsers_keeps_path p f : respects (keeps_path p) (update_browsers f).
Proof. by intros w r w' [= _ <-]. Qed.


#[export] Hint Resolve emit_keeps_path update_browsers_keeps_path : respects.


Lemma emits_only_new_events P (w w' : world) :
  emits_only P w w' → Forall P (new_events w w').
Proof.
  intros (evs & E & F). unfold new_events. by rewrite E, drop_app_length.
Qed.













Section Properties.
Context `{Config}.

Ltac unfold_program :=
  unfold createEvidence, capture, trim_capture, launch, newPage, goto, evaluate,
    setViewport, browser_close, screenshot_clip, screenshot_fullPage, sharp_trim_toFile,
    ensureDir, existsSync, writeFileSync, appendFileSync, unlinkSync, renameSync,
    readFileSync, readdirSync, console, axios.

(** ** The two API calls *)

Lemma revokeAccess_run e projectKey username w :
  revokeAccess e projectKey username w
  = (Ok (revoke_result e projectKey username),
     World (fs w) (browsers w)
       (trace w ++ [EvHttp "delete" (revoke_url projectKey username)])).
Proof.
  unfold revokeAccess, revoke_result, try_catch, bind, axios, emit.
  by destruct (delete_reply e).
Qed.

Lemma verifyAccess_run e projectKey username w :
  verifyAccess e projectKey username w
  = (Ok (verify_result e projectKey username),
     World (fs w) (browsers w)
       (trace w ++ [EvHttp "get" (verify_url projectKey username)])).
Proof.
  unfold verifyAccess, verify_result, try_catch, bind, axios, emit.
  destruct (get_reply e) as [status data|msg]; simpl; [|done].
  destruct (default_validateStatus status); simpl; [|done].
  by destruct (scan_access username data).
Qed.

(** C4. [revokeAccess] always returns a result: with a reply of status
    [status], [ok] holds exactly when [status] is 204 and the status is
    recorded; when the request throws, [ok] is false, the status is [null]
    and the message is recorded.  No exception leaves the call. *)
Theorem revokeAccess_ok_iff_204 (e : renv) (projectKey username : string) (w : world) :
  ∃ r w', revokeAccess e projectKey username w = (Ok r, w')
    ∧ mr_url r = revoke_url projectKey username
    ∧ match delete_reply e with
      | Reply status _ =>
          (mr_ok r = true ↔ status = 204) ∧ mr_status r = Some status ∧ mr_error r = None
      | NetFail msg => mr_ok r = false ∧ mr_status r = None ∧ mr_error r = Some msg
      end.
Proof.
  eexists _, _. split; [apply revokeAccess_run|].
  unfold revoke_result. destruct (delete_reply e) as [status data|msg]; simpl.
  - by rewrite bool_decide_eq_true.
  - done.
Qed.

(** C6. When the request of [verifyAccess] throws, the call returns a
    result with [ok] false and no [hasAccess] property, which reads as
    false. *)
Theorem verifyAccess_request_throws (e : renv) (projectKey username : string)
    (w : world) (err : exn) (w1 : world) :
  axios "get" (verify_url projectKey username) default_validateStatus (get_reply e) w
    = (Throw err, w1) →
  ∃ r, verifyAccess e projectKey username w = (Ok r, w1)
    ∧ vr_ok r = false ∧ vr_hasAccess r = None ∧ stillHasAccess r = false
    ∧ vr_error r = Some err.
Proof.
  intros Hreq. eexists. split.
  - unfold verifyAccess. cbv zeta.
    erewrite try_catch_Throw by (apply bind_Throw, Hreq). reflexivity.
  - done.
Qed.

(** *** The scan of the principal list *)

Lemma some_Exists (f : jsval → exn + bool) items b :
  some f items = inr b → (b = true ↔ Exists (λ v, f v = inr true) items).
Proof.
  revert b. induction items as [|v items IH]; intros b; simpl.
  - intros [= <-]. split; [done | by intros ?%Exists_nil].
  - destruct (f v) as [err|[]] eqn:Ef; simpl; [done| |].
    + intros [= <-]. split; [|done]. intros _. by left.
    + intros Hs. rewrite (IH b Hs), Exists_cons. split; [by right|].
      intros [Hv|Hrest]; [congruence | done].
Qed.

Lemma some_returns (f : jsval → exn + bool) items :
  Forall (λ v, ∃ b, f v = inr b) items → ∃ b, some f items = inr b.
Proof.
  induction 1 as [|v items [b Hb] _ IH]; simpl; [by eexists|].
  rewrite Hb. simpl. destruct b; [by eexists | done].
Qed.

Lemma some_skips (f : jsval → exn + bool) pre rest :
  Forall (λ v, f v = inr false) pre → some f (pre ++ rest) = some f rest.
Proof. induction 1 as [|v pre Hv _ IH]; simpl; [done|]. by rewrite Hv. Qed.


Lemma principal_name_value v x :
  principal_name v = inr x → truthy x = true ∨ x = JStr "".
Proof.
  unfold principal_name, js_or, js_and.
  destruct (get_prop v "name") as [err|name]; simpl; [done|].
  destruct (truthy name) eqn:Tn; simpl.
  { rewrite Tn. intros [= <-]. by left. }
  destruct (get_prop v "user") as [err|user]; simpl; [done|].
  destruct (truthy user) eqn:Tu; simpl.
  - destruct (get_prop user "name") as [err|nm]; simpl; [done|].
    destruct (truthy nm) eqn:Tm; intros [= <-]; auto.
  - rewrite Tu. intros [= <-]. by right.
Qed.

Lemma name_matches_true username v :
  name_matches username v = inr true ↔ entry_matches username v.
Proof.
  unfold name_matches, entry_matches.
  destruct (principal_name v) as [err|nm]; simpl.
  { split; [done | by intros (s & [=] & _)]. }
  destruct nm; simpl; try (split; [done | by intros (s & [=] & _)]).
  split.
  - intros [= Hs%bool_decide_eq_true]. eauto.
  - intros (s' & [= <-] & Hs). by rewrite bool_decide_eq_true_2.
Qed.

Lemma name_matches_returns username v :
  (∃ b, name_matches username v = inr b) ↔ scannable v.
Proof.
  unfold name_matches, scannable.
  destruct (principal_name v) as [err|nm]; simpl.
  { split; [by intros [? [=]] | by intros [? [=]]]. }
  destruct nm; simpl; try (split; [by intros [? [=]] | by intros [? [=]]]).
  split; eauto.
Qed.

Lemma name_matches_false username v :
  scannable v → ¬ entry_matches username v → name_matches username v = inr false.
Proof.
  intros [[] Hb]%(name_matches_returns username) Hno; [|done].
  by apply name_matches_true in Hb.
Qed.

Lemma nameless_no_match username v :
  username ≠ "" → nameless v → name_matches username v = inr false.
Proof.
  intros Hne Hv. apply name_matches_false; [by exists ""|].
  intros (s & Hs & Hlow). unfold nameless in Hv. rewrite Hv in Hs.
  injection Hs as <-. symmetry in Hlow. by apply toLowerCase_nil_inv in Hlow.
Qed.

Lemma scan_access_values username data :
  scan_access username data
  = match values_of data with
    | Some items => some (name_matches username) items
    | None => inr false
    end.
Proof.
  unfold scan_access, values_of. destruct (truthy data) eqn:Td; [|done].
  by destruct data.
Qed.

(** The name the scan compares, for the two shapes of an entry and for an
    entry with neither. *)
Lemma principal_name_shapes :
  (∀ props s, own_prop props "name" = JStr s → s ≠ "" →
     principal_name (JObj props) = inr (JStr s))
  ∧ (∀ props uprops s, truthy (own_prop props "name") = false →
       own_prop props "user" = JObj uprops → own_prop uprops "name" = JStr s →
       principal_name (JObj props) = inr (JStr s))
  ∧ (∀ props, truthy (own_prop props "name") = false →
       truthy (own_prop props "user") = false → nameless (JObj props))
  ∧ ¬ scannable JNull.
Proof.
  unfold nameless, principal_name, js_or, js_and. repeat split.
  - intros props s Hn Hs. simpl. rewrite Hn. simpl.
    rewrite bool_decide_eq_false_2 by done. simpl.
    by rewrite bool_decide_eq_false_2.
  - intros props uprops s Hn Hu Hs. simpl. rewrite Hn, Hu. simpl. rewrite Hs. simpl.
    by case_bool_decide; subst.
  - intros props Hn Hu. simpl. rewrite Hn, Hu. simpl. by rewrite Hu.
  - by intros [s [=]].
Qed.

(** C5 (as amended).  For a reply that axios accepts: a payload without a
    [values] array, or with an empty one, gives [hasAccess = false]; when
    the callback returns on every entry, [hasAccess] is true exactly when
    some entry's name equals the target up to case; the scan stops at the
    first match, whatever follows it; an entry reached before any match on
    which the callback throws (a [null] entry, a name that is not a string)
    turns the result into [ok = false] without a [hasAccess] property; and
    for a non-empty target, entries with neither name shape give
    [hasAccess = false]. *)
Theorem verifyAccess_verdict (e : renv) (projectKey username : string) (w : world)
    (status : Z) (data : jsval) :
  get_reply e = Reply status data →
  default_validateStatus status = true →
  ∃ r w', verifyAccess e projectKey username w = (Ok r, w')
    ∧ match values_of data with
      | None => vr_ok r = true ∧ vr_hasAccess r = Some false
      | Some items =>
          (items = [] → vr_ok r = true ∧ vr_hasAccess r = Some false)
          ∧ (Forall scannable items →
               vr_ok r = true
               ∧ ∃ b, vr_hasAccess r = Some b
                   ∧ (b = true ↔ Exists (entry_matches username) items))
          ∧ (∀ pre v post, items = pre ++ v :: post →
               Forall scannable pre → Forall (λ x, ¬ entry_matches username x) pre →
               (entry_matches username v → vr_ok r = true ∧ vr_hasAccess r = Some true)
               ∧ (¬ scannable v →
                    vr_ok r = false ∧ vr_hasAccess r = None ∧ stillHasAccess r = false))
          ∧ (username ≠ "" → Forall nameless items →
               vr_ok r = true ∧ vr_hasAccess r = Some false)
      end.
Proof.
  intros Hreply Hstatus. eexists _, _. split; [apply verifyAccess_run|].
  unfold verify_result. rewrite Hreply, Hstatus, scan_access_values.
  destruct (values_of data) as [items|]; [|done].
  split; [by intros ->|]. split; [|split].
  - intros Hall.
    destruct (some_returns (name_matches username) items) as [b Hb].
    { eapply Forall_impl; [exact Hall|]. intros v Hv. by apply name_matches_returns. }
    rewrite Hb. split; [done|]. exists b. split; [done|].
    rewrite (some_Exists _ _ _ Hb).
    split; intros HE; (eapply Exists_impl; [exact HE|]); intros v; apply name_matches_true.
  - intros pre v post -> Hscan Hnone.
    rewrite some_skips; cycle 1.
    { apply Forall_forall. intros x Hx. apply name_matches_false.
      - by eapply Forall_forall in Hscan.
      - by eapply Forall_forall in Hnone. }
    simpl. split.
    + intros Hv%name_matches_true. by rewrite Hv.
    + intros Hv. destruct (name_matches username v) as [err|b] eqn:Ev; [done|].
      destruct Hv. apply (name_matches_returns username). eauto.
  - intros Hne Hall. rewrite <-(app_nil_r items), some_skips; [done|].
    eapply Forall_impl; [exact Hall|]. intros v Hv. by apply nameless_no_match.
Qed.

(** ** The evidence renderer *)

Lemma capture_run e tmpPng c w :
  capture e tmpPng c w
  = match raw_capture e with
    | Some raw =>
        (Ok (), World (<[tmpPng := raw]> (fs w)) (browsers w)
                  (trace w ++ capture_events e tmpPng c))
    | None =>
        (Throw (match full_shot e with inl err => err | inr _ => "" end),
         World (fs w) (browsers w) (trace w ++ capture_events e tmpPng c))
    end.
Proof.
  unfold capture, raw_capture, capture_events, screenshot_clip, screenshot_fullPage,
    try_catch, bind, emit, lift, update_fs.
  destruct (clip_shot e); simpl; [|done].
  destruct (full_shot e); simpl; by rewrite <-app_assoc.
Qed.

Lemma trim_capture_run e tmpPng destPng raw w :
  fs w !! tmpPng = Some raw → tmpPng ≠ destPng →
  trim_capture e tmpPng destPng w
  = (Ok (), World (trim_fs e tmpPng destPng raw (fs w)) (browsers w)
              (trace w ++ trim_events e tmpPng destPng raw)).
Proof.
  intros Hraw Hne.
  unfold trim_capture, trim_fs, raw_fallback, trim_events, sharp_trim_toFile, readFileSync,
    unlinkSync, renameSync, try_catch, bind, emit, read_fs, update_fs, ret, throw, fault.
  simpl. rewrite Hraw. destruct (sharp e raw) as [out|msg [bytes|]]; simpl.
  - rewrite lookup_insert_ne, Hraw by done. simpl.
    destruct (unlink_fault e); simpl; [|by rewrite <-app_assoc].
    rewrite lookup_insert_ne, Hraw by done. simpl.
    destruct (rename_fault e); simpl; by rewrite <-!app_assoc.
  - rewrite lookup_insert_ne, Hraw by done. simpl.
    destruct (rename_fault e); simpl; by rewrite <-app_assoc.
  - rewrite Hraw. simpl. destruct (rename_fault e); simpl; by rewrite <-app_assoc.
Qed.

Lemma trim_fs_lookup e tmpPng destPng raw (m : gmap string string) p :
  tmpPng ≠ destPng → trim_settles e raw = true →
  trim_fs e tmpPng destPng raw m !! p
  = if decide (p = destPng) then Some (final_image e raw)
    else if decide (p = tmpPng) then None else m !! p.
Proof.
  intros Hne. unfold trim_settles, trim_fs, raw_fallback, final_image.
  destruct (sharp e raw) as [out|msg [bytes|]]; intros ->%bool_decide_eq_true;
    repeat case_decide; by simplify_map_eq.
Qed.

Lemma trim_fs_other e tmpPng destPng raw (m : gmap string string) p :
  p ≠ destPng → p ≠ tmpPng → trim_fs e tmpPng destPng raw m !! p = m !! p.
Proof.
  intros Hd Ht. unfold trim_fs, raw_fallback.
  destruct (sharp e raw) as [out|msg [bytes|]], (unlink_fault e), (rename_fault e);
    by simplify_map_eq.
Qed.


Lemma renderer_returns_inv e :
  renderer_returns e = true →
  ∃ r raw, measured e = inr r ∧ raw_capture e = Some raw.
Proof.
  unfold renderer_returns, raw_capture.
  destruct (measured e) as [err|r]; [by rewrite !andb_false_r|].
  destruct (clip_shot e), (full_shot e); try by eexists _, _.
  simpl. by rewrite !andb_false_r.
Qed.

Lemma renderer_completes_inv e :
  renderer_completes e = true →
  renderer_returns e = true ∧ append_fault e = None
  ∧ ∃ r raw, measured e = inr r ∧ raw_capture e = Some raw ∧ trim_settles e raw = true.
Proof.
  unfold renderer_completes. rewrite !andb_true_iff, bool_decide_eq_true.
  intros [[Hr Hs] Ha]. split; [done|]. split; [done|].
  destruct (renderer_returns_inv e Hr) as (r & raw & Hm & Hraw).
  rewrite Hraw in Hs. by exists r, raw.
Qed.

Lemma createEvidence_run e user accId projectKey apiUrl apiResponse destPng w r raw :
  renderer_returns e = true → measured e = inr r → raw_capture e = Some raw →
  createEvidence e user accId projectKey apiUrl apiResponse destPng w
  = (Ok {| htmlFile := html_path e user projectKey; pngFile := destPng |},
     World
       (trim_fs e (destPng +:+ ".tmp.png") destPng raw
          (<[destPng +:+ ".tmp.png" := raw]>
             (<[html_path e user projectKey :=
                  evidence_html user accId projectKey (formatTs (now_html e))
                    apiUrl apiResponse]> (fs w))))
       (browsers w)
       (trace w ++ evidence_events e (html_path e user projectKey)
                     (destPng +:+ ".tmp.png") destPng r raw)).
Proof.
  unfold renderer_returns, reaches_measure. rewrite !andb_true_iff, !bool_decide_eq_true.
  intros (((((((Hh & Hl) & Hn) & Hg) & _) & Hv) & _) & Hc) Hm Hraw.
  unfold createEvidence. fold (html_path e user projectKey).
  unfold ensureDir, existsSync, writeFileSync, launch, newPage, goto, evaluate,
    setViewport, browser_close.
  rewrite Hh, Hl, Hn, Hg, Hm, Hv, Hc.
  unfold bind at 1 2 3 4 5 6 7 8 9 10 11 12 13 14 15 16 17 18 19. simpl.
  unfold bind at 1. rewrite capture_run, Hraw.
  unfold bind at 1. erewrite trim_capture_run; cycle 1.
  { simpl. apply lookup_insert_eq. }
  { by apply append_ne_self. }
  unfold evidence_events. simpl. by rewrite <-!app_assoc.
Qed.

Ltac createEvidence_cases e :=
  unfold createEvidence, ensureDir, existsSync, writeFileSync, launch, newPage, goto,
    evaluate, setViewport, browser_close, bind, ret, emit, read_fs, update_fs,
    update_browsers, fault, lift, throw;
  simpl.

(** [createEvidence] returns exactly when [renderer_returns] says so, and
    throws otherwise. *)
Lemma createEvidence_outcome e user accId projectKey apiUrl apiResponse destPng w :
  match (createEvidence e user accId projectKey apiUrl apiResponse destPng w).1 with
  | Ok _ => renderer_returns e = true
  | Throw _ => renderer_returns e = false
  | Exit _ => False
  end.
Proof.
  unfold renderer_returns, reaches_measure. createEvidence_cases e.
  destruct (writeHtml_fault e); simpl; [done|].
  destruct (launch_fault e); simpl; [done|].
  destruct (newPage_fault e); simpl; [done|].
  destruct (goto_fault e); simpl; [done|].
  destruct (measured e); simpl; [done|].
  destruct (setViewport_fault e); simpl; [done|].
  rewrite capture_run. unfold raw_capture.
  destruct (clip_shot e), (full_shot e); simpl; try done;
    (erewrite trim_capture_run; [|simpl; apply lookup_insert_eq|by apply append_ne_self]);
    simpl; by destruct (close_fault e).
Qed.

(** ** The capture geometry *)

(** The trim step calls neither [page.setViewport] nor [page.screenshot]. *)
Lemma trim_capture_quiet e tmpPng destPng w :
  ∃ evs, trace (trim_capture e tmpPng destPng w).2 = trace w ++ evs
         ∧ viewports evs = [] ∧ clip_shots evs = [].
Proof.
  assert (respects (emits_only (λ ev, match ev with
                                      | EvSetViewport _ _ | EvScreenshotClip _ _ _ _ _ => False
                                      | _ => True end)) (trim_capture e tmpPng destPng)) as Hq.
  { unfold trim_capture, sharp_trim_toFile, unlinkSync, renameSync, readFileSync.
    respects_auto. }
  destruct (trim_capture e tmpPng destPng w) as [r w'] eqn:Hrun.
  apply Hq in Hrun as (evs & Ht & Hall). exists evs. split; [done|].
  clear Ht. induction Hall as [|ev evs Hev _ [IH1 IH2]]; [done|].
  destruct ev; try done.
Qed.

Ltac geometry_throws :=
  unfold bind, emit, fault, throw, read_fs, update_fs, update_browsers, ret, lift;
  cbn -[clip_of viewport_of]; rewrite <-?app_assoc; eexists; split; [reflexivity|done].

(** What a run that measures [r] passes to [page.setViewport] and to the
    clipped [page.screenshot]. *)
Lemma createEvidence_geometry_trace e r user accId projectKey apiUrl apiResponse destPng w :
  measured e = inr r →
  let c := clip_of r in
  ∃ evs, trace (createEvidence e user accId projectKey apiUrl apiResponse destPng w).2
         = trace w ++ evs
    ∧ viewports evs = (if reaches_measure e then [viewport_of c] else [])
    ∧ clip_shots evs
      = (if reaches_measure e && bool_decide (setViewport_fault e = None)
         then [(destPng +:+ ".tmp.png", c)] else [])
    ∧ (reaches_measure e = true → setViewport_fault e = None →
       ∃ before after,
         evs = before
               ++ EvSetViewport (viewport_of c).1 (viewport_of c).2
                  :: EvScreenshotClip (destPng +:+ ".tmp.png") (clip_x c) (clip_y c)
                       (clip_width c) (clip_height c)
                  :: after).
Proof.
  intros Hm c. unfold reaches_measure.
  unfold createEvidence, ensureDir, existsSync, writeFileSync, launch, newPage, goto,
    evaluate, setViewport, browser_close.
  rewrite Hm. fold c.
  destruct (writeHtml_fault e); [geometry_throws|].
  destruct (launch_fault e); [geometry_throws|].
  destruct (newPage_fault e); [geometry_throws|].
  destruct (goto_fault e); [geometry_throws|].
  destruct (setViewport_fault e); [geometry_throws|].
  unfold bind at 1 2 3 4 5 6 7 8 9 10 11 12 13 14 15 16 17 18 19.
  cbn -[clip_of viewport_of capture trim_capture bind].
  unfold bind at 1. rewrite capture_run.
  assert (∀ rest : list event, viewports rest = [] → clip_shots rest = [] →
    viewports ([EvWriteFile (html_path e user projectKey); EvLaunch; EvNewPage;
                EvGoto ("file://" +:+ html_path e user projectKey); EvEvaluate;
                EvSetViewport (viewport_of c).1 (viewport_of c).2]
               ++ capture_events e (destPng +:+ ".tmp.png") c ++ rest) = [viewport_of c]
    ∧ clip_shots ([EvWriteFile (html_path e user projectKey); EvLaunch; EvNewPage;
                EvGoto ("file://" +:+ html_path e user projectKey); EvEvaluate;
                EvSetViewport (viewport_of c).1 (viewport_of c).2]
               ++ capture_events e (destPng +:+ ".tmp.png") c ++ rest)
      = [(destPng +:+ ".tmp.png", c)]) as Hlists.
  { intros rest Hv Hc. unfold viewports, clip_shots, capture_events in *.
    rewrite !omap_app, Hv, Hc. cbn -[clip_of viewport_of].
    destruct (viewport_of c), c. by destruct (is_inr _). }
  assert (∀ (t rest : list event),
    t = trace w ++ ([EvWriteFile (html_path e user projectKey); EvLaunch; EvNewPage;
                EvGoto ("file://" +:+ html_path e user projectKey); EvEvaluate;
                EvSetViewport (viewport_of c).1 (viewport_of c).2]
               ++ capture_events e (destPng +:+ ".tmp.png") c ++ rest) →
    viewports rest = [] → clip_shots rest = [] →
    ∃ evs, t = trace w ++ evs
      ∧ viewports evs = [viewport_of c]
      ∧ clip_shots evs = [(destPng +:+ ".tmp.png", c)]
      ∧ (true = true → @None exn = None →
         ∃ before after,
           evs = before
                 ++ EvSetViewport (viewport_of c).1 (viewport_of c).2
                    :: EvScreenshotClip (destPng +:+ ".tmp.png") (clip_x c) (clip_y c)
                         (clip_width c) (clip_height c)
                    :: after)) as Hfinish.
  { intros t rest Ht Hv Hc. eexists. split; [exact Ht|].
    destruct (Hlists rest Hv Hc) as [-> ->]. split; [done|]. split; [done|].
    intros _ _. eexists [_; _; _; _; _], _. unfold capture_events. reflexivity. }
  cbn [fs browsers trace]. fold c. fold (html_path e user projectKey).
  destruct (raw_capture e) as [raw|].
  - unfold bind at 1.
    match goal with |- context [trim_capture ?a ?b ?d ?W] =>
      destruct (trim_capture_quiet a b d W) as (evs & Ht & Hv & Hc);
      destruct (trim_capture a b d W) as [[[]|err|code] w1]
    end; cbn [snd trace] in Ht.
    + unfold bind, emit, fault, throw, update_browsers, ret.
      destruct (close_fault e); cbn [snd trace]; apply (Hfinish _ (evs ++ [EvBrowserClose]));
        try (rewrite Ht, <-!app_assoc; reflexivity);
        unfold viewports, clip_shots in *; rewrite omap_app; by rewrite ?Hv, ?Hc.
    + apply (Hfinish _ evs); [|done|done]. cbn [snd]. rewrite Ht, <-!app_assoc. reflexivity.
    + apply (Hfinish _ evs); [|done|done]. cbn [snd]. rewrite Ht, <-!app_assoc. reflexivity.
  - apply (Hfinish _ []); [|done|done]. cbn [snd trace bind].
    rewrite app_nil_r, <-!app_assoc. reflexivity.
Qed.

(** C9. The capture region starts at the measured origin, or at 0 where
    that is negative; its width is the measured one, or 1280 when that is
    zero or not a number, and its height the measured one or 900, each
    clamped to at most 16384; the viewport is the far corner of the region,
    or 1280 by 900 where that is more, and so reaches at least the far
    corner.  Every run of [createEvidence] that gets as far as the
    measurement of the rectangle [r] calls [page.setViewport] exactly once,
    with that viewport, and, when that call succeeds, then takes exactly
    one clipped screenshot, of exactly that region; a run that does not get
    that far makes neither call. *)
Theorem capture_region_clamped (e : renv) (r : rect)
    (user accId projectKey apiUrl : string) (apiResponse : jsval) (destPng : string)
    (w : world) :
  measured e = inr r →
  let c := clip_of r in
  let run := createEvidence e user accId projectKey apiUrl apiResponse destPng w in
  clip_x c = Z.max 0 (rect_x r) ∧ clip_y c = Z.max 0 (rect_y r)
  ∧ (∀ n, rect_width r = Some n → n ≠ 0 → clip_width c = Z.min n 16384)
  ∧ (∀ n, rect_height r = Some n → n ≠ 0 → clip_height c = Z.min n 16384)
  ∧ (rect_width r = None ∨ rect_width r = Some 0 → clip_width c = 1280)
  ∧ (rect_height r = None ∨ rect_height r = Some 0 → clip_height c = 900)
  ∧ clip_width c ≤ 16384 ∧ clip_height c ≤ 16384
  ∧ viewport_of c = (Z.max (clip_x c + clip_width c) 1280,
                     Z.max (clip_y c + clip_height c) 900)
  ∧ clip_x c + clip_width c ≤ (viewport_of c).1
  ∧ clip_y c + clip_height c ≤ (viewport_of c).2
  ∧ viewports (new_events w run.2) = (if reaches_measure e then [viewport_of c] else [])
  ∧ clip_shots (new_events w run.2)
    = (if reaches_measure e && bool_decide (setViewport_fault e = None)
       then [(destPng +:+ ".tmp.png", c)] else [])
  ∧ (reaches_measure e = true → setViewport_fault e = None →
     ∃ before after,
       new_events w run.2
       = before
         ++ EvSetViewport (viewport_of c).1 (viewport_of c).2
            :: EvScreenshotClip (destPng +:+ ".tmp.png") (clip_x c) (clip_y c)
                 (clip_width c) (clip_height c)
            :: after).
Proof.
  intros Hm c run.
  destruct (createEvidence_geometry_trace e r user accId projectKey apiUrl apiResponse
              destPng w Hm) as (evs & Ht & Hv & Hc & Horder).
  fold run in Ht. rewrite (new_events_trace w run.2 evs Ht).
  assert (∀ n d, n ≠ 0 → or_default (Some n) d = n) as Hsome.
  { intros n d Hn. unfold or_default. by destruct (Z.eqb_spec n 0). }
  split; [done|]. split; [done|].
  split. { intros n Hn Hz. unfold c, clip_of, MAX_DIM. cbn [clip_width]. by rewrite Hn, Hsome. }
  split. { intros n Hn Hz. unfold c, clip_of, MAX_DIM. cbn [clip_height]. by rewrite Hn, Hsome. }
  split. { unfold c, clip_of, MAX_DIM. simpl. intros [-> | ->]; simpl; lia. }
  split. { unfold c, clip_of, MAX_DIM. simpl. intros [-> | ->]; simpl; lia. }
  split. { unfold c, clip_of, MAX_DIM. simpl. lia. }
  split. { unfold c, clip_of, MAX_DIM. simpl. lia. }
  split; [done|].
  split. { unfold viewport_of. simpl. lia. }
  split. { unfold viewport_of. simpl. lia. }
  done.
Qed.

(** C7 (as amended).  When [createEvidence] returns normally, which
    includes the runs where the clipped capture threw and the full-page
    capture replaced it and the runs where the trim threw, the browser it
    launched has been closed.  When it throws after a successful launch
    (in [newPage], the navigation, the measurement, the viewport resize,
    the full-page capture or [close] itself), the browser is still open;
    when it throws before (the markup file cannot be written, or the launch
    itself fails) no browser was opened.  It never exits the process
    itself. *)
Theorem createEvidence_browser_balance (e : renv) (user accId projectKey apiUrl : string)
    (apiResponse : jsval) (destPng : string) (w : world) (r : outcome Evidence)
    (w' : world) :
  createEvidence e user accId projectKey apiUrl apiResponse destPng w = (r, w') →
  match r with
  | Ok _ => browsers w' = browsers w
  | Throw _ =>
      browsers w' = match writeHtml_fault e, launch_fault e with
                    | None, None => S (browsers w)
                    | _, _ => browsers w
                    end
  | Exit _ => False
  end.
Proof.
  createEvidence_cases e.
  destruct (writeHtml_fault e); simpl; [by intros [= <- <-]|].
  destruct (launch_fault e); simpl; [by intros [= <- <-]|].
  destruct (newPage_fault e); simpl; [by intros [= <- <-]|].
  destruct (goto_fault e); simpl; [by intros [= <- <-]|].
  destruct (measured e); simpl; [by intros [= <- <-]|].
  destruct (setViewport_fault e); simpl; [by intros [= <- <-]|].
  rewrite capture_run.
  destruct (raw_capture e) as [raw|]; [|by intros [= <- <-]].
  erewrite trim_capture_run; cycle 1.
  { simpl. apply lookup_insert_eq. }
  { by apply append_ne_self. }
  simpl. destruct (close_fault e); simpl; by intros [= <- <-].
Qed.

(** ** One record *)

Lemma html_path_under e user project :
  ∃ rest, html_path e user project = path_join OUTPUT_DIR (String "h" rest).
Proof. unfold html_path, HTML_DIR. rewrite path_join_assoc. by eexists. Qed.

Lemma png_path_under verdict name :
  ∃ rest, path_join (png_dir verdict) name = path_join OUTPUT_DIR (String "p" rest).
Proof.
  unfold png_dir, HAS_ACCESS_PNG_DIR, NO_ACCESS_PNG_DIR, PNG_DIR.
  destruct verdict; rewrite !path_join_assoc; by eexists.
Qed.

Lemma tmp_path_under verdict name :
  ∃ rest, path_join (png_dir verdict) name +:+ ".tmp.png"
          = path_join OUTPUT_DIR (String "p" rest).
Proof.
  destruct (png_path_under verdict name) as [rest ->].
  unfold path_join. rewrite !append_assoc. by eexists.
Qed.

Lemma csv_of_under verdict :
  ∃ c rest, csv_of verdict = path_join OUTPUT_DIR (String c rest)
            ∧ c ≠ "h"%char ∧ c ≠ "p"%char.
Proof. unfold csv_of, ACCESS_OUTPUT_CSV, NO_ACCESS_OUTPUT_CSV. destruct verdict; by eexists _, _. Qed.

Lemma png_dir_ne : png_dir true ≠ png_dir false.
Proof. by apply path_join_ne. Qed.

(** The four paths one record touches are pairwise distinct. *)
Lemma record_paths_distinct e user project verdict verdict' name :
  let html := html_path e user project in
  let png := path_join (png_dir verdict) name in
  let tmp := png +:+ ".tmp.png" in
  let csv := csv_of verdict' in
  html ≠ png ∧ html ≠ tmp ∧ html ≠ csv ∧ png ≠ tmp ∧ png ≠ csv ∧ tmp ≠ csv.
Proof.
  intros html png tmp csv.
  destruct (html_path_under e user project) as [h Hh].
  destruct (png_path_under verdict name) as [p Hp].
  destruct (tmp_path_under verdict name) as [t Ht].
  destruct (csv_of_under verdict') as (c & r & Hc & ? & ?).
  assert (png ≠ tmp) by (intros Heq; by apply (append_ne_self png ".tmp.png")).
  unfold html, tmp, csv in *. unfold png in *.
  rewrite Hh, Ht, Hc. rewrite Hp in *. rewrite Ht in *.
  repeat split; try done; apply path_join_ne; congruence.
Qed.

Lemma process_row_run e row w r raw :
  eligible row → renderer_returns e = true → append_fault e = None →
  measured e = inr r → raw_capture e = Some raw →
  process_row e row w
  = (Ok (), World (record_fs e row raw (fs w)) (browsers w)
              (trace w ++ record_events e row r raw)).
Proof.
  intros (Hu & Hp & Hs) Hc Happ Hm Hraw. unfold process_row.
  rewrite !bool_decide_eq_false_2, (bool_decide_eq_true_2 _ Hs) by done. simpl.
  unfold console at 1. erewrite bind_Ok by reflexivity.
  erewrite bind_Ok by apply revokeAccess_run.
  unfold console at 1. erewrite bind_Ok by reflexivity.
  erewrite bind_Ok by apply verifyAccess_run.
  unfold console at 1. erewrite bind_Ok by reflexivity.
  unfold record_fs, record_events, api_response.
  set (v := verify_result e (field row "Project Key") (field row "Username")).
  assert ((if stillHasAccess v
           then path_join HAS_ACCESS_PNG_DIR
                  (png_name e (field row "Username") (field row "Project Key"))
           else path_join NO_ACCESS_PNG_DIR
                  (png_name e (field row "Username") (field row "Project Key")))
          = path_join (png_dir (stillHasAccess v))
              (png_name e (field row "Username") (field row "Project Key"))) as Hpng
    by (by destruct (stillHasAccess v)).
  unfold png_name in Hpng at 1 2. rewrite Hpng. clear Hpng.
  cbn [fs browsers trace].
  erewrite bind_Ok by (by eapply createEvidence_run).
  rewrite Happ. unfold csv_row, csv_of, appendFileSync, bind, emit, update_fs, fault, ret.
  simpl.
  destruct (stillHasAccess v); cbn [fs browsers trace]; f_equal; f_equal;
    unfold evidence_events, capture_events, trim_events;
    repeat (progress (simpl; rewrite <-?app_assoc)); reflexivity.
Qed.

Lemma evidence_events_files e html tmpPng destPng r raw :
  written_files (evidence_events e html tmpPng destPng r raw) = [html]
  ∧ appended_rows (evidence_events e html tmpPng destPng r raw) = [].
Proof.
  unfold evidence_events, capture_events, trim_events.
  by destruct (is_inr (clip_shot e)), (sharp e raw), (unlink_fault e).
Qed.

Lemma record_events_files e row r raw :
  let user := field row "Username" in
  let project := field row "Project Key" in
  let verdict := stillHasAccess (verify_result e project user) in
  written_files (record_events e row r raw) = [html_path e user project]
  ∧ appended_rows (record_events e row r raw) = [(csv_of verdict, csv_row e row verdict)].
Proof.
  intros user project verdict. unfold record_events, written_files, appended_rows.
  rewrite !omap_app. fold user project verdict.
  match goal with
  | |- context [evidence_events ?e ?h ?t ?d ?r ?raw] =>
      destruct (evidence_events_files e h t d r raw) as [Hw Ha]
  end.
  unfold written_files, appended_rows in Hw, Ha. by rewrite Hw, Ha.
Qed.

Lemma record_fs_other e row raw (m : gmap string string) p :
  let user := field row "Username" in
  let project := field row "Project Key" in
  let v := verify_result e project user in
  let png := path_join (png_dir (stillHasAccess v)) (png_name e user project) in
  p ≠ png → p ≠ png +:+ ".tmp.png" →
  record_fs e row raw m !! p
  = if decide (p = csv_of (stillHasAccess v))
    then Some (default "" (m !! p) +:+ csv_row e row (stillHasAccess v))
    else if decide (p = html_path e user project)
    then Some (evidence_html user (field row "Account ID") project
                 (formatTs (now_html e)) (vr_url v) (api_response v))
    else m !! p.
Proof.
  intros user project v png Hpng Htmp.
  destruct (record_paths_distinct e user project (stillHasAccess v) (stillHasAccess v)
              (png_name e user project)) as (? & ? & ? & ? & ? & ?).
  unfold record_fs. fold user project v png.
  rewrite lookup_insert.
  destruct (decide (csv_of (stillHasAccess v) = p)) as [<-|Hcsv].
  - rewrite decide_True by done. rewrite !trim_fs_other by done.
    by rewrite !lookup_insert_ne by done.
  - rewrite (decide_False (P := p = csv_of (stillHasAccess v))) by done.
    rewrite trim_fs_other by done. rewrite lookup_insert_ne by done.
    rewrite lookup_insert. destruct (decide (html_path e user project = p)) as [<-|].
    + by rewrite decide_True.
    + by rewrite decide_False.
Qed.

Lemma record_fs_lookup e row raw (m : gmap string string) p :
  trim_settles e raw = true →
  let user := field row "Username" in
  let project := field row "Project Key" in
  let v := verify_result e project user in
  let html := html_path e user project in
  let png := path_join (png_dir (stillHasAccess v)) (png_name e user project) in
  let csv := csv_of (stillHasAccess v) in
  record_fs e row raw m !! p
  = if decide (p = csv)
    then Some (default "" (m !! csv) +:+ csv_row e row (stillHasAccess v))
    else if decide (p = png) then Some (final_image e raw)
    else if decide (p = png +:+ ".tmp.png") then None
    else if decide (p = html)
    then Some (evidence_html user (field row "Account ID") project
                 (formatTs (now_html e)) (vr_url v) (api_response v))
    else m !! p.
Proof.
  intros Hsettles user project v html png csv.
  destruct (record_paths_distinct e user project (stillHasAccess v) (stillHasAccess v)
              (png_name e user project)) as (? & ? & ? & ? & ? & ?).
  unfold record_fs. fold user project v png csv html.
  rewrite lookup_insert, !trim_fs_lookup by done.
  rewrite (decide_False (P := csv = png)), (decide_False (P := csv = png +:+ ".tmp.png"))
    by done.
  rewrite !lookup_insert_ne by done.
  destruct (decide (csv = p)) as [<-|]; [by rewrite decide_True|].
  rewrite (decide_False (P := p = csv)) by done.
  destruct (decide (p = png)); [done|].
  destruct (decide (p = png +:+ ".tmp.png")); [done|].
  rewrite lookup_insert_ne by done. rewrite lookup_insert.
  destruct (decide (html = p)) as [<-|]; [by rewrite decide_True|].
  by rewrite decide_False.
Qed.

(** *** The revoke outcome and the category *)

Lemma process_row_after_revoke e row w :
  eligible row →
  process_row e row w
  = after_revoke e row (World (fs w) (browsers w) (trace w ++ revoke_events e row)).
Proof.
  intros (Hu & Hp & Hs). unfold process_row.
  rewrite !bool_decide_eq_false_2, (bool_decide_eq_true_2 _ Hs) by done. simpl.
  unfold console at 1. erewrite bind_Ok by reflexivity.
  erewrite bind_Ok by apply revokeAccess_run.
  unfold console at 1. erewrite bind_Ok by reflexivity.
  cbn [fs browsers trace]. unfold revoke_events. by rewrite <-!app_assoc.
Qed.

Lemma process_row_skips e row w :
  ¬ eligible row →
  process_row e row w
  = (if bool_decide (field row "Username" = "") || bool_decide (field row "Project Key" = "")
     then ret ()
     else console [JStr ("Skipping " +:+ field row "Username" +:+ " - already NO_ACCESS")]) w.
Proof.
  intros Hno. unfold process_row.
  destruct (bool_decide (field row "Username" = "")) eqn:Eu; [done|].
  destruct (bool_decide (field row "Project Key" = "")) eqn:Ep; [done|].
  apply bool_decide_eq_false in Eu, Ep. simpl.
  rewrite bool_decide_eq_false_2; [done|]. intros Hs. by apply Hno.
Qed.



Lemma effects_app evs1 evs2 : effects (evs1 ++ evs2) = effects evs1 ++ effects evs2.
Proof. apply filter_app. Qed.


Lemma scan_access_complete username data items :
  values_of data = Some items → Forall scannable items →
  ∃ b, scan_access username data = inr b
       ∧ (b = true ↔ Exists (entry_matches username) items).
Proof.
  intros Hv Hall. rewrite scan_access_values, Hv.
  destruct (some_returns (name_matches username) items) as [b Hb].
  { eapply Forall_impl; [exact Hall|]. intros v ?. by apply name_matches_returns. }
  exists b. split; [done|]. rewrite (some_Exists _ _ _ Hb).
  split; intros HE; (eapply Exists_impl; [exact HE|]); intros v; apply name_matches_true.
Qed.


Lemma verify_result_error_status e projectKey username status data :
  get_reply e = Reply status data → default_validateStatus status = false →
  verify_result e projectKey username
  = verify_failed ("Request failed with status code " +:+ pretty status) projectKey username.
Proof. intros Hreply Hstatus. unfold verify_result. by rewrite Hreply, Hstatus. Qed.

Lemma after_revoke_no_access e row :
  stillHasAccess (verify_result e (field row "Project Key") (field row "Username")) = false →
  respects (emits_only no_access_event) (after_revoke e row).
Proof.
  intros Hv. unfold after_revoke.
  eapply respects_bind_run; [apply _ | intros w; apply verifyAccess_run | |].
  { unfold verifyAccess. unfold_program. respects_auto. }
  rewrite Hv. unfold_program. respects_auto;
    apply emit_emits_only; simpl; eauto.
Qed.

Lemma process_row_no_access e row :
  stillHasAccess (verify_result e (field row "Project Key") (field row "Username")) = false →
  respects (emits_only no_access_event) (process_row e row).
Proof.
  intros Hv w r w' Hrun. destruct (decide (eligible row)) as [Hrow|Hrow].
  - rewrite process_row_after_revoke in Hrun by done.
    apply (after_revoke_no_access e row Hv) in Hrun.
    destruct Hrun as (evs & Htrace & Hall). simpl in Htrace.
    exists (revoke_events e row ++ evs). rewrite Htrace, app_assoc. split; [done|].
    apply Forall_app. split; [|done]. by repeat constructor.
  - rewrite process_row_skips in Hrun by done. revert Hrun.
    destruct (_ || _).
    + intros [= _ <-]. reflexivity.
    + intros [= _ <-]. eexists [_]. by repeat constructor.
Qed.

(** *** A record, from the row to the files *)



(** A turn of the loop up to the call of [createEvidence], and that call. *)
Lemma process_row_evidence e row w :
  eligible row →
  let user := field row "Username" in
  let project := field row "Project Key" in
  let v := verify_result e project user in
  process_row e row w
  = (let! evidence :=
       createEvidence e user (field row "Account ID") project (vr_url v) (api_response v)
         (path_join (png_dir (stillHasAccess v)) (png_name e user project)) in
     appendFileSync (append_fault e) (csv_of (stillHasAccess v))
       (user +:+ "," +:+ field row "Account ID" +:+ "," +:+ project +:+ ","
        +:+ field row "Access Permission"
        +:+ (if stillHasAccess v then ",HAS_ACCESS," else ",NO_ACCESS,")
        +:+ formatTs (now_ts e) +:+ "," +:+ pngFile evidence +:+ "
"))
      (World (fs w) (browsers w)
         (trace w ++ revoke_events e row
          ++ [EvHttp "get" (verify_url project user);
              EvConsole [JStr "  Verify:"; opt_js JNum JUndefined (vr_status v);
                         JStr (if stillHasAccess v then "Still HAS_ACCESS"
                               else "NO_ACCESS")]])).
Proof.
  intros Hrow user project v. rewrite process_row_after_revoke by done.
  unfold after_revoke. fold user project.
  erewrite bind_Ok by apply verifyAccess_run. fold v.
  unfold console at 1. erewrite bind_Ok by reflexivity.
  cbn [fs browsers trace]. rewrite <-!app_assoc. cbv zeta.
  unfold api_response, png_name, png_dir, csv_of.
  by destruct (stillHasAccess v).
Qed.



(** C10.  A verify reply with a status outside 200-299 is handled exactly
    as the transport failure with the corresponding message: the result has
    [ok] false and neither status, [hasAccess] nor raw payload.  A turn of
    the loop then emits nothing that places the record anywhere but in the
    no-access category, and when it completes it has appended the row to
    the no-access file and left the image in the no-access directory. *)
Theorem verify_error_status_no_access (e : renv) (status : Z) (data : jsval)
    (projectKey username : string) (row : gmap string string) (w : world) :
  get_reply e = Reply status data →
  default_validateStatus status = false →
  let failed :=
    set_get_reply e (NetFail ("Request failed with status code " +:+ pretty status)) in
  verifyAccess e projectKey username w = verifyAccess failed projectKey username w
  ∧ (∃ r w', verifyAccess e projectKey username w = (Ok r, w')
       ∧ vr_ok r = false ∧ vr_status r = None ∧ vr_hasAccess r = None
       ∧ vr_raw r = None ∧ stillHasAccess r = false)
  ∧ Forall no_access_event (new_events w (process_row e row w).2)
  ∧ (eligible row → renderer_completes e = true →
     ∃ w', process_row e row w = (Ok (), w')
       ∧ appended_rows (new_events w w') = [(NO_ACCESS_OUTPUT_CSV, csv_row e row false)]
       ∧ is_Some (fs w' !! path_join NO_ACCESS_PNG_DIR
                    (png_name e (field row "Username") (field row "Project Key")))).
Proof.
  intros Hreply Hstatus failed.
  assert (∀ pk un, verify_result e pk un
            = verify_failed ("Request failed with status code " +:+ pretty status) pk un)
    as Hres by (intros; by apply verify_result_error_status with data).
  split; [|split; [|split]].
  - by rewrite !verifyAccess_run, Hres.
  - eexists _, _. split; [apply verifyAccess_run|]. by rewrite Hres.
  - apply emits_only_new_events.
    apply (process_row_no_access e row) with (r := (process_row e row w).1).
    + by rewrite Hres.
    + by destruct (process_row e row w).
  - intros Hrow Hc.
    destruct (renderer_completes_inv e Hc) as (Hr & Ha' & r & raw & Hm & Hraw & Hs).
    destruct (record_paths_distinct e (field row "Username") (field row "Project Key")
                false false (png_name e (field row "Username") (field row "Project Key")))
      as (? & ? & ? & ? & ? & ?).
    destruct (record_events_files e row r raw) as [_ Ha]. rewrite Hres in Ha.
    eexists. split; [by apply process_row_run|].
    rewrite new_events_app. cbn [fs]. rewrite record_fs_lookup, Hres by done.
    split; [done|]. by rewrite decide_False, decide_True.
Qed.

(** ** The reports *)

Lemma add_images_run d dirPath files w :
  add_images d dirPath files w
  = (Ok (added_images d dirPath files),
     World (fs w) (browsers w) (trace w ++ add_events d dirPath files)).
Proof.
  revert w. induction files as [|img files IH]; intros w.
  - unfold add_events, added_images. simpl. rewrite app_nil_r. by destruct w.
  - cbn [add_images]. cbv zeta. unfold added_images, add_events, inserted in *.
    rewrite !fmap_cons, filter_cons. simpl.
    unfold try_catch, bind at 1 2, fault, throw, ret, console, emit.
    destruct (docx_add d (path_join dirPath img)) as [msg|]; simpl.
    + unfold bind at 1 2, try_catch, fault, throw, ret.
      destruct (docx_retry d (path_join dirPath img)) as [msg'|]; simpl.
      * unfold bind. rewrite IH. simpl. by rewrite <-app_assoc.
      * unfold bind. rewrite IH. simpl. by rewrite <-app_assoc.
    + unfold bind. rewrite IH. done.
Qed.

(** Every run of [createDocx], in closed form. *)
Lemma createDocx_run d dir doc w :
  createDocx d dir doc w
  = let out := path_join DOC_DIR doc in
    let files := dir_pngs dir (fs w) in
    let made := EvDocxGenerate out (replace_first ".docx" "" doc)
                  ("Generated: " +:+ formatTs (docx_now d)) (added_images d dir files) in
    match files, docx_write d with
    | [], _ => (Ok (), World (fs w) (browsers w) (trace w ++ [EvReaddir dir]))
    | _ :: _, DocxWritten bytes =>
        (Ok (), World (<[out := bytes]> (fs w)) (browsers w)
                  (trace w ++ [EvReaddir dir] ++ add_events d dir files
                   ++ [made; EvConsole [JStr "DOCX created →"; JStr out]]))
    | _ :: _, DocxFail msg remains =>
        (Throw msg,
         World (match remains with Some partial => <[out := partial]> (fs w) | None => fs w end)
           (browsers w)
           (trace w ++ [EvReaddir dir] ++ add_events d dir files ++ [made]))
    end.
Proof.
  unfold createDocx, readdirSync. unfold bind at 1 2 3, emit at 1, read_fs, ret at 1.
  cbn [fs browsers trace]. fold (dir_pngs dir (fs w)). cbv zeta.
  destruct (dir_pngs dir (fs w)) as [|f files] eqn:Hfiles; [done|].
  rewrite bool_decide_eq_false_2 by done.
  unfold bind at 1. rewrite add_images_run. cbn [fs browsers trace].
  unfold console, bind, emit, update_fs, throw, ret.
  destruct (docx_write d) as [bytes|msg [partial|]]; cbn [fs browsers trace];
    by rewrite <-?app_assoc.
Qed.

Lemma add_events_console d dir files :
  Forall (λ ev, is_console ev = true) (add_events d dir files).
Proof.
  apply Forall_forall. intros ev (p & Hev & _)%list_elem_of_bind.
  destruct (docx_add d p); [|by apply elem_of_nil in Hev].
  by apply list_elem_of_singleton in Hev as ->.
Qed.

Lemma readdirs_console evs : Forall (λ ev, is_console ev = true) evs → readdirs evs = [].
Proof.
  induction 1 as [|ev evs Hev _ IH]; [done|]. unfold readdirs in *.
  destruct ev; try done; simpl; by rewrite IH.
Qed.

Lemma readdirs_add_events d dir files : readdirs (add_events d dir files) = [].
Proof. apply readdirs_console, add_events_console. Qed.

Lemma createDocx_Throw_inv d dirPath docName w err w' :
  createDocx d dirPath docName w = (Throw err, w') →
  (∃ remains, docx_write d = DocxFail err remains
     ∧ fs w' = match remains with
               | Some partial => <[path_join DOC_DIR docName := partial]> (fs w)
               | None => fs w
               end)
  ∧ browsers w' = browsers w
  ∧ ∃ evs, trace w' = trace w ++ EvReaddir dirPath :: evs ∧ readdirs evs = [].
Proof.
  rewrite createDocx_run. cbv zeta.
  destruct (dir_pngs dirPath (fs w)) as [|f files]; [done|].
  destruct (docx_write d) as [bytes|msg remains]; [done|]. intros [= <- <-]. simpl.
  split; [by exists remains|]. split; [done|].
  eexists. split; [reflexivity|].
  unfold readdirs. rewrite omap_app. fold (readdirs (add_events d dirPath (f :: files))).
  by rewrite readdirs_add_events.
Qed.

(** C2 (as amended).  When the records have been processed and writing
    the has-access report throws, [main] catches the exception at the top,
    logs it and exits with code 2: the assembly of the no-access report is
    not attempted (its directory is never listed) and its file is left as it
    was, like every file but the has-access report itself; that one is
    left as it was too when its stream could not even be opened. *)
Theorem first_report_failure_is_fatal (E : env) (w w1 w2 : world) (err : exn) :
  process_records E w = (Ok (), w1) →
  createDocx (has_report_env E) HAS_ACCESS_PNG_DIR "Bitbucket_Has_Access_Report.docx" w1
    = (Throw err, w2) →
  ∃ w', main E w = (Exit 2, w')
    ∧ exit_code (main E w).1 = 2
    ∧ trace w' = trace w2 ++ [EvConsole [JStr "Fatal error:"; JStr err]]
    ∧ readdirs (new_events w1 w') = [HAS_ACCESS_PNG_DIR]
    ∧ (NO_ACCESS_PNG_DIR ∉ readdirs (new_events w1 w'))
    ∧ (∀ q, q ≠ path_join DOC_DIR "Bitbucket_Has_Access_Report.docx" →
            fs w' !! q = fs w1 !! q)
    ∧ fs w' !! path_join DOC_DIR "Bitbucket_No_Access_Report.docx"
      = fs w1 !! path_join DOC_DIR "Bitbucket_No_Access_Report.docx"
    ∧ (docx_write (has_report_env E) = DocxFail err None → fs w' = fs w1).
Proof.
  intros Hrec Hdocx.
  assert (main E w = (Exit 2, World (fs w2) (browsers w2)
                            (trace w2 ++ [EvConsole [JStr "Fatal error:"; JStr err]])))
    as Hmain.
  { unfold main. erewrite try_catch_Throw; [reflexivity|].
    erewrite bind_Ok by exact Hrec. unfold generate_reports. by apply bind_Throw. }
  apply createDocx_Throw_inv in Hdocx as ((remains & Hleft & Hfs) & _ & evs & Htrace & Hevs).
  assert (∀ q, q ≠ path_join DOC_DIR "Bitbucket_Has_Access_Report.docx" →
               fs w2 !! q = fs w1 !! q) as Hframe.
  { intros q Hq. rewrite Hfs. destruct remains; [|done]. by apply lookup_insert_ne. }
  eexists. split; [exact Hmain|]. rewrite Hmain. simpl.
  assert (readdirs (new_events w1 (World (fs w2) (browsers w2)
            (trace w2 ++ [EvConsole [JStr "Fatal error:"; JStr err]])))
          = [HAS_ACCESS_PNG_DIR]) as Hdirs.
  { unfold new_events. simpl. rewrite Htrace, <-app_assoc, drop_app_length.
    unfold readdirs in *. simpl. by rewrite omap_app, Hevs. }
  rewrite Hdirs. split; [done|]. split; [done|]. split; [done|].
  split; [rewrite list_elem_of_singleton; intros Heq; by apply png_dir_ne|].
  split; [exact Hframe|]. split.
  - apply Hframe. unfold path_join. intros Heq.
    apply (inj (String.app DOC_DIR)) in Heq. discriminate Heq.
  - intros Hnone. rewrite Hnone in Hleft. by injection Hleft as <-.
Qed.

End Properties.

(** * Further properties

    The file names, the request URLs, the loop, the report assembly,
    [main] as a whole and the start-up. *)

Ltac unfold_calls :=
  unfold createEvidence, capture, trim_capture, launch, newPage, goto, evaluate,
    setViewport, browser_close, screenshot_clip, screenshot_fullPage, sharp_trim_toFile,
    ensureDir, existsSync, writeFileSync, appendFileSync, unlinkSync, renameSync,
    readFileSync, readdirSync, console, axios.

(** ** File names (lines 76-90) *)

Lemma all_chars_app P s t : all_chars P (s +:+ t) = all_chars P s && all_chars P t.
Proof.
  induction s as [|a s IH]; [done|].
  change (P a && all_chars P (s +:+ t) = P a && all_chars P s && all_chars P t).
  by rewrite IH, andb_assoc.
Qed.

Lemma all_chars_impl (P Q : ascii → bool) s :
  (∀ a, P a = true → Q a = true) → all_chars P s = true → all_chars Q s = true.
Proof.
  intros HPQ. induction s as [|a s IH]; [done|]. simpl.
  intros [Ha Hs]%andb_true_iff. by rewrite HPQ, IH.
Qed.

Lemma safeName_go_safe b s : all_chars safe_char (safeName_go b s) = true.
Proof.
  revert b. induction s as [|a s IH]; intros b; [done|]. simpl.
  destruct (unsafe_char a) eqn:Ea.
  - destruct b; [apply IH|]. simpl. by rewrite IH.
  - simpl. unfold safe_char at 1. by rewrite Ea, IH.
Qed.

Lemma safeName_chars (s : string) : all_chars safe_char (safeName s) = true.
Proof. apply safeName_go_safe. Qed.

Lemma safeName_go_fixed b s : all_chars safe_char s = true → safeName_go b s = s.
Proof.
  revert b. induction s as [|a s IH]; intros b; [done|]. simpl.
  unfold safe_char at 1. destruct (unsafe_char a); [done|]. simpl.
  intros Hs. by rewrite IH.
Qed.

Lemma safeName_id (s : string) : all_chars safe_char s = true → safeName s = s.
Proof. apply safeName_go_fixed. Qed.

(** X1. [safeName] leaves none of the characters it replaces, it changes
    nothing in a name that holds none of them and only such names are left
    unchanged; so applying it twice is applying it once. *)
Theorem safeName_safe (s : string) :
  all_chars safe_char (safeName s) = true
  ∧ (safeName s = s ↔ all_chars safe_char s = true)
  ∧ safeName (safeName s) = safeName s.
Proof.
  split; [apply safeName_chars|]. split; [split|].
  - intros <-. apply safeName_chars.
  - apply safeName_id.
  - apply safeName_id, safeName_chars.
Qed.

Lemma safeName_go_length b s : (String.length (safeName_go b s) ≤ String.length s)%nat.
Proof.
  revert b. induction s as [|a s IH]; intros b; [done|]. simpl.
  destruct (unsafe_char a); [destruct b|]; simpl; try apply le_n_S; try apply IH.
  etrans; [apply IH|]. lia.
Qed.

(** X2. [safeName] never makes a name empty and never makes it longer:
    a run of replaced characters becomes one underscore. *)
Theorem safeName_nonempty (s : string) :
  s ≠ "" → safeName s ≠ "" ∧ (String.length (safeName s) ≤ String.length s)%nat.
Proof.
  intros Hs. split; [|apply safeName_go_length].
  destruct s as [|a s]; [done|]. unfold safeName. simpl.
  by destruct (unsafe_char a).
Qed.

Lemma pretty_N_char_digit x : is_digit (pretty_N_char x) = true.
Proof. unfold pretty_N_char. by repeat case_match. Qed.

Lemma pretty_N_go_digits x s :
  all_chars is_digit s = true → all_chars is_digit (pretty_N_go x s) = true.
Proof.
  revert s. induction (N.lt_wf_0 x) as [x _ IH]; intros s Hs.
  assert (x = 0 ∨ 0 < x)%N as [->|?] by lia.
  - by rewrite pretty_N_go_0.
  - rewrite pretty_N_go_step by done. apply IH; [by apply N.div_lt|].
    simpl. by rewrite pretty_N_char_digit.
Qed.

Lemma pretty_nat_digits (n : nat) : all_chars is_digit (pretty n) = true.
Proof.
  unfold pretty, pretty_nat, pretty, pretty_N. case_decide; [done|].
  by apply pretty_N_go_digits.
Qed.

Lemma pad2_digits n : all_chars is_digit (Str.pad2 n) = true.
Proof.
  unfold Str.pad2. destruct (_ <? _)%nat; [|apply pretty_nat_digits].
  change (all_chars is_digit (String "0" (pretty n)) = true). simpl.
  apply pretty_nat_digits.
Qed.

Lemma map_chars_app f s t : map_chars f (s +:+ t) = map_chars f s +:+ map_chars f t.
Proof.
  induction s as [|a s IH]; [done|].
  change (String (f a) (map_chars f (s +:+ t)) = String (f a) (map_chars f s +:+ map_chars f t)).
  by rewrite IH.
Qed.

Lemma map_chars_fixed (P : ascii → bool) f s :
  (∀ a, P a = true → f a = a) → all_chars P s = true → map_chars f s = s.
Proof.
  intros Hf. induction s as [|a s IH]; [done|]. simpl.
  intros [Ha Hs]%andb_true_iff. by rewrite Hf, IH.
Qed.

Lemma safe_separator_digit a : is_digit a = true → safe_separator a = a.
Proof.
  unfold safe_separator. repeat case_bool_decide; subst; try done.
Qed.

Lemma digit_safe a : is_digit a = true → safe_char a = true.
Proof.
  destruct a as [[] [] [] [] [] [] [] []]; by vm_compute.
Qed.

(** X3. The time stamp of the file names is the displayed time stamp
    with the blank replaced by an underscore and the colons by hyphens:
    the two functions format the same instant in the same way. *)
Theorem formatSafeTs_from_formatTs (d : date) :
  formatSafeTs d = map_chars safe_separator (formatTs d).
Proof.
  unfold formatSafeTs, formatTs. rewrite !map_chars_app.
  rewrite (map_chars_fixed is_digit safe_separator (pretty _))
    by (apply safe_separator_digit || apply pretty_nat_digits).
  repeat rewrite (map_chars_fixed is_digit safe_separator (Str.pad2 _))
    by (apply safe_separator_digit || apply pad2_digits).
  reflexivity.
Qed.

Lemma formatSafeTs_chars (d : date) : all_chars safe_char (formatSafeTs d) = true.
Proof.
  unfold formatSafeTs. rewrite !all_chars_app.
  rewrite (all_chars_impl is_digit safe_char (pretty _) digit_safe)
    by apply pretty_nat_digits.
  repeat rewrite (all_chars_impl is_digit safe_char (Str.pad2 _) digit_safe)
    by apply pad2_digits.
  reflexivity.
Qed.

(** X4. The time stamp of the file names needs no [safeName]: it holds
    none of the characters [safeName] replaces, whatever the clock shows. *)
Theorem formatSafeTs_safe (d : date) :
  all_chars safe_char (formatSafeTs d) = true ∧ safeName (formatSafeTs d) = formatSafeTs d.
Proof. split; [apply formatSafeTs_chars | apply safeName_id, formatSafeTs_chars]. Qed.

(** ** Request URLs (lines 97, 113) *)

Lemma hex_digit_unreserved n : (n < 16)%nat → Str.uri_unreserved (Str.hex_digit n) = true.
Proof.
  intros Hn. do 16 (destruct n as [|n]; [by vm_compute|]). lia.
Qed.

Lemma hex_digit_inj n m : (n < 16)%nat → (m < 16)%nat → Str.hex_digit n = Str.hex_digit m → n = m.
Proof.
  intros Hn Hm.
  do 16 (destruct n as [|n]; [do 16 (destruct m as [|m]; [by vm_compute|]); lia|]). lia.
Qed.

Lemma nat_of_ascii_lt a : (nat_of_ascii a < 256)%nat.
Proof. apply nat_ascii_bounded. Qed.

Lemma nat_of_ascii_inj a b : nat_of_ascii a = nat_of_ascii b → a = b.
Proof. intros Heq. by rewrite <-(ascii_nat_embedding a), <-(ascii_nat_embedding b), Heq. Qed.

Lemma percent_reserved : Str.uri_unreserved "%" = false.
Proof. by vm_compute. Qed.

Lemma encodeURIComponent_chars (s : string) :
  all_chars uri_char (Str.encodeURIComponent s) = true.
Proof.
  induction s as [|a s IH]; [done|]. cbn [Str.encodeURIComponent].
  destruct (Str.uri_unreserved a) eqn:Ea; cbv zeta; cbn [all_chars].
  - unfold uri_char at 1. by rewrite Ea, IH.
  - pose proof (nat_of_ascii_lt a).
    unfold uri_char at 2 3. rewrite !hex_digit_unreserved, IH; [done|..].
    + apply Nat.mod_upper_bound. lia.
    + apply Nat.Div0.div_lt_upper_bound. lia.
Qed.

Lemma encodeURIComponent_fixed (s : string) :
  all_chars Str.uri_unreserved s = true → Str.encodeURIComponent s = s.
Proof.
  induction s as [|a s IH]; [done|]. simpl.
  intros [Ha Hs]%andb_true_iff. by rewrite Ha, IH.
Qed.

Lemma escape_inj (n m : nat) (s t : string) :
  (n < 256)%nat → (m < 256)%nat →
  String "%" (String (Str.hex_digit (n / 16)) (String (Str.hex_digit (n mod 16)) s))
  = String "%" (String (Str.hex_digit (m / 16)) (String (Str.hex_digit (m mod 16)) t)) →
  n = m ∧ s = t.
Proof.
  intros Hn Hm Heq.
  assert (n / 16 < 16)%nat as Hnh by (apply Nat.Div0.div_lt_upper_bound; lia).
  assert (m / 16 < 16)%nat as Hmh by (apply Nat.Div0.div_lt_upper_bound; lia).
  assert (n mod 16 < 16)%nat as Hnl by (apply Nat.mod_upper_bound; lia).
  assert (m mod 16 < 16)%nat as Hml by (apply Nat.mod_upper_bound; lia).
  pose proof (Nat.div_mod_eq n 16) as En. pose proof (Nat.div_mod_eq m 16) as Em.
  remember (n / 16)%nat as nh. remember (n mod 16)%nat as nl.
  remember (m / 16)%nat as mh. remember (m mod 16)%nat as ml.
  injection Heq as Hhi Hlo Hst.
  apply hex_digit_inj in Hhi; [|done..]. apply hex_digit_inj in Hlo; [|done..].
  split; [lia | done].
Qed.

Lemma encodeURIComponent_inj (s t : string) :
  Str.encodeURIComponent s = Str.encodeURIComponent t → s = t.
Proof.
  revert t. induction s as [|a s IH]; intros [|b t]; cbn [Str.encodeURIComponent]; cbv zeta.
  - done.
  - by destruct (Str.uri_unreserved b).
  - by destruct (Str.uri_unreserved a).
  - destruct (Str.uri_unreserved a) eqn:Ea, (Str.uri_unreserved b) eqn:Eb.
    + intros [= -> Hst]. f_equal. by apply IH.
    + intros [= -> _]. by rewrite percent_reserved in Ea.
    + intros [= <- _]. by rewrite percent_reserved in Eb.
    + intros [Hab Hst]%escape_inj; [|apply nat_of_ascii_lt..].
      f_equal; [by apply nat_of_ascii_inj | by apply IH].
Qed.

(** Two strings over one alphabet, each followed by a character outside of
    it, are the same when the whole is. *)
Lemma delimited_inj (P : ascii → bool) (c : ascii) (s s' t t' : string) :
  P c = false → all_chars P s = true → all_chars P s' = true →
  s +:+ String c t = s' +:+ String c t' → s = s' ∧ t = t'.
Proof.
  intros Hc. revert s'. induction s as [|a s IH]; intros [|a' s']; simpl.
  - intros _ _ [= ->]. done.
  - intros _ [Ha _]%andb_true_iff.
    change ("" +:+ String c t) with (String c t).
    change (String a' s' +:+ String c t') with (String a' (s' +:+ String c t')).
    intros [= <- _]. congruence.
  - intros [Ha _]%andb_true_iff _.
    change ("" +:+ String c t') with (String c t').
    change (String a s +:+ String c t) with (String a (s +:+ String c t)).
    intros [= -> _]. congruence.
  - intros [Ha Hs]%andb_true_iff [Ha' Hs']%andb_true_iff.
    change (String a s +:+ String c t) with (String a (s +:+ String c t)).
    change (String a' s' +:+ String c t') with (String a' (s' +:+ String c t')).
    intros [= -> Heq]. destruct (IH s' Hs Hs' Heq) as [-> ->]. done.
Qed.

Section Urls.
Context `{Config}.

(** X5. The two request URLs determine the project key and the user name
    they were built from: [encodeURIComponent] escapes every separator, so
    no key or name can reach the path or the query of another record, and
    the revoke URL of one record is never the verify URL of any. *)
Theorem request_url_inj (projectKey username projectKey' username' : string) :
  (revoke_url projectKey username = revoke_url projectKey' username'
   ∨ verify_url projectKey username = verify_url projectKey' username' →
   projectKey = projectKey' ∧ username = username')
  ∧ revoke_url projectKey username ≠ verify_url projectKey' username'.
Proof.
  assert (uri_char "/" = false) as Hslash by done.
  assert (∀ q q', Str.encodeURIComponent projectKey +:+ String "/" q
                  = Str.encodeURIComponent projectKey' +:+ String "/" q' →
                  projectKey = projectKey' ∧ q = q') as Hkey.
  { intros q q' Heq.
    apply (delimited_inj uri_char) in Heq as [Heq ->];
      [| done | apply encodeURIComponent_chars..].
    by apply encodeURIComponent_inj in Heq as ->. }
  unfold revoke_url, verify_url. split; [intros [Heq|Heq] | intros Heq].
  - apply (inj (String.app BASE_URL)), (inj (String.app "/rest/api/1.0/projects/")) in Heq.
    apply Hkey in Heq as [-> Heq]. split; [done|].
    apply (inj (String.app "permissions/users?name=")) in Heq.
    by apply encodeURIComponent_inj.
  - apply (inj (String.app BASE_URL)), (inj (String.app "/rest/api/1.0/projects/")) in Heq.
    apply Hkey in Heq as [-> Heq]. split; [done|].
    apply (inj (String.app "permissions/users?filter=")) in Heq.
    by apply encodeURIComponent_inj.
  - apply (inj (String.app BASE_URL)), (inj (String.app "/rest/api/1.0/projects/")) in Heq.
    apply Hkey in Heq as [_ Heq].
    apply (inj (String.app "permissions/users?")) in Heq.
    discriminate Heq.
Qed.

End Urls.

(** ** The loop (lines 298-347) *)

Lemma http_calls_none evs : Forall (λ ev, is_http ev = false) evs → http_calls evs = [].
Proof.
  induction 1 as [|ev evs Hev _ IH]; [done|]. unfold http_calls in *. simpl.
  destruct ev; try done.
Qed.

Section Loop.
Context `{Config}.

Lemma after_verify_no_http e row :
  ∀ w r w', after_revoke e row w = (r, w') →
    ∃ evs, trace w' = trace w ++ EvHttp "get"
                        (verify_url (field row "Project Key") (field row "Username")) :: evs
           ∧ Forall (λ ev, is_http ev = false) evs.
Proof.
  intros w r w'. unfold after_revoke.
  erewrite bind_Ok by apply verifyAccess_run.
  intros Hrun.
  match type of Hrun with ?k ?W = _ =>
    assert (respects (emits_only (λ ev, is_http ev = false)) k) as Hk
  end.
  { unfold_calls. respects_auto. }
  apply Hk in Hrun as (evs & Htrace & Hall). simpl in Htrace.
  exists evs. by rewrite Htrace, <-app_assoc.
Qed.

(** X6. One processed record costs exactly two requests, whatever the
    replies and whether or not the renderer then completes: the DELETE of the
    permission and the GET that verifies it, in that order, both for the
    project key and the user name of the row. *)
Theorem process_row_http_calls (e : renv) (row : gmap string string) (w : world) :
  eligible row →
  http_calls (new_events w (process_row e row w).2)
  = [("delete", revoke_url (field row "Project Key") (field row "Username"));
     ("get", verify_url (field row "Project Key") (field row "Username"))].
Proof.
  intros Hrow. rewrite process_row_after_revoke by done.
  destruct (after_revoke e row _) as [r w'] eqn:Hrun.
  apply after_verify_no_http in Hrun as (evs & Htrace & Hall). simpl in *.
  unfold new_events. rewrite Htrace, <-app_assoc, drop_app_length.
  unfold http_calls. rewrite omap_app. simpl.
  fold (http_calls evs). by rewrite http_calls_none.
Qed.

(** *** The loop *)

(** A turn that returns normally, for a row the loop processes. *)
Lemma process_row_Ok_run e row w w' :
  eligible row → process_row e row w = (Ok (), w') →
  renderer_returns e = true ∧ append_fault e = None
  ∧ ∃ r raw, measured e = inr r ∧ raw_capture e = Some raw
      ∧ w' = World (record_fs e row raw (fs w)) (browsers w)
               (trace w ++ record_events e row r raw).
Proof.
  intros Hrow Hrun.
  assert (renderer_returns e = true ∧ append_fault e = None) as [Hr Ha].
  { rewrite process_row_evidence in Hrun by done.
    apply bind_Ok_inv in Hrun as (ev & w1 & Hev & Happ). split.
    - match type of Hev with
      | createEvidence ?a ?b ?c ?d ?f ?g ?h ?W = _ =>
          pose proof (createEvidence_outcome a b c d f g h W) as Hout
      end.
      by rewrite Hev in Hout.
    - revert Happ. unfold appendFileSync, bind, emit, fault, throw.
      by destruct (append_fault e). }
  split; [done|]. split; [done|].
  destruct (renderer_returns_inv e Hr) as (r & raw & Hm & Hraw).
  exists r, raw. split; [done|]. split; [done|].
  rewrite (process_row_run e row w r raw) in Hrun by done. by injection Hrun as <-.
Qed.

Lemma process_row_Ok e row w w' :
  process_row e row w = (Ok (), w') →
  browsers w' = browsers w
  ∧ ∃ evs, trace w' = trace w ++ evs
      ∧ length (appended_rows evs) = (if decide (eligible row) then 1 else 0)%nat
      ∧ (¬ eligible row → effects evs = [] ∧ fs w' = fs w).
Proof.
  destruct (decide (eligible row)) as [Hrow|Hrow].
  - intros (_ & _ & r & raw & _ & _ & ->)%process_row_Ok_run; [|done].
    split; [done|].
    exists (record_events e row r raw). split; [done|]. split; [|done].
    by rewrite (proj2 (record_events_files e row r raw)).
  - rewrite process_row_skips by done. destruct (_ || _).
    + intros [= <-]. split; [done|]. exists []. by rewrite app_nil_r.
    + intros [= <-]. split; [done|]. eexists [_]. done.
Qed.

(** X7. Rows that are not eligible cost nothing: the loop over rows none
    of which is eligible returns normally without any request, file change
    or browser; it only logs the rows it skips for their status. *)
Theorem for_rows_skips_ineligible (E : env) (i : nat) (rows : list (gmap string string))
    (w : world) :
  Forall (λ row, ¬ eligible row) rows →
  ∃ evs, for_rows E i rows w = (Ok (), World (fs w) (browsers w) (trace w ++ evs))
    ∧ effects evs = [].
Proof.
  intros Hall. revert i w. induction Hall as [|row rows Hrow _ IH]; intros i w.
  - exists []. destruct w. by rewrite app_nil_r.
  - cbn [for_rows].
    destruct (process_row (record_env E i) row w) as [r w1] eqn:Hrun.
    pose proof Hrun as Hrun'. rewrite process_row_skips in Hrun' by done.
    assert (∃ evs1, r = Ok () ∧ w1 = World (fs w) (browsers w) (trace w ++ evs1)
                    ∧ effects evs1 = []) as (evs1 & -> & -> & Heff).
    { destruct (_ || _); injection Hrun' as <- <-.
      - exists []. destruct w. by rewrite app_nil_r.
      - by eexists [_]. }
    erewrite bind_Ok by exact Hrun.
    destruct (IH (S i) (World (fs w) (browsers w) (trace w ++ evs1))) as (evs2 & -> & Heff2).
    exists (evs1 ++ evs2). simpl. rewrite <-app_assoc. split; [done|].
    by rewrite effects_app, Heff, Heff2.
Qed.

Lemma for_rows_Ok (E : env) (i : nat) (rows : list (gmap string string)) (w w' : world) :
  for_rows E i rows w = (Ok (), w') →
  browsers w' = browsers w
  ∧ ∃ evs, trace w' = trace w ++ evs
      ∧ length (appended_rows evs) = length (filter eligible rows).
Proof.
  revert i w. induction rows as [|row rows IH]; intros i w.
  - intros [= <-]. split; [done|]. exists []. by rewrite app_nil_r.
  - cbn [for_rows]. intros ([] & w1 & Hrow & Hrest)%bind_Ok_inv.
    apply process_row_Ok in Hrow as (Hb1 & evs1 & Ht1 & Hn1 & _).
    destruct (IH _ _ Hrest) as (Hb2 & evs2 & Ht2 & Hn2).
    split; [congruence|]. exists (evs1 ++ evs2).
    rewrite Ht2, Ht1, <-app_assoc. split; [done|].
    unfold appended_rows in *. rewrite omap_app, length_app, Hn1, Hn2.
    rewrite filter_cons. by destruct (decide (eligible row)).
Qed.

(** X8. A loop that returns normally has appended exactly one row per
    eligible input row, the two output files taken together, and has closed
    every browser it launched. *)
Theorem for_rows_one_row_each (E : env) (i : nat) (rows : list (gmap string string))
    (w w' : world) :
  for_rows E i rows w = (Ok (), w') →
  length (appended_rows (new_events w w')) = length (filter eligible rows)
  ∧ browsers w' = browsers w.
Proof.
  intros (Hb & evs & Ht & Hn)%for_rows_Ok. split; [|done].
  unfold new_events. by rewrite Ht, drop_app_length.
Qed.

End Loop.

(** ** Exit codes (lines 278-359) *)

Section ExitsOnly.
Context (P : Z → Prop).

Lemma exits_only_ret {A} (a : A) : exits_only P (ret a).
Proof. by intros w code w'. Qed.

Lemma exits_only_throw {A} err : exits_only P (@throw A err).
Proof. by intros w code w'. Qed.

Lemma exits_only_process_exit {A} code : P code → exits_only P (@process_exit A code).
Proof. by intros HP w code' w' [= <- _]. Qed.

Lemma exits_only_read_fs : exits_only P read_fs.
Proof. by intros w code w'. Qed.

Lemma exits_only_emit ev : exits_only P (emit ev).
Proof. by intros w code w'. Qed.

Lemma exits_only_update_fs f : exits_only P (update_fs f).
Proof. by intros w code w'. Qed.

Lemma exits_only_update_browsers f : exits_only P (update_browsers f).
Proof. by intros w code w'. Qed.

Lemma exits_only_lift {A} (x : exn + A) : exits_only P (lift x).
Proof. by destruct x. Qed.

Lemma exits_only_fault f : exits_only P (fault f).
Proof. by destruct f. Qed.

Lemma exits_only_bind {A B} (m : M A) (k : A → M B) :
  exits_only P m → (∀ a, exits_only P (k a)) → exits_only P (bind m k).
Proof.
  intros Hm Hk w code w'. unfold bind.
  destruct (m w) as [[a|err|code'] w1] eqn:Em; [apply Hk|done|].
  intros [= <- <-]. by eapply Hm.
Qed.

Lemma exits_only_try_catch {A} (body : M A) handler :
  exits_only P body → (∀ err, exits_only P (handler err)) →
  exits_only P (try_catch body handler).
Proof.
  intros Hb Hh w code w'. unfold try_catch.
  destruct (body w) as [[a|err|code'] w1] eqn:Eb; [done|apply Hh|].
  intros [= <- <-]. by eapply Hb.
Qed.

End ExitsOnly.

Ltac exits_step :=
  lazymatch goal with
  | |- exits_only _ (bind _ _) => apply exits_only_bind; [| intros ?]
  | |- exits_only _ (try_catch _ _) => apply exits_only_try_catch; [| intros ?]
  | |- exits_only _ (match ?x with _ => _ end) => destruct x
  | |- exits_only _ (ret _) => apply exits_only_ret
  | |- exits_only _ (throw _) => apply exits_only_throw
  | |- exits_only _ read_fs => apply exits_only_read_fs
  | |- exits_only _ (emit _) => apply exits_only_emit
  | |- exits_only _ (update_fs _) => apply exits_only_update_fs
  | |- exits_only _ (update_browsers _) => apply exits_only_update_browsers
  | |- exits_only _ (lift _) => apply exits_only_lift
  | |- exits_only _ (fault _) => apply exits_only_fault
  end.
Ltac exits_auto := repeat exits_step.


Section ExitCodes.
Context `{Config}.

Lemma process_row_never_exits e row : exits_only (λ _, False) (process_row e row).
Proof.
  unfold process_row, revokeAccess, verifyAccess. unfold_calls. exits_auto.
Qed.

Lemma for_rows_never_exits E i rows : exits_only (λ _, False) (for_rows E i rows).
Proof.
  revert i. induction rows as [|row rows IH]; intros i; cbn [for_rows].
  - apply exits_only_ret.
  - apply exits_only_bind; [apply process_row_never_exits | intros _; apply IH].
Qed.




Lemma readFileSync_found p raw w :
  fs w !! p = Some raw → readFileSync p w = (Ok raw, w).
Proof. intros Hraw. unfold readFileSync, bind, read_fs. by rewrite Hraw. Qed.

Lemma existsSync_run p w : existsSync p w = (Ok (bool_decide (is_Some (fs w !! p))), w).
Proof. reflexivity. Qed.

(** The [try] block of [main], once the input file has been found. *)
Lemma process_records_found E w raw :
  fs w !! INPUT_CSV_PATH = Some raw →
  process_records E w
  = (let! rows := lift (csv_parse raw) in
     writeFileSync (access_header_fault E) ACCESS_OUTPUT_CSV CSV_HEADER;;;
     writeFileSync (no_access_header_fault E) NO_ACCESS_OUTPUT_CSV CSV_HEADER;;;
     for_rows E 0 rows)
      (World (fs w) (browsers w) (trace w ++ [EvConsole [JStr "Reading:"; JStr INPUT_CSV_PATH]])).
Proof.
  intros Hraw. unfold process_records, console.
  erewrite bind_Ok by reflexivity.
  erewrite bind_Ok by apply existsSync_run. cbn [fs].
  rewrite Hraw, bool_decide_eq_true_2 by eauto.
  erewrite bind_Ok by reflexivity.
  erewrite bind_Ok by (apply readFileSync_found; exact Hraw).
  reflexivity.
Qed.



(** X10. When the input file cannot be parsed [main] exits with code 2
    before it has touched any file: the output files of an earlier run are
    not truncated. *)
Theorem main_parse_failure (E : env) (w : world) (raw : string) (err : exn) :
  fs w !! INPUT_CSV_PATH = Some raw →
  csv_parse raw = inl err →
  main E w
  = (Exit 2, World (fs w) (browsers w)
               (trace w ++ [EvConsole [JStr "Reading:"; JStr INPUT_CSV_PATH];
                            EvConsole [JStr "Fatal error:"; JStr err]])).
Proof.
  intros Hraw Hparse. unfold main.
  erewrite try_catch_Throw; cycle 1.
  { apply bind_Throw. rewrite (process_records_found E w raw Hraw), Hparse.
    apply bind_Throw. reflexivity. }
  unfold console, bind, emit, process_exit. simpl. by rewrite <-app_assoc.
Qed.


End ExitCodes.

(** ** Strings: prefixes and suffixes *)

Lemma prefix_app (p s : string) : String.prefix p (p +:+ s) = true.
Proof.
  induction p as [|a p IH]; [by destruct s|].
  change (String.prefix (String a p) (String a (p +:+ s)) = true).
  simpl. by destruct (ascii_dec a a).
Qed.

Lemma prefix_inv (p s : string) : String.prefix p s = true → ∃ r, s = p +:+ r.
Proof.
  revert s. induction p as [|a p IH]; intros s; [by exists s|].
  destruct s as [|b s]; [done|]. simpl.
  destruct (ascii_dec a b) as [<-|]; [|done].
  intros [r ->]%IH. by exists r.
Qed.

Lemma rev_app_spec (s acc : string) : String.rev_app s acc = String.rev s +:+ acc.
Proof.
  unfold String.rev. revert acc. induction s as [|a s IH]; intros acc; [done|].
  simpl. rewrite (IH (String a acc)), (IH (String a "")).
  by rewrite append_assoc.
Qed.

Lemma rev_app_distr (s t : string) : String.rev (s +:+ t) = String.rev t +:+ String.rev s.
Proof.
  induction s as [|a s IH].
  - change (String.rev t = String.rev t +:+ ""). by rewrite append_nil_r.
  - change (String.rev_app (s +:+ t) (String a "") = String.rev t +:+ String.rev_app s (String a "")).
    rewrite !rev_app_spec, IH. by rewrite <-append_assoc.
Qed.

Lemma endsWith_app (s suffix : string) : Str.endsWith (s +:+ suffix) suffix = true.
Proof. unfold Str.endsWith. rewrite rev_app_distr. apply prefix_app. Qed.

Lemma strip_prefix_app (pre r : string) : strip_prefix pre (pre +:+ r) = Some r.
Proof.
  induction pre as [|a pre IH]; [by destruct r|].
  change (strip_prefix (String a pre) (String a (pre +:+ r)) = Some r).
  simpl. by rewrite bool_decide_eq_true_2.
Qed.

Lemma strip_prefix_Some (pre s r : string) : strip_prefix pre s = Some r → s = pre +:+ r.
Proof.
  revert s. induction pre as [|a pre IH]; intros s.
  - destruct s; by intros [= <-].
  - destruct s as [|b s]; [done|]. simpl. case_bool_decide as Hab; [|done].
    subst b. by intros ->%IH.
Qed.

(** ** Report assembly (lines 216-272) *)


Lemma first_segment_plain s : has_slash (first_segment s) = false.
Proof.
  induction s as [|a s IH]; [done|]. simpl. case_bool_decide as Ha; [done|].
  simpl. by rewrite bool_decide_eq_false_2, IH.
Qed.

Lemma first_segment_split s :
  s = first_segment s ∨ ∃ rest, s = first_segment s +:+ "/" +:+ rest.
Proof.
  induction s as [|a s IH]; [by left|]. simpl. case_bool_decide as Ha.
  - subst a. right. by exists s.
  - destruct IH as [IH|[rest IH]].
    + left. by rewrite <-IH.
    + right. exists rest.
      change (String a s = String a (first_segment s +:+ "/" +:+ rest)). by rewrite <-IH.
Qed.

Lemma first_segment_id name : has_slash name = false → first_segment name = name.
Proof.
  induction name as [|a name IH]; [done|]. simpl.
  intros [Ha Hn]%orb_false_iff. rewrite Ha. by rewrite IH.
Qed.

Lemma first_segment_app name rest :
  has_slash name = false → first_segment (name +:+ "/" +:+ rest) = name.
Proof.
  induction name as [|a name IH]; [done|]. simpl.
  intros [Ha Hn]%orb_false_iff.
  change (first_segment (String a (name +:+ "/" +:+ rest)) = String a name).
  simpl. rewrite Ha. by rewrite IH.
Qed.

Lemma entry_of_Some dir p name :
  entry_of dir p = Some name
  ↔ name ≠ "" ∧ has_slash name = false
    ∧ (p = path_join dir name ∨ ∃ rest, p = path_join dir name +:+ "/" +:+ rest).
Proof.
  unfold entry_of, path_join. split.
  - destruct (strip_prefix _ _) as [r|] eqn:Hs; [|done].
    apply strip_prefix_Some in Hs. rewrite append_assoc in Hs.
    case_bool_decide as Hne; [done|]. intros [= <-].
    split; [done|]. split; [apply first_segment_plain|].
    destruct (first_segment_split r) as [Hr|[rest Hr]].
    + left. by rewrite <-Hr.
    + right. exists rest. rewrite !append_assoc. by rewrite <-Hr.
  - intros (Hne & Hn & [->|[rest ->]]).
    + rewrite <-append_assoc, strip_prefix_app, first_segment_id by done.
      by rewrite bool_decide_eq_false_2.
    + rewrite !append_assoc. rewrite <-(append_assoc dir "/").
      rewrite strip_prefix_app, first_segment_app by done.
      by rewrite bool_decide_eq_false_2.
Qed.

Lemma elem_of_dir_pngs dir (m : gmap string string) name :
  name ∈ dir_pngs dir m
  ↔ entry_exists m (path_join dir name) ∧ has_slash name = false
    ∧ Str.endsWith name ".png" = true.
Proof.
  unfold dir_pngs, entry_exists.
  rewrite list_elem_of_filter, elem_of_remove_dups, list_elem_of_omap. split.
  - intros (Hpng & p & Hp & (Hne & Hn & Hp')%entry_of_Some). split; [|done].
    apply list_elem_of_fmap in Hp as ([q v] & -> & Hqv). simpl in Hp'.
    apply elem_of_map_to_list in Hqv. destruct Hp' as [->|[rest ->]]; [eauto|].
    right. eexists. split; [|eauto]. rewrite <-append_assoc. apply prefix_app.
  - intros (Hex & Hn & Hpng). split; [done|].
    assert (name ≠ "") as Hne by (by intros ->).
    destruct Hex as [[v Hv]|(q & [rest ->]%prefix_inv & [v Hv])].
    + exists (path_join dir name). split; [|apply entry_of_Some; eauto].
      apply list_elem_of_fmap. exists (path_join dir name, v). split; [done|].
      by apply elem_of_map_to_list.
    + exists ((path_join dir name +:+ "/") +:+ rest). split.
      * apply list_elem_of_fmap. eexists (_, v). split; [done|].
        by apply elem_of_map_to_list.
      * apply entry_of_Some. split; [done|]. split; [done|]. right.
        exists rest. apply append_assoc.
Qed.

Lemma NoDup_dir_pngs dir (m : gmap string string) : NoDup (dir_pngs dir m).
Proof. unfold dir_pngs. apply NoDup_filter, NoDup_remove_dups. Qed.

Lemma elem_of_added_images d dir files p :
  p ∈ added_images d dir files ↔ p ∈ path_join dir <$> files ∧ inserted d p = true.
Proof. unfold added_images. rewrite list_elem_of_filter. tauto. Qed.

Lemma NoDup_added_images d dir files : NoDup files → NoDup (added_images d dir files).
Proof.
  intros Hnd. unfold added_images. apply NoDup_filter, NoDup_fmap_2; [|done].
  intros a b Hab. by apply (inj (String.app dir)), (inj (String.app "/")) in Hab.
Qed.

Lemma report_images_app out evs1 evs2 :
  report_images out (evs1 ++ evs2) = report_images out evs1 ++ report_images out evs2.
Proof. apply bind_app. Qed.

Lemma report_images_none out evs :
  Forall (λ ev, assembles ev = false) evs → report_images out evs = [].
Proof.
  induction 1 as [|ev evs Hev _ IH]; [done|].
  change (report_images out (ev :: evs)) with (report_images out ([ev] ++ evs)).
  rewrite report_images_app, IH. by destruct ev.
Qed.

Lemma readdirs_none evs : Forall (λ ev, assembles ev = false) evs → readdirs evs = [].
Proof.
  induction 1 as [|ev evs Hev _ IH]; [done|]. unfold readdirs in *.
  destruct ev; try done; simpl; by rewrite IH.
Qed.

Section Reports.
Context `{Config}.

Lemma elem_of_png_paths dir (m : gmap string string) p :
  p ∈ path_join dir <$> dir_pngs dir m ↔ entry_exists m p ∧ is_png_of dir p.
Proof.
  rewrite list_elem_of_fmap. split.
  - intros (name & -> & (Hs & Hn & Hpng)%elem_of_dir_pngs). split; [done|]. by exists name.
  - intros (Hs & name & -> & Hn & Hpng). exists name. split; [done|].
    by apply elem_of_dir_pngs.
Qed.

(** What one run of [createDocx] adds to the trace, to the documents and
    to the files. *)
Lemma createDocx_events d dir doc w :
  ∃ evs, trace (createDocx d dir doc w).2 = trace w ++ evs
    ∧ (∀ out, report_images out evs
              = if decide (path_join DOC_DIR doc = out)
                then added_images d dir (dir_pngs dir (fs w)) else [])
    ∧ (∀ q, q ≠ path_join DOC_DIR doc → fs (createDocx d dir doc w).2 !! q = fs w !! q).
Proof.
  assert (∀ out l, report_images out (add_events d dir l) = []) as Hnone.
  { intros out l. apply report_images_none.
    eapply Forall_impl; [apply add_events_console|]. intros ev. by destruct ev. }
  rewrite createDocx_run. cbv zeta.
  destruct (dir_pngs dir (fs w)) as [|f files] eqn:Hfiles.
  - exists [EvReaddir dir]. split; [done|]. split; [intros out; by destruct (decide _)|].
    done.
  - destruct (docx_write d) as [bytes|msg remains]; eexists; (split; [reflexivity|]); split.
    + intros out. rewrite !report_images_app, Hnone. unfold report_images. simpl.
      destruct (decide _); by rewrite ?app_nil_r.
    + intros q Hq. simpl. apply lookup_insert_ne. congruence.
    + intros out. rewrite !report_images_app, Hnone. unfold report_images. simpl.
      destruct (decide _); by rewrite ?app_nil_r.
    + intros q Hq. simpl. destruct remains; [|done]. apply lookup_insert_ne. congruence.
Qed.

(** X12. The images of the document [createDocx] generates are exactly the
    entries directly in the directory, files or sub-directories, whose name
    ends with [.png] and for which one of the two attempts to insert the
    image succeeds, each one once.  No document is generated when the
    directory has no such entry; an image whose insertion throws twice is
    left out of the document that is generated. *)
Theorem createDocx_images (d : denv) (dir doc : string) (w : world) :
  let images := report_images (path_join DOC_DIR doc)
                  (new_events w (createDocx d dir doc w).2) in
  NoDup images
  ∧ ∀ p, p ∈ images ↔ entry_exists (fs w) p ∧ is_png_of dir p ∧ inserted d p = true.
Proof.
  destruct (createDocx_events d dir doc w) as (evs & Ht & Himg & _).
  cbv zeta. rewrite (new_events_trace _ _ _ Ht), Himg, decide_True by done.
  split; [apply NoDup_added_images, NoDup_dir_pngs|].
  intros p. rewrite elem_of_added_images, elem_of_png_paths. tauto.
Qed.

(** X13. [createDocx] changes no file but the document itself.  When the
    directory has no entry whose name ends with [.png] it does nothing
    beyond listing the directory: an older report stays as it is.  When it
    has one, be it a sub-directory or an image that cannot be inserted, the
    document is generated and the outcome is that of the write: the
    document holds the generated bytes, or the failure is thrown and the
    file holds what the failed stream left, its old content if the stream
    could not be opened. *)
Theorem createDocx_outcome (d : denv) (dir doc : string) (w : world) :
  let run := createDocx d dir doc w in
  let out := path_join DOC_DIR doc in
  (∀ q, q ≠ out → fs run.2 !! q = fs w !! q)
  ∧ ((∀ p, entry_exists (fs w) p → ¬ is_png_of dir p) →
     run = (Ok (), World (fs w) (browsers w) (trace w ++ [EvReaddir dir])))
  ∧ (∀ p, entry_exists (fs w) p → is_png_of dir p →
     (∃ title generated images,
        EvDocxGenerate out title generated images ∈ new_events w run.2)
     ∧ match docx_write d with
       | DocxWritten bytes => run.1 = Ok () ∧ fs run.2 !! out = Some bytes
       | DocxFail msg remains =>
           run.1 = Throw msg
           ∧ fs run.2 !! out = match remains with
                               | Some partial => Some partial
                               | None => fs w !! out
                               end
       end).
Proof.
  cbv zeta. rewrite createDocx_run. cbv zeta.
  destruct (dir_pngs dir (fs w)) as [|f files] eqn:Hfiles.
  - split; [done|]. split; [done|]. intros p Hp (name & -> & Hn & Hpng).
    assert (name ∈ dir_pngs dir (fs w)) as Hin by (by apply elem_of_dir_pngs).
    rewrite Hfiles in Hin. by apply elem_of_nil in Hin.
  - split; [|split].
    + intros q Hq. destruct (docx_write d) as [bytes|msg [partial|]]; simpl; [| |done];
        apply lookup_insert_ne; congruence.
    + intros Hnone. assert (f ∈ dir_pngs dir (fs w)) as Hin by (rewrite Hfiles; left).
      apply elem_of_dir_pngs in Hin as (Hs & Hn & Hpng).
      destruct (Hnone _ Hs). by exists f.
    + intros p _ _. destruct (docx_write d) as [bytes|msg remains]; cbn [fst snd].
      * split; [|split; [done|]; cbn [fs]; by rewrite lookup_insert_eq]. eexists _, _, _.
        rewrite new_events_app, !elem_of_app. right. right. left.
      * split.
        -- eexists _, _, _. rewrite new_events_app, !elem_of_app. right. right. left.
        -- split; [done|]. cbn [fs]. destruct remains; [by rewrite lookup_insert_eq|done].
Qed.

End Reports.

(** ** What the run does to the files *)

#[export] Instance confined_preorder dir : PreOrder (confined dir).
Proof.
  split; [by intros w p|]. intros w1 w2 w3 H12 H23 p Hp. by rewrite H23, H12.
Qed.

#[export] Instance keeps_files_preorder : PreOrder keeps_files.
Proof.
  split; [by intros w p|]. intros w1 w2 w3 H12 H23 p Hp Hs. by apply H23, H12.
Qed.

Lemma under_path_join dir name : under dir (path_join dir name) = true.
Proof. unfold under, path_join. rewrite <-append_assoc. apply prefix_app. Qed.

Lemma under_path_join_app dir name s : under dir (path_join dir name +:+ s) = true.
Proof. unfold under, path_join. rewrite <-append_assoc, append_assoc. apply prefix_app. Qed.

Lemma under_trans dir sub p : under (path_join dir sub) p = true → under dir p = true.
Proof.
  unfold under, path_join. intros [r ->]%prefix_inv.
  rewrite !append_assoc, <-append_assoc. apply prefix_app.
Qed.

Lemma emit_confined dir ev : respects (confined dir) (emit ev).
Proof. by intros w r w' [= _ <-]. Qed.

Lemma update_browsers_confined dir f : respects (confined dir) (update_browsers f).
Proof. by intros w r w' [= _ <-]. Qed.

Lemma update_fs_confined dir f :
  (∀ m p, under dir p = false → f m !! p = m !! p) → respects (confined dir) (update_fs f).
Proof. intros Hf w r w' [= _ <-] p Hp. by apply Hf. Qed.

Lemma emit_keeps_files ev : respects keeps_files (emit ev).
Proof. by intros w r w' [= _ <-] p _ Hs. Qed.

Lemma update_browsers_keeps_files f : respects keeps_files (update_browsers f).
Proof. by intros w r w' [= _ <-] p _ Hs. Qed.

Lemma update_fs_keeps_files f :
  (∀ m p, Str.endsWith p ".tmp.png" = false → is_Some (m !! p) → is_Some (f m !! p)) →
  respects keeps_files (update_fs f).
Proof. intros Hf w r w' [= _ <-] p Hp. by apply Hf. Qed.

Lemma insert_confined dir q (v : string) (m : gmap string string) p :
  under dir q = true → under dir p = false → <[q := v]> m !! p = m !! p.
Proof. intros Hq Hp. apply lookup_insert_ne. congruence. Qed.

Lemma delete_confined dir q (m : gmap string string) p :
  under dir q = true → under dir p = false → delete q m !! p = m !! p.
Proof. intros Hq Hp. apply lookup_delete_ne. congruence. Qed.

Lemma insert_keeps q (v : string) (m : gmap string string) p :
  is_Some (m !! p) → is_Some (<[q := v]> m !! p).
Proof. intros Hs. rewrite lookup_insert. by destruct (decide (q = p)). Qed.

Lemma delete_keeps q (m : gmap string string) p :
  Str.endsWith q ".tmp.png" = true → Str.endsWith p ".tmp.png" = false →
  is_Some (m !! p) → is_Some (delete q m !! p).
Proof. intros Hq Hp Hs. rewrite lookup_delete_ne; [done | congruence]. Qed.

#[export] Hint Resolve emit_confined update_browsers_confined emit_keeps_files
  update_browsers_keeps_files : respects.

Section Files.
Context `{Config}.

Lemma under_output_sub sub name : under OUTPUT_DIR (path_join (path_join OUTPUT_DIR sub) name) = true.
Proof. apply (under_trans _ sub), under_path_join. Qed.

Lemma createEvidence_confined e user accId projectKey apiUrl apiResponse destPng :
  under OUTPUT_DIR destPng = true →
  respects (confined OUTPUT_DIR)
    (createEvidence e user accId projectKey apiUrl apiResponse destPng).
Proof.
  intros Hdest.
  assert (under OUTPUT_DIR (destPng +:+ ".tmp.png") = true) as Htmp.
  { unfold under in *. apply prefix_inv in Hdest as [r ->].
    rewrite append_assoc. apply prefix_app. }
  unfold_calls. respects_auto.
  all: apply update_fs_confined; intros m p Hp.
  all: rewrite ?(insert_confined OUTPUT_DIR), ?(delete_confined OUTPUT_DIR);
    try done; apply under_output_sub.
Qed.

Lemma under_output_png verdict name :
  under OUTPUT_DIR (path_join (png_dir verdict) name) = true.
Proof. destruct (png_path_under verdict name) as [rest ->]. apply under_path_join. Qed.

Lemma process_row_confined e row : respects (confined OUTPUT_DIR) (process_row e row).
Proof.
  unfold process_row, revokeAccess, verifyAccess, axios, console, appendFileSync.
  repeat (lazymatch goal with
          | |- respects _ (bind (createEvidence _ _ _ _ _ _ _) _) =>
              apply respects_bind; [apply _ | apply createEvidence_confined | intros ?]
          | |- respects _ (let _ := _ in _) => cbv zeta
          | _ => respects_step
          end); auto with respects.
  all: try (apply update_fs_confined; intros m p Hp;
            rewrite ?(insert_confined OUTPUT_DIR); try done; apply under_path_join).
  all: match goal with |- context [stillHasAccess ?v] => destruct (stillHasAccess v) end.
  - apply (under_output_png true).
  - apply (under_output_png false).
Qed.

Lemma for_rows_confined E i rows : respects (confined OUTPUT_DIR) (for_rows E i rows).
Proof.
  revert i. induction rows as [|row rows IH]; intros i; cbn [for_rows].
  - apply respects_ret, _.
  - apply respects_bind; [apply _ | apply process_row_confined | intros _; apply IH].
Qed.

Lemma createDocx_confined d dir doc : respects (confined OUTPUT_DIR) (createDocx d dir doc).
Proof.
  intros w r w'. rewrite createDocx_run. cbv zeta.
  destruct (dir_pngs dir (fs w)), (docx_write d) as [bytes|msg [partial|]];
    intros [= _ <-] p Hp; try done.
  all: simpl; rewrite (insert_confined OUTPUT_DIR); [done | apply under_output_sub | done].
Qed.

(** X14. [main] writes and removes below [output_files] only: whatever the
    outcome of the run, every file elsewhere, the input file among them, is
    what it was. *)
Theorem main_confined_to_output (E : env) (w : world) (p : string) :
  under OUTPUT_DIR p = false → fs (main E w).2 !! p = fs w !! p.
Proof.
  assert (respects (confined OUTPUT_DIR) (main E)) as Hmain.
  { unfold main, process_records, generate_reports.
    repeat (lazymatch goal with
            | |- respects _ (bind (for_rows _ _ _) _) =>
                apply respects_bind; [apply _ | apply for_rows_confined | intros ?]
            | |- respects _ (for_rows _ _ _) => apply for_rows_confined
            | |- respects _ (bind (createDocx _ _ _) _) =>
                apply respects_bind; [apply _ | apply createDocx_confined | intros ?]
            | |- respects _ (bind (writeFileSync _ _ _) _) =>
                apply respects_bind; [apply _ | | intros ?]
            | |- respects _ (writeFileSync _ _ _) => unfold writeFileSync
            | |- respects _ (console _) => unfold console
            | |- respects _ (bind (console _) _) => unfold console at 1
            | |- respects _ (bind (existsSync _) _) => unfold existsSync at 1
            | |- respects _ (bind (readFileSync _) _) => unfold readFileSync at 1
            | _ => respects_step
            end); auto with respects.
    all: apply update_fs_confined; intros m q Hq.
    all: rewrite (insert_confined OUTPUT_DIR); try done; apply under_path_join. }
  intros Hp. destruct (main E w) as [r w'] eqn:Hrun. by apply (Hmain w r w').
Qed.

Ltac keeps_leaf :=
  let Hp := fresh "Hp" in
  let Hs := fresh "Hs" in
  apply update_fs_keeps_files; intros ? ? Hp Hs;
  repeat first [ apply insert_keeps | apply delete_keeps; [apply endsWith_app | exact Hp |] ];
  try exact Hs.

Lemma createEvidence_keeps_files e user accId projectKey apiUrl apiResponse destPng :
  respects keeps_files (createEvidence e user accId projectKey apiUrl apiResponse destPng).
Proof. unfold_calls. respects_auto. all: keeps_leaf. Qed.

Lemma process_row_keeps_files e row : respects keeps_files (process_row e row).
Proof.
  unfold process_row, revokeAccess, verifyAccess, axios, console, appendFileSync.
  repeat (lazymatch goal with
          | |- respects _ (bind (createEvidence _ _ _ _ _ _ _) _) =>
              apply respects_bind; [apply _ | apply createEvidence_keeps_files | intros ?]
          | |- respects _ (let _ := _ in _) => cbv zeta
          | _ => respects_step
          end); auto with respects.
  all: keeps_leaf.
Qed.

Lemma for_rows_keeps_files E i rows : respects keeps_files (for_rows E i rows).
Proof.
  revert i. induction rows as [|row rows IH]; intros i; cbn [for_rows].
  - apply respects_ret, _.
  - apply respects_bind; [apply _ | apply process_row_keeps_files | intros _; apply IH].
Qed.

Lemma createDocx_keeps_files d dir doc : respects keeps_files (createDocx d dir doc).
Proof.
  intros w r w'. rewrite createDocx_run. cbv zeta.
  destruct (dir_pngs dir (fs w)), (docx_write d) as [bytes|msg [partial|]];
    intros [= _ <-] p Hp Hs; try done.
  all: by apply insert_keeps.
Qed.

(** X15. [main] removes no file but the temporary captures
    [<image>.tmp.png] of [createEvidence]: whatever the outcome of the run,
    every other file that existed when it started still exists. *)
Theorem main_removes_only_temporaries (E : env) (w : world) (p : string) :
  Str.endsWith p ".tmp.png" = false → is_Some (fs w !! p) → is_Some (fs (main E w).2 !! p).
Proof.
  assert (respects keeps_files (main E)) as Hmain.
  { unfold main, process_records, generate_reports.
    repeat (lazymatch goal with
            | |- respects _ (bind (for_rows _ _ _) _) =>
                apply respects_bind; [apply _ | apply for_rows_keeps_files | intros ?]
            | |- respects _ (for_rows _ _ _) => apply for_rows_keeps_files
            | |- respects _ (bind (createDocx _ _ _) _) =>
                apply respects_bind; [apply _ | apply createDocx_keeps_files | intros ?]
            | |- respects _ (bind (writeFileSync _ _ _) _) =>
                apply respects_bind; [apply _ | | intros ?]
            | |- respects _ (writeFileSync _ _ _) => unfold writeFileSync
            | |- respects _ (console _) => unfold console
            | |- respects _ (bind (console _) _) => unfold console at 1
            | |- respects _ (bind (existsSync _) _) => unfold existsSync at 1
            | |- respects _ (bind (readFileSync _) _) => unfold readFileSync at 1
            | _ => respects_step
            end); auto with respects.
    all: keeps_leaf. }
  intros Hp Hs. destruct (main E w) as [r w'] eqn:Hrun. by apply (Hmain w r w').
Qed.

End Files.

(** ** Evidence images and the reports *)

Lemma has_slash_app s t : has_slash (s +:+ t) = has_slash s || has_slash t.
Proof.
  induction s as [|a s IH]; [done|].
  change (bool_decide (a = "/"%char) || has_slash (s +:+ t)
          = bool_decide (a = "/"%char) || has_slash s || has_slash t).
  by rewrite IH, orb_assoc.
Qed.

Lemma safe_no_slash s : all_chars safe_char s = true → has_slash s = false.
Proof.
  induction s as [|a s IH]; [done|]. simpl. intros [Ha Hs]%andb_true_iff.
  rewrite (IH Hs), orb_false_r. apply bool_decide_eq_false_2. by intros ->.
Qed.

Lemma all_chars_rev P s : all_chars P (String.rev s) = all_chars P s.
Proof.
  induction s as [|a s IH]; [done|].
  change (all_chars P (String.rev_app s (String a "")) = P a && all_chars P s).
  rewrite rev_app_spec, all_chars_app, IH. simpl. by rewrite andb_true_r, andb_comm.
Qed.

Lemma rev_nil_inv s : String.rev s = "" → s = "".
Proof.
  destruct s as [|a s]; [done|].
  change (String.rev_app s (String a "") = "" → String a s = "").
  rewrite rev_app_spec. by destruct (String.rev s).
Qed.

Lemma pad2_ne n : Str.pad2 n ≠ "".
Proof.
  unfold Str.pad2. cbv zeta. destruct (_ <? _)%nat eqn:Hlen; [done|].
  apply Nat.ltb_ge in Hlen. intros Heq. rewrite Heq in Hlen. simpl in Hlen. lia.
Qed.

Lemma prefix_app_cancel (a b c : string) :
  String.prefix (a +:+ b) (a +:+ c) = String.prefix b c.
Proof.
  induction a as [|x a IH]; [done|].
  change (String.prefix (String x (a +:+ b)) (String x (a +:+ c)) = String.prefix b c).
  simpl. by destruct (ascii_dec x x).
Qed.

(** A name that ends with a time stamp and [.png] is not that of a
    temporary capture. *)
Lemma stamped_not_tmp (s : string) (d : date) :
  Str.endsWith (s +:+ formatSafeTs d +:+ ".png") ".tmp.png" = false.
Proof.
  unfold Str.endsWith, formatSafeTs.
  rewrite !rev_app_distr, !append_assoc.
  change (String.rev ".tmp.png") with ("gnp." +:+ "pmt.").
  change (String.rev ".png") with "gnp.".
  rewrite prefix_app_cancel.
  destruct (String.rev (Str.pad2 (getSeconds d))) as [|c r] eqn:Hrev.
  { by apply rev_nil_inv, pad2_ne in Hrev. }
  assert (is_digit c = true) as Hc.
  { pose proof (pad2_digits (getSeconds d)) as Hd.
    rewrite <-all_chars_rev, Hrev in Hd. simpl in Hd. by apply andb_true_iff in Hd as [? _]. }
  match goal with
  | |- String.prefix _ (_ +:+ ?y) = false =>
      change (String.prefix "pmt." (String c (r +:+ y)) = false)
  end. cbn [String.prefix].
  destruct (ascii_dec "p" c) as [<-|]; [by vm_compute in Hc | done].
Qed.

Section Names.
Context `{Config}.

Lemma png_name_shape (e : renv) (user project : string) :
  all_chars safe_char (png_name e user project) = true
  ∧ has_slash (png_name e user project) = false
  ∧ Str.endsWith (png_name e user project) ".png" = true.
Proof.
  assert (all_chars safe_char (png_name e user project) = true) as Hsafe.
  { unfold png_name. rewrite !all_chars_app, !safeName_chars, formatSafeTs_chars. done. }
  split; [done|]. split; [by apply safe_no_slash|].
  unfold png_name. rewrite <-!append_assoc. apply endsWith_app.
Qed.

Lemma png_path_not_tmp verdict e user project :
  Str.endsWith (path_join (png_dir verdict) (png_name e user project)) ".tmp.png" = false.
Proof.
  unfold path_join, png_name.
  rewrite <-!append_assoc, !(append_assoc _ (formatSafeTs _) ".png").
  apply stamped_not_tmp.
Qed.

End Names.

(** ** The whole run *)

Section Run.
Context `{Config}.

Lemma csv_of_inj b b' : csv_of b = csv_of b' → b = b'.
Proof.
  destruct b, b'; [done | | | done]; unfold csv_of, ACCESS_OUTPUT_CSV, NO_ACCESS_OUTPUT_CSV;
    intros Heq; by apply path_join_ne in Heq.
Qed.

(** The files of the two categories after one record. *)
Lemma record_fs_csv e row raw (m : gmap string string) b :
  record_fs e row raw m !! csv_of b
  = if decide (verdict_of e row = b)
    then Some (default "" (m !! csv_of b) +:+ csv_row e row b)
    else m !! csv_of b.
Proof.
  destruct (record_paths_distinct e (field row "Username") (field row "Project Key")
              (verdict_of e row) b
              (png_name e (field row "Username") (field row "Project Key")))
    as (_ & _ & Hhtml & _ & Hpng & Htmp).
  pose proof (record_fs_other e row raw m (csv_of b)) as Hother. cbv zeta in Hother.
  fold (verdict_of e row) in Hother. rewrite Hother by congruence.
  destruct (decide (verdict_of e row = b)) as [<-|Hb].
  - by rewrite decide_True.
  - rewrite decide_False by (intros Heq%csv_of_inj; congruence).
    by rewrite decide_False by congruence.
Qed.

Lemma record_fs_png e row raw (m : gmap string string) :
  raw_capture e = Some raw → leaves_image e = true →
  is_Some (record_fs e row raw m !! png_path e row).
Proof.
  intros Hraw. unfold leaves_image. rewrite Hraw. intros Hleft.
  destruct (record_paths_distinct e (field row "Username") (field row "Project Key")
              (verdict_of e row) (verdict_of e row)
              (png_name e (field row "Username") (field row "Project Key")))
    as (_ & _ & _ & Htmp & Hpng & _).
  unfold record_fs. cbv zeta. fold (verdict_of e row). fold (png_path e row).
  fold (png_path e row) in Htmp, Hpng.
  rewrite lookup_insert_ne by done.
  unfold trim_fs, raw_fallback.
  destruct (sharp e raw) as [out|msg [bytes|]], (unlink_fault e), (rename_fault e);
    try done; simplify_map_eq; eauto.
Qed.

Lemma for_rows_Ok_files E i rows w w' :
  for_rows E i rows w = (Ok (), w') →
  (∀ b c, fs w !! csv_of b = Some c → fs w' !! csv_of b = Some (c +:+ csv_rows E i rows b))
  ∧ (∀ j row, rows !! j = Some row → eligible row →
       leaves_image (record_env E (i + j)) = true →
       is_Some (fs w' !! png_path (record_env E (i + j)) row)).
Proof.
  revert i w. induction rows as [|row rows IH]; intros i w.
  - intros [= <-]. split; [|done]. intros b c ->. simpl. by rewrite append_nil_r.
  - cbn [for_rows]. intros ([] & w1 & Hrow & Hrest)%bind_Ok_inv.
    destruct (IH _ _ Hrest) as (Hcsv & Hpng). split.
    + intros b c Hc. cbn [csv_rows]. rewrite <-append_assoc. apply Hcsv.
      destruct (decide (eligible row)) as [Hel|Hel].
      * destruct (process_row_Ok_run _ _ _ _ Hel Hrow) as (_ & _ & r & raw & _ & _ & ->).
        cbn [fs]. rewrite record_fs_csv, Hc. simpl.
        destruct (decide (verdict_of (record_env E i) row = b)) as [Hb|Hb].
        -- by rewrite decide_True.
        -- rewrite decide_False by tauto. by rewrite append_nil_r.
      * rewrite decide_False by tauto. rewrite append_nil_r.
        rewrite process_row_skips in Hrow by done.
        destruct (_ || _); injection Hrow as <-; done.
    + intros [|j] row' Hj Hel Hleft.
      * injection Hj as <-. rewrite Nat.add_0_r in Hleft |- *.
        destruct (process_row_Ok_run _ _ _ _ Hel Hrow) as (_ & _ & r & raw & _ & Hraw & ->).
        eapply (for_rows_keeps_files E (S i) rows); [exact Hrest | apply png_path_not_tmp |].
        by apply record_fs_png.
      * replace (i + S j)%nat with (S i + j)%nat in Hleft |- * by lia. by apply Hpng.
Qed.

Lemma report_of_ne : report_of true ≠ report_of false.
Proof.
  unfold report_of, path_join. intros Heq.
  apply (inj (String.app DOC_DIR)) in Heq. discriminate Heq.
Qed.

Lemma png_not_report b b' p : is_png_of (png_dir b) p → p ≠ report_of b'.
Proof.
  intros (name & -> & _). destruct (png_path_under b name) as [rest ->].
  unfold report_of, DOC_DIR. rewrite path_join_assoc. by apply path_join_ne.
Qed.

(** No report lies below an entry of an image directory. *)
Lemma png_not_above_report b b' p q :
  is_png_of (png_dir b) p → String.prefix (p +:+ "/") q = true → q ≠ report_of b'.
Proof.
  intros (name & -> & _) Hq ->. destruct (png_path_under b name) as [rest Hrest].
  rewrite Hrest in Hq. revert Hq.
  unfold report_of, DOC_DIR. rewrite path_join_assoc. unfold path_join.
  rewrite !append_assoc, prefix_app_cancel.
  change ("/" +:+ String "p" rest +:+ "/") with (String "/" (String "p" (rest +:+ "/"))).
  by destruct b'.
Qed.

Lemma png_dir_disjoint b p : is_png_of (png_dir b) p → ¬ is_png_of (png_dir (negb b)) p.
Proof.
  intros (name & -> & _) (name' & Heq & _). revert Heq.
  unfold png_dir, HAS_ACCESS_PNG_DIR, NO_ACCESS_PNG_DIR.
  destruct b; simpl; rewrite !path_join_assoc; by intros ?%path_join_ne.
Qed.

(** X16. The image of a record lies directly in the directory of the
    record's verdict and in no other, whatever the user name and the project
    key contain: no path separator survives [safeName].  Its name holds only
    characters that [safeName] keeps, and it is never the name of a
    temporary capture. *)
Theorem evidence_image_path (e : renv) (row : gmap string string) :
  is_png_of (png_dir (verdict_of e row)) (png_path e row)
  ∧ ¬ is_png_of (png_dir (negb (verdict_of e row))) (png_path e row)
  ∧ all_chars safe_char (png_name e (field row "Username") (field row "Project Key")) = true
  ∧ Str.endsWith (png_path e row) ".tmp.png" = false.
Proof.
  assert (is_png_of (png_dir (verdict_of e row)) (png_path e row)) as Hof.
  { eexists. split; [reflexivity|]. apply png_name_shape. }
  split; [done|]. split; [by apply png_dir_disjoint|].
  split; [apply png_name_shape | apply png_path_not_tmp].
Qed.

Lemma csv_not_report b b' : csv_of b ≠ report_of b'.
Proof.
  unfold csv_of, report_of, DOC_DIR, ACCESS_OUTPUT_CSV, NO_ACCESS_OUTPUT_CSV.
  rewrite path_join_assoc. destruct b; by apply path_join_ne.
Qed.

(** An entry is there or not whatever happens to the files that are
    neither it nor below it. *)
Lemma entry_exists_frame (m m' : gmap string string) (P : string → Prop) p :
  (∀ q, P q → m' !! q = m !! q) → P p →
  (∀ q, String.prefix (p +:+ "/") q = true → P q) →
  entry_exists m' p ↔ entry_exists m p.
Proof.
  intros Hframe Hp Hbelow. unfold entry_exists. rewrite (Hframe p Hp).
  split; (intros [Hs|(q & Hq & Hs)]; [by left|]); right; exists q; (split; [done|]).
  - by rewrite <-(Hframe q (Hbelow q Hq)).
  - by rewrite (Hframe q (Hbelow q Hq)).
Qed.

(** The two assemblies, when both complete. *)
Lemma generate_reports_Ok E w w' :
  generate_reports E w = (Ok (), w') →
  ∃ evs, trace w' = trace w ++ evs
    ∧ (∀ q, q ≠ report_of true → q ≠ report_of false → fs w' !! q = fs w !! q)
    ∧ (∀ b p, p ∈ report_images (report_of b) evs
              ↔ entry_exists (fs w) p ∧ is_png_of (png_dir b) p
                ∧ inserted (report_env E b) p = true).
Proof.
  unfold generate_reports.
  intros ([] & w2 & Hhas & ([] & w3 & Hno & Hlog)%bind_Ok_inv)%bind_Ok_inv.
  destruct (createDocx_events (has_report_env E) HAS_ACCESS_PNG_DIR
              "Bitbucket_Has_Access_Report.docx" w) as (evs1 & Ht1 & Hi1 & Hf1).
  destruct (createDocx_events (no_report_env E) NO_ACCESS_PNG_DIR
              "Bitbucket_No_Access_Report.docx" w2) as (evs2 & Ht2 & Hi2 & Hf2).
  rewrite Hhas in Ht1, Hf1. rewrite Hno in Ht2, Hf2. simpl in Ht1, Hf1, Ht2, Hf2.
  injection Hlog as <-.
  match goal with |- context [EvConsole ?a] => set (ev := EvConsole a) end.
  assert (∀ out, report_images out [ev] = []) as Hlast by done.
  exists (evs1 ++ evs2 ++ [ev]). split; [|split].
  - simpl. by rewrite Ht2, Ht1, <-!app_assoc.
  - intros q Hq1 Hq2. simpl. by rewrite Hf2, Hf1.
  - intros b p. rewrite !report_images_app, Hi1, Hi2, Hlast, app_nil_r.
    change (path_join DOC_DIR "Bitbucket_Has_Access_Report.docx") with (report_of true).
    change (path_join DOC_DIR "Bitbucket_No_Access_Report.docx") with (report_of false).
    pose proof report_of_ne as Hne.
    destruct b.
    + rewrite decide_True, (decide_False (P := report_of false = report_of true))
        by congruence.
      rewrite app_nil_r, elem_of_added_images.
      rewrite (elem_of_png_paths HAS_ACCESS_PNG_DIR). unfold report_env, png_dir. tauto.
    + rewrite decide_False, (decide_True (P := report_of false = report_of false))
        by congruence.
      cbn [app]. rewrite elem_of_added_images.
      rewrite (elem_of_png_paths NO_ACCESS_PNG_DIR).
      change NO_ACCESS_PNG_DIR with (png_dir false). unfold report_env.
      assert (is_png_of (png_dir false) p → entry_exists (fs w2) p ↔ entry_exists (fs w) p)
        as Hsame.
      { intros Hp. apply (entry_exists_frame _ _ (λ q, q ≠ report_of true)).
        - exact Hf1.
        - by apply (png_not_report false true).
        - intros q Hq. by apply (png_not_above_report false true p q). }
      split; [intros [[? ?] ?] | intros (? & ? & ?)]; (split_and!; try done);
        by apply Hsame.
Qed.

Lemma writeFileSync_Ok_inv refused p data w w' :
  writeFileSync refused p data w = (Ok (), w') →
  refused = None
  ∧ w' = World (<[p := data]> (fs w)) (browsers w) (trace w ++ [EvWriteFile p]).
Proof.
  unfold writeFileSync, bind, emit, fault, throw, update_fs.
  destruct refused; [done|]. by intros [= <-].
Qed.

(** The loop of [main] once the input has been read and parsed, in a run
    that gets through the two header writes. *)
Lemma process_records_Ok E w w1 raw rows :
  fs w !! INPUT_CSV_PATH = Some raw → csv_parse raw = inr rows →
  process_records E w = (Ok (), w1) →
  for_rows E 0 rows
    (World (<[NO_ACCESS_OUTPUT_CSV := CSV_HEADER]>
              (<[ACCESS_OUTPUT_CSV := CSV_HEADER]> (fs w)))
       (browsers w)
       (trace w ++ [EvConsole [JStr "Reading:"; JStr INPUT_CSV_PATH];
                    EvWriteFile ACCESS_OUTPUT_CSV; EvWriteFile NO_ACCESS_OUTPUT_CSV]))
  = (Ok (), w1).
Proof.
  intros Hraw Hparse. rewrite (process_records_found E w raw Hraw), Hparse.
  erewrite bind_Ok by reflexivity.
  intros Hrun. apply bind_Ok_inv in Hrun as (u & w2 & Hw & Hrest).
  destruct u. apply writeFileSync_Ok_inv in Hw as [_ ->].
  apply bind_Ok_inv in Hrest as (u & w3 & Hw & Hloop). destruct u.
  apply writeFileSync_Ok_inv in Hw as [_ ->].
  revert Hloop. simpl. by rewrite <-!app_assoc.
Qed.

Lemma process_records_found_never_exits E w raw code w1 :
  fs w !! INPUT_CSV_PATH = Some raw → process_records E w ≠ (Exit code, w1).
Proof.
  intros Hraw Hrec. rewrite (process_records_found E w raw Hraw) in Hrec.
  match type of Hrec with ?m ?W = _ => assert (exits_only (λ _, False) m) as Hm end.
  { unfold writeFileSync. exits_auto. apply for_rows_never_exits. }
  by apply Hm in Hrec.
Qed.

Lemma main_Ok_inv E w w' :
  main E w = (Ok (), w') →
  ∃ w1, process_records E w = (Ok (), w1) ∧ generate_reports E w1 = (Ok (), w').
Proof.
  unfold main, try_catch.
  destruct (bind (process_records E) (λ _, generate_reports E) w)
    as [[[]|err|code] w2] eqn:Hbody;
    [|done|done].
  intros [= <-]. apply bind_Ok_inv in Hbody as ([] & w1 & ? & ?). eauto.
Qed.

Lemma for_rows_no_assembly E i rows :
  respects (emits_only (λ ev, assembles ev = false)) (for_rows E i rows).
Proof.
  revert i. induction rows as [|row rows IH]; intros i; cbn [for_rows].
  - apply respects_ret, _.
  - apply respects_bind; [apply _ | | intros _; apply IH].
    unfold process_row, revokeAccess, verifyAccess. unfold_calls. respects_auto.
Qed.

Lemma process_records_no_assembly E :
  respects (emits_only (λ ev, assembles ev = false)) (process_records E).
Proof.
  unfold process_records.
  repeat (lazymatch goal with
          | |- respects _ (for_rows _ _ _) => apply for_rows_no_assembly
          | |- respects _ (bind (writeFileSync _ _ _) _) =>
              apply respects_bind; [apply _ | unfold_calls | intros ?]
          | |- respects _ (bind (console _) _) => unfold console at 1
          | |- respects _ (console _) => unfold console
          | |- respects _ (bind (existsSync _) _) => unfold existsSync at 1
          | |- respects _ (bind (readFileSync _) _) => unfold readFileSync at 1
          | _ => respects_step
          end); auto with respects.
Qed.

(** The entries of the image directories are the same before and after
    the two assemblies. *)
Lemma reports_keep_entries (m m' : gmap string string) b p :
  (∀ q, q ≠ report_of true → q ≠ report_of false → m' !! q = m !! q) →
  is_png_of (png_dir b) p → entry_exists m' p ↔ entry_exists m p.
Proof.
  intros Hfs Hp.
  apply (entry_exists_frame _ _ (λ q, q ≠ report_of true ∧ q ≠ report_of false)).
  - intros q [? ?]. by apply Hfs.
  - split; by eapply png_not_report.
  - intros q Hq. split; by eapply png_not_above_report.
Qed.

(** X17. When [main] completes, the document of each category holds
    exactly the entries then directly in the directory of that category,
    files or sub-directories, whose name ends with [.png] and that one of
    the two attempts could insert: the images of this run and whatever
    earlier runs left there. *)
Theorem main_reports_hold_directory (E : env) (w w' : world) (b : bool) (p : string) :
  main E w = (Ok (), w') →
  p ∈ report_images (report_of b) (new_events w w')
  ↔ entry_exists (fs w') p ∧ is_png_of (png_dir b) p ∧ inserted (report_env E b) p = true.
Proof.
  intros (w1 & Hrec & Hgen)%main_Ok_inv.
  apply process_records_no_assembly in Hrec as (evs1 & Ht1 & Hevs1).
  apply generate_reports_Ok in Hgen as (evs2 & Ht2 & Hfs & Himg).
  rewrite (new_events_trace w w' (evs1 ++ evs2)) by (by rewrite Ht2, Ht1, <-app_assoc).
  rewrite report_images_app, (report_images_none _ evs1 Hevs1). simpl. rewrite Himg.
  split; intros (Hs & Hp & Hin); (split; [|done]);
    by apply (reports_keep_entries (fs w1) (fs w') b p Hfs Hp).
Qed.

(** X18. When [main] completes, the evidence image of a record it
    processed is never in the document of the other category.  It is in
    the document of the record's own category when the trim step left an
    image at the destination and one of the two attempts to insert it
    succeeds, and it is not when both attempts throw. *)
Theorem main_record_in_its_report (E : env) (w w' : world) (raw : string)
    (rows : list (gmap string string)) (i : nat) (row : gmap string string) :
  fs w !! INPUT_CSV_PATH = Some raw → csv_parse raw = inr rows →
  main E w = (Ok (), w') →
  rows !! i = Some row → eligible row →
  let verdict := verdict_of (record_env E i) row in
  let png := png_path (record_env E i) row in
  (leaves_image (record_env E i) = true → inserted (report_env E verdict) png = true →
   png ∈ report_images (report_of verdict) (new_events w w'))
  ∧ (inserted (report_env E verdict) png = false →
     png ∉ report_images (report_of verdict) (new_events w w'))
  ∧ png ∉ report_images (report_of (negb verdict)) (new_events w w').
Proof.
  intros Hraw Hparse (w1 & Hrec & Hgen)%main_Ok_inv Hi Hrow verdict png.
  pose proof (process_records_Ok E w w1 raw rows Hraw Hparse Hrec) as Hloop.
  apply for_rows_Ok_files in Hloop as [_ Hpng]. specialize (Hpng i row Hi Hrow).
  simpl in Hpng. fold png in Hpng.
  apply process_records_no_assembly in Hrec as (evs1 & Ht1 & Hevs1).
  apply generate_reports_Ok in Hgen as (evs2 & Ht2 & Hfs & Himg).
  rewrite (new_events_trace w w' (evs1 ++ evs2)) by (by rewrite Ht2, Ht1, <-app_assoc).
  rewrite !report_images_app, !(report_images_none _ evs1 Hevs1). simpl. rewrite !Himg.
  assert (is_png_of (png_dir verdict) png) as Hof.
  { eexists. split; [reflexivity|]. apply png_name_shape. }
  split; [|split].
  - intros Hleft Hin. split; [|done]. left. by apply Hpng.
  - intros Hout (_ & _ & Hin). congruence.
  - intros (_ & Hother & _). by apply png_dir_disjoint in Hof.
Qed.

(** X19. When [main] completes, each of the two output tables is the
    header followed by the lines of the processed records of its category,
    in the order of the input; what the file held before the run is gone. *)
Theorem main_csv_contents (E : env) (w w' : world) (raw : string)
    (rows : list (gmap string string)) (b : bool) :
  fs w !! INPUT_CSV_PATH = Some raw → csv_parse raw = inr rows →
  main E w = (Ok (), w') →
  fs w' !! csv_of b = Some (CSV_HEADER +:+ csv_rows E 0 rows b).
Proof.
  intros Hraw Hparse (w1 & Hrec & Hgen)%main_Ok_inv.
  apply (process_records_Ok E w w1 raw rows Hraw Hparse) in Hrec.
  apply for_rows_Ok_files in Hrec as [Hcsv _].
  apply generate_reports_Ok in Hgen as (evs2 & _ & Hfs & _).
  rewrite Hfs by apply csv_not_report. apply Hcsv. cbn [fs].
  destruct b; unfold csv_of.
  - rewrite lookup_insert_ne by (intros Heq; by apply (csv_of_inj false true) in Heq).
    apply lookup_insert_eq.
  - apply lookup_insert_eq.
Qed.

End Run.

(** ** A failing renderer *)

Section Faults.
Context `{Config}.

Lemma for_rows_Ok_returns E i rows w w' :
  for_rows E i rows w = (Ok (), w') →
  ∀ j row, rows !! j = Some row → eligible row →
           renderer_returns (record_env E (i + j)) = true.
Proof.
  revert i w. induction rows as [|row rows IH]; intros i w; [done|].
  cbn [for_rows]. intros ([] & w1 & Hrow & Hrest)%bind_Ok_inv [|j] row' Hj Hel.
  - injection Hj as <-. rewrite Nat.add_0_r.
    by destruct (process_row_Ok_run _ _ _ _ Hel Hrow) as (? & _).
  - replace (i + S j)%nat with (S i + j)%nat by lia. by eapply IH.
Qed.

(** X20. One record whose renderer fails is fatal for the whole run: when
    the input holds a row that the loop processes and for which the markup
    file cannot be written, the browser not be launched, the page not be
    loaded, measured or captured, or the browser not be closed, [main]
    exits with code 2 and assembles no report, not listing either image
    directory. *)
Theorem main_renderer_fault_is_fatal (E : env) (w : world) (raw : string)
    (rows : list (gmap string string)) (i : nat) (row : gmap string string) :
  fs w !! INPUT_CSV_PATH = Some raw → csv_parse raw = inr rows →
  rows !! i = Some row → eligible row →
  renderer_returns (record_env E i) = false →
  (main E w).1 = Exit 2
  ∧ readdirs (new_events w (main E w).2) = []
  ∧ ∀ out, report_images out (new_events w (main E w).2) = [].
Proof.
  intros Hraw Hparse Hi Hrow Hfault.
  pose proof (process_records_no_assembly E w) as Hevs.
  destruct (process_records E w) as [[[]|err|code] w1] eqn:Hrec.
  - apply (process_records_Ok E w w1 raw rows Hraw Hparse) in Hrec.
    pose proof (for_rows_Ok_returns _ _ _ _ _ Hrec i row Hi Hrow) as Hc.
    simpl in Hc. congruence.
  - destruct (Hevs _ _ eq_refl) as (evs & Ht & Hno).
    unfold main. erewrite try_catch_Throw by (apply bind_Throw, Hrec).
    unfold console, bind, emit, process_exit. simpl. split; [done|].
    rewrite (new_events_trace w _ (evs ++ [EvConsole [JStr "Fatal error:"; JStr err]]))
      by (simpl; by rewrite Ht, <-app_assoc).
    assert (Forall (λ ev, assembles ev = false)
              (evs ++ [EvConsole [JStr "Fatal error:"; JStr err]])) as Hall
      by (apply Forall_app; split; [done | by constructor]).
    split; [by apply readdirs_none | intros out; by apply report_images_none].
  - by apply (process_records_found_never_exits E w raw code w1) in Hrec.
Qed.

End Faults.

(** ** Start-up (lines 48-61) *)


Lemma rev_cons a s : String.rev (String a s) = String.rev s +:+ String a "".
Proof. unfold String.rev at 1. simpl. apply rev_app_spec. Qed.

Lemma rev_involutive s : String.rev (String.rev s) = s.
Proof.
  induction s as [|a s IH]; [done|]. by rewrite rev_cons, rev_app_distr, IH.
Qed.

Lemma drop_slashes_head s : String.prefix "/" (drop_slashes s) = false ∨ drop_slashes s = "".
Proof.
  induction s as [|a s IH]; [by right|]. simpl. case_bool_decide as Ha; [done|].
  left. cbn [String.prefix]. destruct (ascii_dec "/" a) as [<-|]; [done|]. by destruct s.
Qed.

Lemma has_scheme_http s : has_scheme ("http://" +:+ s) = true.
Proof.
  unfold has_scheme.
  change (Str.toLowerCase ("http://" +:+ s)) with ("http://" +:+ Str.toLowerCase s).
  by rewrite prefix_app.
Qed.

(** X21. The configured base URL always carries a scheme, and it never
    ends with a slash, with one exception: a [BB_URL] made of slashes only
    is accepted and becomes [http://]. *)
Theorem configure_base_url (bb_url bb_username bb_keyname : option string) (base : string) :
  configure bb_url bb_username bb_keyname = Some base →
  has_scheme base = true
  ∧ (Str.endsWith base "/" = true
     ↔ strip_trailing_slashes (Str.trim (env_or_empty bb_url)) = "")
  ∧ (Str.endsWith base "/" = true → base = "http://").
Proof.
  unfold configure. cbv zeta. destruct (_ || _); [done|]. intros [= <-].
  set (raw := Str.trim (env_or_empty bb_url)).
  assert (∀ s, Str.endsWith s "/" = String.prefix "/" (String.rev s)) as Hends by done.
  destruct (has_scheme (strip_trailing_slashes raw)) eqn:Hscheme.
  - assert (strip_trailing_slashes raw ≠ "") as Hne
      by (intros Heq; by rewrite Heq in Hscheme).
    split; [done|]. rewrite Hends. unfold strip_trailing_slashes in *.
    rewrite rev_involutive.
    destruct (drop_slashes_head (String.rev raw)) as [Hd|Hd]; [|by rewrite Hd in Hne].
    rewrite Hd. split; [split; [done|by intros ?] | done].
  - split; [apply has_scheme_http|]. rewrite Hends, rev_app_distr.
    unfold strip_trailing_slashes.
    rewrite rev_involutive.
    destruct (drop_slashes_head (String.rev raw)) as [Hd|Hd].
    + destruct (drop_slashes (String.rev raw)) as [|a s] eqn:Hs; [done|].
      change (String a s +:+ String.rev "http://") with (String a (s +:+ String.rev "http://")).
      assert (String.prefix "/" (String a (s +:+ String.rev "http://")) = false) as ->.
      { revert Hd. cbn [String.prefix]. destruct (ascii_dec "/" a); [|done]. by destruct s. }
      split; [split; [done|] | done]. intros Hnil%rev_nil_inv. done.
    + rewrite Hd. done.
Qed.

(** * The scenario, run *)

Import Sample.



(** C2, counterexample to the claim as stated: the records are processed,
    the has-access report cannot be written; [main] exits with code 2 and
    the only directory ever listed is the has-access one. *)
Lemma first_report_failure_counterexample :
  let records := @process_records cfg has_report_fails start in
  records.1 = Ok ()
  ∧ (@createDocx cfg (has_report_env has_report_fails) (@HAS_ACCESS_PNG_DIR cfg)
       "Bitbucket_Has_Access_Report.docx" records.2).1 = Throw "EACCES: permission denied"
  ∧ (@main cfg has_report_fails start).1 = Exit 2
  ∧ readdirs (trace (@main cfg has_report_fails start).2)
    = ["/app/output_files/png/has_access"].
Proof. by vm_compute. Qed.

Lemma first_report_failure_is_fatal_witness :
  let w1 := (@process_records cfg has_report_fails start).2 in
  let w2 := (@createDocx cfg (has_report_env has_report_fails) (@HAS_ACCESS_PNG_DIR cfg)
               "Bitbucket_Has_Access_Report.docx" w1).2 in
  @process_records cfg has_report_fails start = (Ok (), w1)
  ∧ @createDocx cfg (has_report_env has_report_fails) (@HAS_ACCESS_PNG_DIR cfg)
      "Bitbucket_Has_Access_Report.docx" w1 = (Throw "EACCES: permission denied", w2)
  ∧ exit_code (@main cfg has_report_fails start).1 = 2.
Proof.
  intros w1 w2.
  assert (@process_records cfg has_report_fails start = (Ok (), w1)) as H1
    by (apply (run_split (@process_records cfg has_report_fails) start);
        vm_compute; reflexivity).
  assert (@createDocx cfg (has_report_env has_report_fails) (@HAS_ACCESS_PNG_DIR cfg)
            "Bitbucket_Has_Access_Report.docx" w1
          = (Throw "EACCES: permission denied", w2)) as H2
    by (apply (run_split (@createDocx cfg (has_report_env has_report_fails)
                            (@HAS_ACCESS_PNG_DIR cfg) "Bitbucket_Has_Access_Report.docx") w1);
        vm_compute; reflexivity).
  split; [exact H1|]. split; [exact H2|].
  destruct (@first_report_failure_is_fatal cfg has_report_fails start w1 w2 _ H1 H2)
    as (w' & _ & Hexit & _).
  exact Hexit.
Defined.


(** C5, counterexample to the claim as stated: the reply is accepted and
    its list holds an entry whose name equals the target up to case, but a
    [null] entry precedes it; the scan throws on it and the result has no
    [hasAccess] at all.  And for the empty target, an entry with neither
    name shape is a match. *)
Lemma verifyAccess_null_entry_counterexample :
  (get_reply null_entry = Reply 200 (payload [JNull; jdoe_entry])
   ∧ default_validateStatus 200 = true
   ∧ Exists (entry_matches "jdoe") [JNull; jdoe_entry]
   ∧ (@verifyAccess cfg null_entry "PROJ1" "jdoe" start).1
     = Ok {| vr_ok := false; vr_status := None; vr_hasAccess := None; vr_raw := None;
             vr_error := Some "Cannot read properties of null (reading 'name')";
             vr_url := "http://bitbucket:7990/rest/api/1.0/projects/PROJ1/permissions/users?filter=jdoe" |})
  ∧ (nameless (JObj []) ∧ scan_access "" (payload [JObj []]) = inr true).
Proof.
  split; [|by vm_compute].
  split; [done|]. split; [done|]. split.
  - right. left. exists "JDoe". by vm_compute.
  - by vm_compute.
Qed.

Lemma verifyAccess_verdict_witness :
  get_reply still_listed = Reply 200 (payload [jdoe_entry])
  ∧ default_validateStatus 200 = true
  ∧ ∃ r w', @verifyAccess cfg still_listed "PROJ1" "jdoe" start = (Ok r, w')
      ∧ vr_hasAccess r = Some true.
Proof.
  split; [reflexivity|]. split; [reflexivity|].
  destruct (@verifyAccess_verdict cfg still_listed "PROJ1" "jdoe" start 200
              (payload [jdoe_entry]) eq_refl eq_refl)
    as (r & w' & Hrun & _ & _ & Hfirst & _).
  exists r, w'. split; [exact Hrun|].
  apply (Hfirst [] jdoe_entry [] eq_refl); [by constructor | by constructor |].
  exists "JDoe". by vm_compute.
Defined.

Lemma verifyAccess_request_throws_witness :
  let request := axios "get" (@verify_url cfg "PROJ1" "jdoe") default_validateStatus
                   (get_reply verify_timeout) start in
  request = (Throw "timeout of 20000ms exceeded", request.2)
  ∧ ∃ r, @verifyAccess cfg verify_timeout "PROJ1" "jdoe" start = (Ok r, request.2)
      ∧ stillHasAccess r = false.
Proof.
  intros request.
  assert (request = (Throw "timeout of 20000ms exceeded", request.2)) as Hreq
    by (apply (run_split (axios "get" (@verify_url cfg "PROJ1" "jdoe") default_validateStatus
                            (get_reply verify_timeout)) start); reflexivity).
  split; [exact Hreq|].
  destruct (@verifyAccess_request_throws cfg verify_timeout "PROJ1" "jdoe" start _ _ Hreq)
    as (r & Hrun & _ & _ & Hfalse & _).
  exists r. by split.
Defined.

(** C7, counterexample to the claim as stated: the navigation throws; the
    call ends without having closed the browser it launched. *)
Lemma createEvidence_goto_fault_counterexample :
  let run := @createEvidence cfg goto_fails "jdoe" "557058" "PROJ1" "url" JNull
               "/app/output_files/png/no_access/a.png" start in
  run.1 = Throw "net::ERR_FILE_NOT_FOUND"
  ∧ browsers start = 0%nat ∧ browsers run.2 = 1%nat
  ∧ trace run.2
    = [EvWriteFile "/app/output_files/html/jdoe_PROJ1_2024-01-05_09-03-12.html";
       EvLaunch; EvNewPage;
       EvGoto "file:///app/output_files/html/jdoe_PROJ1_2024-01-05_09-03-12.html"].
Proof. by vm_compute. Qed.

Lemma createEvidence_browser_balance_witness :
  let run := @createEvidence cfg trim_fails "jdoe" "557058" "PROJ1" "url" JNull
               "/app/output_files/png/no_access/a.png" start in
  run = (run.1, run.2)
  ∧ run.1 = Ok {| htmlFile := "/app/output_files/html/jdoe_PROJ1_2024-01-05_09-03-12.html";
                  pngFile := "/app/output_files/png/no_access/a.png" |}
  ∧ browsers run.2 = browsers start.
Proof.
  intros run.
  assert (run.1 = Ok {| htmlFile := "/app/output_files/html/jdoe_PROJ1_2024-01-05_09-03-12.html";
                        pngFile := "/app/output_files/png/no_access/a.png" |}) as Hok
    by (vm_compute; reflexivity).
  split; [apply surjective_pairing|]. split; [exact Hok|].
  pose proof (@createEvidence_browser_balance cfg trim_fails "jdoe" "557058" "PROJ1" "url"
                JNull "/app/output_files/png/no_access/a.png" start run.1 run.2
                (surjective_pairing run)) as Hbalance.
  rewrite Hok in Hbalance. exact Hbalance.
Defined.


(** The unlink of line 202 sits in the [try] block of the trim: when the
    trim succeeds and the unlink throws, the handler meant for a failing
    trim renames the raw capture over the trimmed image. *)
Example unlink_fault_overwrites_trimmed :
  let tmp := "/app/output_files/png/no_access/a.png.tmp.png" in
  let dest := "/app/output_files/png/no_access/a.png" in
  let run := trim_capture unlink_refused tmp dest captured in
  sharp unlink_refused "RAW" = Trimmed "TRIMMED"
  ∧ run.1 = Ok ()
  ∧ fs run.2 !! dest = Some "RAW"
  ∧ fs run.2 !! tmp = None
  ∧ trace run.2 = [EvSharpTrim tmp dest; EvUnlink tmp; EvRename tmp dest].
Proof. by vm_compute. Qed.


Lemma capture_region_clamped_witness :
  let run := @createEvidence cfg revoked "jdoe" "557058" "PROJ1" "url" JNull
               "/app/output_files/png/no_access/a.png" start in
  measured revoked = inr (Rect 0 0 (Some 800) (Some 0))
  ∧ clip_of (Rect 0 0 (Some 800) (Some 0)) = Clip 0 0 800 900
  ∧ viewports (new_events start run.2) = [(1280, 900)]
  ∧ clip_shots (new_events start run.2)
    = [("/app/output_files/png/no_access/a.png.tmp.png", Clip 0 0 800 900)].
Proof.
  intros run.
  destruct (@capture_region_clamped cfg revoked (Rect 0 0 (Some 800) (Some 0))
              "jdoe" "557058" "PROJ1" "url" JNull
              "/app/output_files/png/no_access/a.png" start eq_refl)
    as (_ & _ & _ & _ & _ & _ & _ & _ & _ & _ & _ & Hv & Hc & _).
  split; [reflexivity|]. split; [reflexivity|]. split; [exact Hv | exact Hc].
Defined.

Lemma verify_error_status_no_access_witness :
  get_reply verify_404 = Reply 404 (JStr "Not Found")
  ∧ default_validateStatus 404 = false
  ∧ eligible row ∧ renderer_completes verify_404 = true
  ∧ ∃ w', @process_row cfg verify_404 row start = (Ok (), w')
      ∧ appended_rows (new_events start w')
        = [(@NO_ACCESS_OUTPUT_CSV cfg, @csv_row cfg verify_404 row false)].
Proof.
  assert (eligible row) as Hrow by (by vm_compute).
  assert (renderer_completes verify_404 = true) as Hc by (by vm_compute).
  split; [reflexivity|]. split; [reflexivity|]. split; [done|]. split; [done|].
  destruct (@verify_error_status_no_access cfg verify_404 404 (JStr "Not Found")
              "PROJ1" "jdoe" row start eq_refl eq_refl) as (_ & _ & _ & Hdone).
  destruct (Hdone Hrow Hc) as (w' & Hrun & Hrows & _).
  exists w'. by split.
Defined.

(** ** The cases the specification lists *)

Example match_ignores_case :
  name_matches "jsmith" (JObj [("name", JStr "JSmith")]) = inr true.
Proof. by vm_compute. Qed.

Example match_both_shapes :
  name_matches "bob" (JObj [("name", JStr "bob")]) = inr true
  ∧ name_matches "bob" (JObj [("user", JObj [("name", JStr "bob")])]) = inr true.
Proof. by vm_compute. Qed.

Example scan_unusual_payloads :
  scan_access "jdoe" (payload []) = inr false
  ∧ scan_access "jdoe" JNull = inr false
  ∧ scan_access "jdoe" (JStr "<html>") = inr false
  ∧ scan_access "jdoe" (JArr [jdoe_entry]) = inr false
  ∧ scan_access "jdoe" (payload [JObj []; JNum 7; JStr "jdoe"]) = inr false
  ∧ scan_access "jdoe" (payload [jdoe_entry; JNull]) = inr true.
Proof. by vm_compute. Qed.

Example revoked_goes_to_no_access :
  let run := @process_row cfg revoked row start in
  run.1 = Ok ()
  ∧ appended_rows (trace run.2)
    = [("/app/output_files/no_access_check_results_after_revoke.csv",
        "jdoe,557058,PROJ1,PROJECT_WRITE,NO_ACCESS,2024-01-05 09:03:12,/app/output_files/png/no_access/jdoe_PROJ1_2024-01-05_09-03-12.png
")]
  ∧ fs run.2 !! "/app/output_files/png/no_access/jdoe_PROJ1_2024-01-05_09-03-12.png"
    = Some "TRIMMED".
Proof. by vm_compute. Qed.

Example still_listed_goes_to_has_access :
  let run := @process_row cfg still_listed row start in
  run.1 = Ok ()
  ∧ appended_rows (trace run.2)
    = [("/app/output_files/access_check_results_after_revoke.csv",
        "jdoe,557058,PROJ1,PROJECT_WRITE,HAS_ACCESS,2024-01-05 09:03:12,/app/output_files/png/has_access/jdoe_PROJ1_2024-01-05_09-03-12.png
")]
  ∧ fs run.2 !! "/app/output_files/png/has_access/jdoe_PROJ1_2024-01-05_09-03-12.png"
    = Some "TRIMMED".
Proof. by vm_compute. Qed.

Example no_access_row_is_skipped :
  let run := @process_row cfg revoked no_access_row start in
  run.1 = Ok ()
  ∧ trace run.2 = [EvConsole [JStr "Skipping jdoe - already NO_ACCESS"]].
Proof. by vm_compute. Qed.

Example capture_geometry_cases :
  clip_of (Rect (-5) 3 (Some 20000) None) = Clip 0 3 16384 900
  ∧ viewport_of (Clip 0 3 16384 900) = (16384, 903)
  ∧ clip_of (Rect 10 20 (Some 0) (Some 30000)) = Clip 10 20 1280 16384
  ∧ viewport_of (Clip 10 20 1280 16384) = (1290, 16404)
  ∧ viewport_of (clip_of (Rect 0 0 (Some 300) (Some 200))) = (1280, 900).
Proof. by vm_compute. Qed.

Example empty_directory_is_no_op :
  let run := @createDocx cfg (no_report_env has_report_fails) (@NO_ACCESS_PNG_DIR cfg)
               "Bitbucket_No_Access_Report.docx" start in
  run.1 = Ok () ∧ trace run.2 = [EvReaddir "/app/output_files/png/no_access"]
  ∧ fs run.2 !! "/app/output_files/doc/Bitbucket_No_Access_Report.docx" = None.
Proof. by vm_compute. Qed.

(** ** The further properties, on the scenario *)

Import Scenario.

Lemma safeName_nonempty_witness :
  "a/b c" ≠ ""
  ∧ safeName "a/b c" ≠ "" ∧ (String.length (safeName "a/b c") ≤ String.length "a/b c")%nat.
Proof.
  assert ("a/b c" ≠ "") as Hs by done.
  split; [exact Hs|]. exact (safeName_nonempty "a/b c" Hs).
Defined.

Lemma process_row_http_calls_witness :
  eligible row
  ∧ http_calls (new_events start (@process_row cfg goto_fails row start).2)
    = [("delete", @revoke_url cfg (field row "Project Key") (field row "Username"));
       ("get", @verify_url cfg (field row "Project Key") (field row "Username"))].
Proof.
  assert (eligible row) as Hrow by (by vm_compute).
  split; [exact Hrow|]. exact (@process_row_http_calls cfg goto_fails row start Hrow).
Defined.

Lemma for_rows_skips_ineligible_witness :
  Forall (λ r, ¬ eligible r) [no_access_row; blank_user]
  ∧ ∃ evs, @for_rows cfg (all_written revoked) 0 [no_access_row; blank_user] start
           = (Ok (), World (fs start) (browsers start) (trace start ++ evs))
      ∧ effects evs = [].
Proof.
  assert (Forall (λ r, ¬ eligible r) [no_access_row; blank_user]) as Hall.
  { repeat constructor.
    - intros (_ & _ & Hstatus). vm_compute in Hstatus. discriminate Hstatus.
    - intros (Huser & _). vm_compute in Huser. by apply Huser. }
  split; [exact Hall|].
  exact (@for_rows_skips_ineligible cfg (all_written revoked) 0 _ start Hall).
Defined.

Lemma for_rows_one_row_each_witness :
  let rows := [no_access_row; row; blank_user; row] in
  let w' := (@for_rows cfg (all_written still_listed) 0 rows start).2 in
  @for_rows cfg (all_written still_listed) 0 rows start = (Ok (), w')
  ∧ length (appended_rows (new_events start w')) = length (filter eligible rows)
  ∧ browsers w' = browsers start.
Proof.
  intros rows w'.
  assert (@for_rows cfg (all_written still_listed) 0 rows start = (Ok (), w')) as Hrun
    by (apply (run_split (@for_rows cfg (all_written still_listed) 0 rows) start);
        vm_compute; reflexivity).
  split; [exact Hrun|].
  exact (@for_rows_one_row_each cfg (all_written still_listed) 0 rows start w' Hrun).
Defined.


Lemma main_parse_failure_witness :
  fs start !! @INPUT_CSV_PATH unparsable = Some "Username,Project Key,Access Status"
  ∧ @csv_parse unparsable "Username,Project Key,Access Status" = inl "Invalid Record Length"
  ∧ (@main unparsable (all_written revoked) start).1 = Exit 2.
Proof.
  assert (fs start !! @INPUT_CSV_PATH unparsable = Some "Username,Project Key,Access Status")
    as Hraw by (by vm_compute).
  split; [exact Hraw|]. split; [reflexivity|].
  by rewrite (@main_parse_failure unparsable (all_written revoked) start _ _ Hraw eq_refl).
Defined.

Lemma main_confined_to_output_witness :
  under (@OUTPUT_DIR cfg) "/app/notes.txt" = false
  ∧ fs (@main cfg (all_written still_listed) second_run).2 !! "/app/notes.txt"
    = fs second_run !! "/app/notes.txt".
Proof.
  assert (under (@OUTPUT_DIR cfg) "/app/notes.txt" = false) as Hp by (by vm_compute).
  split; [exact Hp|].
  exact (@main_confined_to_output cfg (all_written still_listed) second_run _ Hp).
Defined.

Lemma main_removes_only_temporaries_witness :
  let old := "/app/output_files/png/has_access/old_PROJ0_2023-12-31_23-59-59.png" in
  Str.endsWith old ".tmp.png" = false
  ∧ is_Some (fs second_run !! old)
  ∧ is_Some (fs (@main cfg (all_written launch_fails) second_run).2 !! old).
Proof.
  intros old.
  assert (Str.endsWith old ".tmp.png" = false) as Hp by (by vm_compute).
  assert (is_Some (fs second_run !! old)) as Hs by (exists "OLD"; by vm_compute).
  split; [exact Hp|]. split; [exact Hs|].
  exact (@main_removes_only_temporaries cfg (all_written launch_fails) second_run old Hp Hs).
Defined.

Lemma main_reports_hold_directory_witness :
  let old := "/app/output_files/png/has_access/old_PROJ0_2023-12-31_23-59-59.png" in
  let E := all_written still_listed in
  let w' := (@main cfg E second_run).2 in
  @main cfg E second_run = (Ok (), w')
  ∧ (old ∈ report_images (@report_of cfg true) (new_events second_run w')
     ↔ entry_exists (fs w') old ∧ is_png_of (@png_dir cfg true) old
       ∧ inserted (report_env E true) old = true).
Proof.
  intros old E w'.
  assert (@main cfg E second_run = (Ok (), w')) as Hrun
    by (apply (run_split (@main cfg E) second_run); vm_compute; reflexivity).
  split; [exact Hrun|].
  exact (@main_reports_hold_directory cfg E second_run w' true old Hrun).
Defined.

Lemma main_record_in_its_report_witness :
  let E := all_written still_listed in
  let w' := (@main cfg E second_run).2 in
  let verdict := @verdict_of cfg (record_env E 0) row in
  fs second_run !! @INPUT_CSV_PATH cfg = Some "Username,Project Key,Access Status"
  ∧ @main cfg E second_run = (Ok (), w')
  ∧ eligible row
  ∧ leaves_image (record_env E 0) = true
  ∧ inserted (report_env E verdict) (@png_path cfg (record_env E 0) row) = true
  ∧ @png_path cfg (record_env E 0) row
    ∈ report_images (@report_of cfg verdict) (new_events second_run w')
  ∧ @png_path cfg (record_env E 0) row
    ∉ report_images (@report_of cfg (negb verdict)) (new_events second_run w').
Proof.
  assert (eligible row) as Hrow by (by vm_compute).
  assert (fs second_run !! @INPUT_CSV_PATH cfg = Some "Username,Project Key,Access Status")
    as Hraw by (by vm_compute).
  assert (leaves_image still_listed = true) as Hleft by (by vm_compute).
  assert (inserted (report_env (all_written still_listed) (@verdict_of cfg still_listed row))
            (@png_path cfg still_listed row) = true) as Hins by (by vm_compute).
  intros E w' verdict.
  assert (@main cfg E second_run = (Ok (), w')) as Hrun
    by (apply (run_split (@main cfg E) second_run); vm_compute; reflexivity).
  split; [exact Hraw|]. split; [exact Hrun|]. split; [exact Hrow|].
  split; [exact Hleft|]. split; [exact Hins|].
  destruct (@main_record_in_its_report cfg E second_run w' _ [row] 0 row Hraw eq_refl Hrun
              eq_refl Hrow) as (Hin & _ & Hout).
  split; [exact (Hin Hleft Hins) | exact Hout].
Defined.

Lemma main_csv_contents_witness :
  let E := all_written still_listed in
  let w' := (@main three_rows E second_run).2 in
  fs second_run !! @INPUT_CSV_PATH three_rows = Some "Username,Project Key,Access Status"
  ∧ @main three_rows E second_run = (Ok (), w')
  ∧ fs w' !! @csv_of three_rows true
    = Some (CSV_HEADER +:+ @csv_rows three_rows E 0 [no_access_row; blank_user; row] true)
  ∧ fs w' !! @csv_of three_rows false
    = Some (CSV_HEADER +:+ @csv_rows three_rows E 0 [no_access_row; blank_user; row] false).
Proof.
  intros E w'.
  assert (fs second_run !! @INPUT_CSV_PATH three_rows
          = Some "Username,Project Key,Access Status") as Hraw by (by vm_compute).
  assert (@main three_rows E second_run = (Ok (), w')) as Hrun
    by (apply (run_split (@main three_rows E) second_run); vm_compute; reflexivity).
  split; [exact Hraw|]. split; [exact Hrun|]. split.
  - exact (@main_csv_contents three_rows E second_run w' _ _ true Hraw eq_refl Hrun).
  - exact (@main_csv_contents three_rows E second_run w' _ _ false Hraw eq_refl Hrun).
Defined.

Lemma main_renderer_fault_is_fatal_witness :
  let E := all_written launch_fails in
  fs second_run !! @INPUT_CSV_PATH three_rows = Some "Username,Project Key,Access Status"
  ∧ eligible row
  ∧ renderer_returns (record_env E 2) = false
  ∧ (@main three_rows E second_run).1 = Exit 2
  ∧ readdirs (new_events second_run (@main three_rows E second_run).2) = [].
Proof.
  intros E.
  assert (fs second_run !! @INPUT_CSV_PATH three_rows
          = Some "Username,Project Key,Access Status") as Hraw by (by vm_compute).
  assert (eligible row) as Hrow by (by vm_compute).
  assert (renderer_returns (record_env E 2) = false) as Hfault by (by vm_compute).
  split; [exact Hraw|]. split; [exact Hrow|]. split; [exact Hfault|].
  destruct (@main_renderer_fault_is_fatal three_rows E second_run _
              [no_access_row; blank_user; row] 2 row Hraw eq_refl eq_refl Hrow Hfault)
    as (Hexit & Hdirs & _).
  split; [exact Hexit | exact Hdirs].
Defined.

Lemma configure_base_url_witness :
  configure (Some " Bitbucket.local:7990// ") (Some "svc") (Some "secret")
  = Some "http://Bitbucket.local:7990"
  ∧ has_scheme "http://Bitbucket.local:7990" = true
  ∧ (Str.endsWith "http://Bitbucket.local:7990" "/" = true
     ↔ strip_trailing_slashes (Str.trim (env_or_empty (Some " Bitbucket.local:7990// "))) = "").
Proof.
  assert (configure (Some " Bitbucket.local:7990// ") (Some "svc") (Some "secret")
          = Some "http://Bitbucket.local:7990") as Hcfg by (by vm_compute).
  split; [exact Hcfg|].
  destruct (configure_base_url _ _ _ _ Hcfg) as (Hscheme & Hslash & _).
  split; [exact Hscheme | exact Hslash].
Defined.

(** ** More cases *)

Example safeName_cases :
  safeName "john doe" = "john_doe"
  ∧ safeName "a/b\c:d" = "a_b_c_d"
  ∧ safeName "../../etc" = ".._.._etc"
  ∧ safeName "a  ??  b" = "a_b"
  ∧ safeName "" = "".
Proof. by vm_compute. Qed.

Example timestamps :
  formatTs clock = "2024-01-05 09:03:12" ∧ formatSafeTs clock = "2024-01-05_09-03-12".
Proof. by vm_compute. Qed.

Example request_urls :
  @revoke_url cfg "PR/1" "j doe&x=1"
  = "http://bitbucket:7990/rest/api/1.0/projects/PR%2F1/permissions/users?name=j%20doe%26x%3D1".
Proof. by vm_compute. Qed.

(** The edge the normalisation leaves: a URL of slashes only. *)
Example configure_cases :
  configure (Some "https://bb.example.com/") (Some "svc") (Some "secret")
  = Some "https://bb.example.com"
  ∧ configure (Some "HTTP://bb.example.com///") (Some "svc") (Some "secret")
    = Some "HTTP://bb.example.com"
  ∧ configure (Some "//") (Some "svc") (Some "secret") = Some "http://"
  ∧ configure (Some "http://") (Some "svc") (Some "secret") = Some "http://http:"
  ∧ configure (Some "   ") (Some "svc") (Some "secret") = None
  ∧ configure (Some "bb") None (Some "secret") = None
  ∧ configure (Some "bb") (Some "svc") (Some "") = None.
Proof. by vm_compute. Qed.

(** A sub-directory whose name ends with [.png] is listed like an image;
    when no image can be inserted the document is generated without any. *)
Example folder_is_listed :
  let run := @createDocx cfg (no_report_env (all_written revoked)) (@NO_ACCESS_PNG_DIR cfg)
               "Bitbucket_No_Access_Report.docx" with_folder in
  let bare := @createDocx cfg inserts_nothing (@NO_ACCESS_PNG_DIR cfg)
                "Bitbucket_No_Access_Report.docx" with_folder in
  run.1 = Ok ()
  ∧ "/app/output_files/png/no_access/folder.png"
    ∈ report_images "/app/output_files/doc/Bitbucket_No_Access_Report.docx" (trace run.2)
  ∧ length (report_images "/app/output_files/doc/Bitbucket_No_Access_Report.docx"
              (trace run.2)) = 2%nat
  ∧ bare.1 = Ok ()
  ∧ report_images "/app/output_files/doc/Bitbucket_No_Access_Report.docx" (trace bare.2) = []
  ∧ fs bare.2 !! "/app/output_files/doc/Bitbucket_No_Access_Report.docx" = Some "DOCX"
  ∧ EvConsole [JStr "Failed to add image to DOCX:";
               JStr "/app/output_files/png/no_access/folder.png";
               JStr "ENOENT: no such file or directory"] ∈ trace bare.2.
Proof.
  cbv zeta. split; [by vm_compute|].
  split; [|split; [by vm_compute|]; split; [by vm_compute|]; split; [by vm_compute|];
           split; [by vm_compute|]; vm_compute; right; right; left].
  assert (report_images "/app/output_files/doc/Bitbucket_No_Access_Report.docx"
            (trace (@createDocx cfg (no_report_env (all_written revoked))
                      (@NO_ACCESS_PNG_DIR cfg) "Bitbucket_No_Access_Report.docx"
                      with_folder).2)
          = ["/app/output_files/png/no_access/folder.png";
             "/app/output_files/png/no_access/a_P_2024-01-05_09-03-12.png"]
          ∨ report_images "/app/output_files/doc/Bitbucket_No_Access_Report.docx"
              (trace (@createDocx cfg (no_report_env (all_written revoked))
                        (@NO_ACCESS_PNG_DIR cfg) "Bitbucket_No_Access_Report.docx"
                        with_folder).2)
            = ["/app/output_files/png/no_access/a_P_2024-01-05_09-03-12.png";
               "/app/output_files/png/no_access/folder.png"])
    as [-> | ->] by (vm_compute; auto).
  - left.
  - right. left.
Qed.

(** A stream that fails after it was opened leaves a truncated report;
    one that cannot be opened leaves the report of the earlier run. *)
Example failed_write_cases :
  let out := "/app/output_files/doc/Bitbucket_No_Access_Report.docx" in
  let cut := @createDocx cfg truncating (@NO_ACCESS_PNG_DIR cfg)
               "Bitbucket_No_Access_Report.docx" with_old_report in
  let shut := @createDocx cfg (has_report_env has_report_fails) (@NO_ACCESS_PNG_DIR cfg)
                "Bitbucket_No_Access_Report.docx" with_old_report in
  fs with_old_report !! out = Some "OLD-DOCX"
  ∧ cut.1 = Throw "ENOSPC: no space left on device" ∧ fs cut.2 !! out = Some ""
  ∧ shut.1 = Throw "EACCES: permission denied" ∧ fs shut.2 !! out = Some "OLD-DOCX".
Proof. by vm_compute. Qed.

(** A second run: the stale table is replaced, the image of the earlier run
    is in the report again next to the new one. *)
Example second_run_report :
  let run := @main cfg (all_written still_listed) second_run in
  run.1 = Ok ()
  ∧ report_images "/app/output_files/doc/Bitbucket_Has_Access_Report.docx" (trace run.2)
    ≡ₚ ["/app/output_files/png/has_access/old_PROJ0_2023-12-31_23-59-59.png";
        "/app/output_files/png/has_access/jdoe_PROJ1_2024-01-05_09-03-12.png"]
  ∧ report_images "/app/output_files/doc/Bitbucket_No_Access_Report.docx" (trace run.2) = []
  ∧ fs run.2 !! "/app/output_files/doc/Bitbucket_No_Access_Report.docx" = None.
Proof.
  cbv zeta. split; [by vm_compute|]. split; [|by vm_compute].
  assert (report_images "/app/output_files/doc/Bitbucket_Has_Access_Report.docx"
            (trace (@main cfg (all_written still_listed) second_run).2)
          = ["/app/output_files/png/has_access/jdoe_PROJ1_2024-01-05_09-03-12.png";
             "/app/output_files/png/has_access/old_PROJ0_2023-12-31_23-59-59.png"]
          ∨ report_images "/app/output_files/doc/Bitbucket_Has_Access_Report.docx"
              (trace (@main cfg (all_written still_listed) second_run).2)
            = ["/app/output_files/png/has_access/old_PROJ0_2023-12-31_23-59-59.png";
               "/app/output_files/png/has_access/jdoe_PROJ1_2024-01-05_09-03-12.png"])
    as [-> | ->] by (vm_compute; auto).
  - apply Permutation_swap.
  - reflexivity.
Qed.
